(** * Agente-Inmobiliario: the qualification, orchestration, nurturing and
      conversation-cache core, embedded from the Python sources.

    Part I holds the embedding, one module per source file:
    - [Py]: the Python values the code handles (JSON values, truthiness,
      exceptions, a state-and-exception monad);
    - [Models]: models/database_models.py;
    - [Crm]: tools/crm.py;
    - [AiEngine]: tools/ai_engine.py (action dispatch, tool loop, the
      fallback generations and the extraction);
    - [NurturingEngine]: tools/nurturing_engine.py with the two senders;
    - [Database]: tools/database.py;
    - [ConversationManager]: tools/conversation_manager.py;
    - [CrmLeads]: [get_or_create_lead] of tools/crm.py;
    - [LeadQualifier]: tools/lead_qualifier.py;
    - [Scheduler]: the visiting hours and slots of tools/scheduler.py;
    - [HumanHandoff]: [handoff_to_human] of tools/human_handoff.py;
    and then, one module per source file again, the definitions the
    theorems are stated with ([CrmSpec], [AiEngineSpec], [NurturingSpec],
    [DatabaseSpec], [ConversationSpec], [LeadsSpec], [SchedulerSpec],
    [HandoffSpec]).
    Part II holds the theorems, in the same order. *)

From Stdlib Require Import ZArith String List Lia Bool.
From Stdlib Require Uint63.
From Corelib Require Import PrimFloat.
From stdpp Require Import base option list gmap strings.

Set Warnings "-register-all".
Set Default Proof Using "Type".
Local Open Scope string_scope.
Local Open Scope Z_scope.
Local Open Scope list_scope.

(* ================================================================== *)
(** * Part I. The embedding *)
(* ================================================================== *)

(** ** Python values *)
Module Py.

(** What [json.loads] yields, which is also what a Supabase row or a
    pydantic attribute set without validation can hold.  [JNull] is
    Python's [None]. *)
Inductive json : Type :=
  | JNull
  | JBool (b : bool)
  | JInt (z : Z)
  | JFloat (f : float)
  | JStr (s : string)
  | JArr (l : list json)
  | JObj (m : gmap string json).

(** A Python [dict] with string keys. *)
Abbreviation dict := (gmap string json).

(** [v is None]. *)
Definition is_none (v : json) : bool :=
  match v with JNull => true | _ => false end.

(** [bool(v)]: what [if v:], [and], [or] and [not] test. *)
Definition truthy (v : json) : bool :=
  match v with
  | JNull => false
  | JBool b => b
  | JInt z => negb (Z.eqb z 0)
  | JFloat f => negb (PrimFloat.eqb f 0%float)
  | JStr s => negb (String.eqb s "")
  | JArr l => match l with [] => false | _ :: _ => true end
  | JObj m => negb (bool_decide (m = ∅))
  end.

(** [a or b] on values. *)
Definition py_or (a b : json) : json := if truthy a then a else b.

(** Lists and dicts cannot be hashed, so they cannot be looked up as
    dict keys. *)
Definition hashable (v : json) : bool :=
  match v with JArr _ | JObj _ => false | _ => true end.

(** [d.get(k)] and [d.get(k, default)]. *)
Definition dict_get (d : dict) (k : string) : json := default JNull (d !! k).
Definition dict_get_or (d : dict) (k : string) (dflt : json) : json :=
  default dflt (d !! k).

(** [isinstance(v, str)]. *)
Definition is_str (v : json) : bool :=
  match v with JStr _ => true | _ => false end.

(** [s in text] for strings. *)
Definition str_contains (s text : string) : bool :=
  match String.index 0 s text with Some _ => true | None => false end.

(** [text.startswith(p)]. *)
Definition startswith (text p : string) : bool := String.prefix p text.

(** The exceptions the code meets.  [ValueError] stands for a
    [ValueError] that is not a [JSONDecodeError] (its subclass, which
    has a constructor of its own, since [except json.JSONDecodeError]
    tells them apart). *)
Inductive exn : Type :=
  | KeyError (key : string)
  | TypeError
  | ValueError
  | AttributeError
  | IndexError
  | RuntimeError
  | ValidationError
  | JSONDecodeError
  | OtherError (str_e : string).

Inductive result (A : Type) : Type :=
  | Ok (a : A)
  | Raise (e : exn).
Arguments Ok {A} a.
Arguments Raise {A} e.

Definition is_ok {A} (r : result A) : bool :=
  match r with Ok _ => true | Raise _ => false end.

(** [d[k]]. *)
Definition dict_item (d : dict) (k : string) : result json :=
  match d !! k with Some v => Ok v | None => Raise (KeyError k) end.

(** An f-string before it is rendered: literal text and the values
    interpolated into it. *)
Inductive frag : Type :=
  | Lit (s : string)
  | Val (v : json)
  | Num (z : Z).
Abbreviation fstring := (list frag).

(** Code that passes a state along and may raise. *)
Definition M (S A : Type) : Type := S -> result A * S.

Definition ret {S A} (a : A) : M S A := fun s => (Ok a, s).
Definition raise {S A} (e : exn) : M S A := fun s => (Raise e, s).
Definition bind {S A B} (c : M S A) (k : A -> M S B) : M S B :=
  fun s => match c s with
           | (Ok a, s') => k a s'
           | (Raise e, s') => (Raise e, s')
           end.
Definition lift {S A} (r : result A) : M S A := fun s => (r, s).
Definition get {S} : M S S := fun s => (Ok s, s).
Definition modify {S} (f : S -> S) : M S unit := fun s => (Ok tt, f s).

(** [try: body / except Exception: handler]. *)
Definition try_except {S A} (body : M S A) (handler : exn -> M S A) : M S A :=
  fun s => match body s with
           | (Ok a, s') => (Ok a, s')
           | (Raise e, s') => handler e s'
           end.

(** Bind on plain results, for code without state. *)
Definition rbind {A B} (r : result A) (k : A -> result B) : result B :=
  match r with Ok a => k a | Raise e => Raise e end.

End Py.
Export Py.

Declare Scope py_scope.
Delimit Scope py_scope with py.
Notation "'let*' x ':=' c 'in' k" := (bind c (fun x => k))
  (at level 10, x pattern, c at level 100, k at level 200) : py_scope.
Notation "c ';;' k" := (bind c (fun _ => k))
  (at level 100, k at level 200, right associativity) : py_scope.
Notation "'let?' x ':=' c 'in' k" := (rbind c (fun x => k))
  (at level 10, x pattern, c at level 100, k at level 200) : py_scope.
Local Open Scope py_scope.

(** ** models/database_models.py *)
Module Models.

Inductive LeadStatus : Type :=
  | NUEVO | CONTACTADO | CUALIFICADO | VISITA_AGENDADA | NEGOCIACION
  | CERRADO_GANADO | CERRADO_PERDIDO | INACTIVO.

Definition LeadStatus_value (s : LeadStatus) : string :=
  match s with
  | NUEVO => "nuevo"
  | CONTACTADO => "contactado"
  | CUALIFICADO => "cualificado"
  | VISITA_AGENDADA => "visita_agendada"
  | NEGOCIACION => "negociacion"
  | CERRADO_GANADO => "cerrado_ganado"
  | CERRADO_PERDIDO => "cerrado_perdido"
  | INACTIVO => "inactivo"
  end.

#[global] Instance LeadStatus_eq_dec : EqDecision LeadStatus.
Proof. solve_decision. Defined.

Inductive LeadScore : Type := CURIOSO | INTERESADO | CALIENTE | LISTO.

Definition LeadScore_value (s : LeadScore) : string :=
  match s with
  | CURIOSO => "curioso"
  | INTERESADO => "interesado"
  | CALIENTE => "caliente"
  | LISTO => "listo_para_comprar"
  end.

Inductive ChannelType : Type :=
  | WHATSAPP | INSTAGRAM | EMAIL | TELEFONO | WEB | PORTAL.

Definition ChannelType_value (c : ChannelType) : string :=
  match c with
  | WHATSAPP => "whatsapp"
  | INSTAGRAM => "instagram"
  | EMAIL => "email"
  | TELEFONO => "telefono"
  | WEB => "web"
  | PORTAL => "portal"
  end.

#[global] Instance ChannelType_eq_dec : EqDecision ChannelType.
Proof. solve_decision. Defined.

Inductive TaskPriority : Type := BAJA | MEDIA | ALTA | URGENTE.

Definition TaskPriority_value (p : TaskPriority) : string :=
  match p with
  | BAJA => "baja" | MEDIA => "media" | ALTA => "alta" | URGENTE => "urgente"
  end.

(** A point in time ([datetime]), as seconds. *)
Abbreviation datetime := Z (only parsing).

(** [LeadPreferences].  Every attribute is optional; the model does not
    validate on assignment, so after [setattr] an attribute holds
    whatever JSON value the extraction carried. *)
Record LeadPreferences : Type := {
  operation : json;
  property_type : json;
  zone : json;
  min_budget : json;
  max_budget : json;
  min_sqm : json;
  max_sqm : json;
  bedrooms : json;
  bathrooms : json;
  parking : json;
  urgency : json;
  purpose : json;
  notes : json;
}.

(** [LeadPreferences()]. *)
Definition LeadPreferences_default : LeadPreferences :=
  {| operation := JNull; property_type := JNull; zone := JNull;
     min_budget := JNull; max_budget := JNull; min_sqm := JNull;
     max_sqm := JNull; bedrooms := JNull; bathrooms := JNull;
     parking := JNull; urgency := JNull; purpose := JNull; notes := JNull |}.

(** The attribute names [getattr] and [setattr] are called with. *)
Inductive pref_attr : Type :=
  | A_operation | A_property_type | A_zone | A_min_budget | A_max_budget
  | A_min_sqm | A_max_sqm | A_bedrooms | A_bathrooms | A_parking
  | A_urgency | A_purpose | A_notes.

#[global] Instance pref_attr_eq_dec : EqDecision pref_attr.
Proof. solve_decision. Defined.

Definition getattr (p : LeadPreferences) (a : pref_attr) : json :=
  match a with
  | A_operation => operation p
  | A_property_type => property_type p
  | A_zone => zone p
  | A_min_budget => min_budget p
  | A_max_budget => max_budget p
  | A_min_sqm => min_sqm p
  | A_max_sqm => max_sqm p
  | A_bedrooms => bedrooms p
  | A_bathrooms => bathrooms p
  | A_parking => parking p
  | A_urgency => urgency p
  | A_purpose => purpose p
  | A_notes => notes p
  end.

Definition setattr (p : LeadPreferences) (a : pref_attr) (v : json)
  : LeadPreferences :=
  let pick b old := if decide (a = b) then v else old in
  {| operation := pick A_operation (operation p);
     property_type := pick A_property_type (property_type p);
     zone := pick A_zone (zone p);
     min_budget := pick A_min_budget (min_budget p);
     max_budget := pick A_max_budget (max_budget p);
     min_sqm := pick A_min_sqm (min_sqm p);
     max_sqm := pick A_max_sqm (max_sqm p);
     bedrooms := pick A_bedrooms (bedrooms p);
     bathrooms := pick A_bathrooms (bathrooms p);
     parking := pick A_parking (parking p);
     urgency := pick A_urgency (urgency p);
     purpose := pick A_purpose (purpose p);
     notes := pick A_notes (notes p) |}.

(** [Lead].  [name] is typed like the preferences: it is assigned from
    the extraction without validation. *)
Record Lead : Type := {
  lead_id : option string;
  lead_name : json;
  lead_phone : option string;
  lead_email : option string;
  lead_channel : ChannelType;
  lead_status : LeadStatus;
  lead_score : Z;
  lead_score_label : LeadScore;
  lead_preferences : LeadPreferences;
  lead_tags : list string;
  lead_assigned_agent : option string;
  lead_created_at : option datetime;
  lead_last_contact : option datetime;
  lead_total_interactions : Z;
}.

(** [Lead()] with the model's defaults. *)
Definition Lead_default : Lead :=
  {| lead_id := None; lead_name := JNull; lead_phone := None;
     lead_email := None; lead_channel := WHATSAPP; lead_status := NUEVO;
     lead_score := 0; lead_score_label := CURIOSO;
     lead_preferences := LeadPreferences_default; lead_tags := [];
     lead_assigned_agent := None; lead_created_at := None;
     lead_last_contact := None; lead_total_interactions := 0 |}.

(** [Message] and [Conversation], parameterised by nothing: timestamps
    are [datetime]s. *)
Record Message : Type := {
  msg_role : string;
  msg_content : string;
  msg_timestamp : datetime;
  msg_channel : option ChannelType;
}.

Record Conversation : Type := {
  conv_id : json;
  conv_lead_id : string;
  conv_channel : ChannelType;
  conv_messages : list Message;
  conv_summary : json;
  conv_updated_at : option datetime;
}.

End Models.
Export Models.

(** ** config.py: lead scoring thresholds *)
Module Config.
Definition LEAD_SCORE_COLD : Z := 25.
Definition LEAD_SCORE_WARM : Z := 50.
Definition LEAD_SCORE_HOT : Z := 75.
Definition LEAD_SCORE_READY : Z := 100.
End Config.
Export Config.

(** ** tools/crm.py *)
Module Crm.

(** What [create_task] is called with ([created_at] left out: the model
    of this file has no clock). *)
Record TaskData : Type := {
  task_lead_id : option string;
  task_type : string;
  task_description : fstring;
  task_priority : string;
  task_status : string;
}.

(** What [update_lead] is called with. *)
Record LeadUpdate : Type := {
  upd_name : json;
  upd_preferences : LeadPreferences;
  upd_score : Z;
  upd_score_label : string;
  upd_status : string;
}.

(** The calls this file makes to tools/database.py.  Both adapters
    catch every exception of the client (see [Database]) and their
    results are not read here, so a call is recorded and nothing
    else. *)
Inductive db_call : Type :=
  | CallUpdateLead (id : option string) (data : LeadUpdate)
  | CallCreateTask (data : TaskData).

Definition opt_json (o : option string) : json :=
  match o with Some s => JStr s | None => JNull end.

(** [field_map.items()], in the order the dict literal gives. *)
Definition field_map : list (string * pref_attr) :=
  [ ("operation", A_operation);
    ("property_type", A_property_type);
    ("zone", A_zone);
    ("min_budget", A_min_budget);
    ("max_budget", A_max_budget);
    ("bedrooms", A_bedrooms);
    ("bathrooms", A_bathrooms);
    ("min_sqm", A_min_sqm);
    ("parking", A_parking);
    ("urgency", A_urgency);
    ("purpose", A_purpose) ].

(** One round of the loop over [field_map]: the state is [prefs] (the
    lead's own preferences object) and the flag [updated]. *)
Definition merge_field (extracted : dict)
    (st : LeadPreferences * bool) (kv : string * pref_attr)
  : LeadPreferences * bool :=
  let '(prefs, updated) := st in
  let '(ext_key, pref_key) := kv in
  let value := dict_get extracted ext_key in
  if negb (is_none value) && is_none (getattr prefs pref_key)
  then (setattr prefs pref_key value, true)
  else (prefs, updated).

(** [calculate_lead_score].  [extracted] is optional; the lookup in
    [interest_points] hashes the interest level, which raises on a list
    or a dict. *)
Definition interest_points (interest : json) : result Z :=
  if hashable interest then
    Ok (match interest with
        | JStr s =>
            if String.eqb s "bajo" then 0
            else if String.eqb s "medio" then 5
            else if String.eqb s "alto" then 10
            else if String.eqb s "muy alto" then 15
            else 0
        | _ => 0
        end)
  else Raise TypeError.

Definition urgency_is_soon (u : json) : bool :=
  match u with
  | JStr s => String.eqb s "inmediata" || String.eqb s "1-3 meses"
  | _ => false
  end.

Definition calculate_lead_score (lead : Lead) (extracted : option dict)
  : result Z :=
  let score := 0 in
  let prefs := lead_preferences lead in
  let score := if truthy (operation prefs) then score + 10 else score in
  let score := if truthy (property_type prefs) then score + 10 else score in
  let score := if truthy (zone prefs) then score + 15 else score in
  let score :=
    if truthy (py_or (max_budget prefs) (min_budget prefs))
    then score + 15 else score in
  let score := if truthy (bedrooms prefs) then score + 5 else score in
  let score :=
    if truthy (urgency prefs) then
      let score := score + 10 in
      if urgency_is_soon (urgency prefs) then score + 10 else score
    else score in
  let score := if truthy (purpose prefs) then score + 5 else score in
  let score := if truthy (lead_name lead) then score + 5 else score in
  let? score :=
    match extracted with
    | Some extracted =>
        if truthy (JObj extracted) then
          let interest := dict_get_or extracted "interest_level" (JStr "bajo") in
          let? points := interest_points interest in
          let score := score + points in
          Ok (if truthy (dict_get extracted "wants_visit")
              then score + 15 else score)
        else Ok score
    | None => Ok score
    end in
  let score := if 3 <=? lead_total_interactions lead then score + 5 else score in
  let score := if 5 <=? lead_total_interactions lead then score + 5 else score in
  Ok (Z.min score 100).

Definition get_score_label (score : Z) : LeadScore :=
  if score <=? LEAD_SCORE_COLD then CURIOSO
  else if score <=? LEAD_SCORE_WARM then INTERESADO
  else if score <=? LEAD_SCORE_HOT then CALIENTE
  else LISTO.

(** The task of [_create_hot_lead_task]. *)
Definition hot_lead_task (lead : Lead) : TaskData :=
  let prefs := lead_preferences lead in
  {| task_lead_id := lead_id lead;
     task_type := "llamar";
     task_description :=
       [ Lit "🔥 Lead caliente: ";
         Val (py_or (lead_name lead) (opt_json (lead_phone lead)));
         Lit ". Score: "; Num (lead_score lead); Lit "/100. Busca: ";
         Val (py_or (operation prefs) (JStr "N/A")); Lit " ";
         Val (py_or (property_type prefs) (JStr "")); Lit " en ";
         Val (py_or (zone prefs) (JStr "N/A")); Lit ". Presupuesto: ";
         Val (py_or (max_budget prefs) (JStr "N/A")); Lit "€" ];
     task_priority := TaskPriority_value ALTA;
     task_status := "pendiente" |}.

(** The task of [_create_human_handoff_task]. *)
Definition human_handoff_task (lead : Lead) : TaskData :=
  {| task_lead_id := lead_id lead;
     task_type := "contactar";
     task_description :=
       [ Lit "👤 El cliente ";
         Val (py_or (lead_name lead) (opt_json (lead_phone lead)));
         Lit " ha solicitado hablar con un agente humano. Canal: ";
         Lit (ChannelType_value (lead_channel lead));
         Lit ". Contactar lo antes posible." ];
     task_priority := TaskPriority_value URGENTE;
     task_status := "pendiente" |}.

(** The state [update_lead_from_extraction] runs in: the [Lead] object
    it was handed (it mutates it in place and returns it) and the
    calls made to the store adapter, oldest first. *)
Record State : Type := {
  st_lead : Lead;
  st_calls : list db_call;
}.

Definition set_lead (f : Lead -> Lead) : M State unit :=
  modify (fun st => {| st_lead := f (st_lead st); st_calls := st_calls st |}).
Definition call_db (c : db_call) : M State unit :=
  modify (fun st => {| st_lead := st_lead st; st_calls := st_calls st ++ [c] |}).
Definition the_lead : M State Lead :=
  fun st => (Ok (st_lead st), st).

Definition with_preferences (p : LeadPreferences) (l : Lead) : Lead :=
  {| lead_id := lead_id l; lead_name := lead_name l;
     lead_phone := lead_phone l; lead_email := lead_email l;
     lead_channel := lead_channel l; lead_status := lead_status l;
     lead_score := lead_score l; lead_score_label := lead_score_label l;
     lead_preferences := p; lead_tags := lead_tags l;
     lead_assigned_agent := lead_assigned_agent l;
     lead_created_at := lead_created_at l;
     lead_last_contact := lead_last_contact l;
     lead_total_interactions := lead_total_interactions l |}.
Definition with_name (n : json) (l : Lead) : Lead :=
  {| lead_id := lead_id l; lead_name := n;
     lead_phone := lead_phone l; lead_email := lead_email l;
     lead_channel := lead_channel l; lead_status := lead_status l;
     lead_score := lead_score l; lead_score_label := lead_score_label l;
     lead_preferences := lead_preferences l; lead_tags := lead_tags l;
     lead_assigned_agent := lead_assigned_agent l;
     lead_created_at := lead_created_at l;
     lead_last_contact := lead_last_contact l;
     lead_total_interactions := lead_total_interactions l |}.
Definition with_score (s : Z) (lbl : LeadScore) (l : Lead) : Lead :=
  {| lead_id := lead_id l; lead_name := lead_name l;
     lead_phone := lead_phone l; lead_email := lead_email l;
     lead_channel := lead_channel l; lead_status := lead_status l;
     lead_score := s; lead_score_label := lbl;
     lead_preferences := lead_preferences l; lead_tags := lead_tags l;
     lead_assigned_agent := lead_assigned_agent l;
     lead_created_at := lead_created_at l;
     lead_last_contact := lead_last_contact l;
     lead_total_interactions := lead_total_interactions l |}.
Definition with_status (s : LeadStatus) (l : Lead) : Lead :=
  {| lead_id := lead_id l; lead_name := lead_name l;
     lead_phone := lead_phone l; lead_email := lead_email l;
     lead_channel := lead_channel l; lead_status := s;
     lead_score := lead_score l; lead_score_label := lead_score_label l;
     lead_preferences := lead_preferences l; lead_tags := lead_tags l;
     lead_assigned_agent := lead_assigned_agent l;
     lead_created_at := lead_created_at l;
     lead_last_contact := lead_last_contact l;
     lead_total_interactions := lead_total_interactions l |}.

(** [update_lead_from_extraction(lead, extracted)]: the lead is the one
    of the state. *)
Definition update_lead_from_extraction (extracted : dict) : M State unit :=
  let* lead := the_lead in
  (* the loop over field_map, on lead.preferences itself *)
  let '(prefs, updated) :=
    fold_left (merge_field extracted) field_map (lead_preferences lead, false) in
  set_lead (with_preferences prefs) ;;
  (* the name, when we had none *)
  let extracted_name := dict_get extracted "name" in
  let* lead := the_lead in
  (if truthy extracted_name && negb (truthy (lead_name lead))
   then set_lead (with_name extracted_name) else ret tt) ;;
  (* score and label, from scratch *)
  let* lead := the_lead in
  let* score := lift (calculate_lead_score lead (Some extracted)) in
  set_lead (with_score score (get_score_label score)) ;;
  (* status, by score *)
  let* lead := the_lead in
  (if (LEAD_SCORE_HOT <=? lead_score lead)
      && bool_decide (lead_status lead = NUEVO)
   then set_lead (with_status CUALIFICADO)
   else if (LEAD_SCORE_WARM <=? lead_score lead)
           && bool_decide (lead_status lead = NUEVO)
   then set_lead (with_status CONTACTADO)
   else ret tt) ;;
  (* "if updated or True": the record is always written *)
  let* lead := the_lead in
  (if updated || true then
     call_db (CallUpdateLead (lead_id lead)
       {| upd_name := lead_name lead;
          upd_preferences := lead_preferences lead;
          upd_score := lead_score lead;
          upd_score_label := LeadScore_value (lead_score_label lead);
          upd_status := LeadStatus_value (lead_status lead) |})
   else ret tt) ;;
  (if LEAD_SCORE_HOT <=? lead_score lead
   then call_db (CallCreateTask (hot_lead_task lead)) else ret tt) ;;
  (if truthy (dict_get extracted "wants_human_agent")
   then call_db (CallCreateTask (human_handoff_task lead)) else ret tt).

(** The object after the call, the calls it made, and how it ended. *)
Definition run_update (lead : Lead) (extracted : dict)
  : result unit * State :=
  update_lead_from_extraction extracted {| st_lead := lead; st_calls := [] |}.

Definition lead_after (lead : Lead) (extracted : dict) : Lead :=
  st_lead (snd (run_update lead extracted)).
Definition calls_of (lead : Lead) (extracted : dict) : list db_call :=
  st_calls (snd (run_update lead extracted)).
Definition returned (lead : Lead) (extracted : dict) : bool :=
  is_ok (fst (run_update lead extracted)).

(** Qualification passes one after the other on the same object; a
    pass that raised leaves the object as it was when it raised. *)
Definition passes (extractions : list dict) (lead : Lead) : Lead :=
  fold_left lead_after extractions lead.

End Crm.

(** ** tools/ai_engine.py: the action dispatch and the tool loop *)
Module AiEngine.

Definition nl : string := String (Ascii.ascii_of_nat 10) EmptyString.

(** A requested action, a choice and a completion, as the OpenAI client
    returns them. *)
Record ToolCall : Type := {
  tc_id : string;
  tc_name : string;
  tc_arguments : string;
}.

Record ChatMessage : Type := {
  cm_content : option string;
  cm_tool_calls : list ToolCall;
}.

Record Choice : Type := {
  finish_reason : string;
  message : ChatMessage;
}.

(** What one [client.chat.completions.create] call comes to: a response
    with its choices, or an exception [e] given by [str(e)]. *)
Inductive completion : Type :=
  | Completed (choices : list Choice)
  | Failed (error_str : string).

(** The entries of [messages]. *)
Inductive chat_msg : Type :=
  | MsgDict (d : dict)
  | MsgAssistant (m : ChatMessage)
  | MsgTool (tool_call_id : string) (content : fstring).

Definition technical_difficulties : string :=
  "Lo siento, estoy teniendo dificultades técnicas. ¿Podrías intentar de nuevo? 🙏".
Definition still_processing : string :=
  "Estoy procesando tu solicitud. ¿Puedes darme un momento? 🙏".

(** [arguments.get(k)], [arguments.get(k, d)] and [arguments[k]] on
    what [json.loads] returned, which need not be a dict. *)
Definition args_get (arguments : json) (k : string) : result json :=
  match arguments with
  | JObj d => Ok (dict_get d k)
  | _ => Raise AttributeError
  end.
Definition args_get_or (arguments : json) (k : string) (dflt : json)
  : result json :=
  match arguments with
  | JObj d => Ok (dict_get_or d k dflt)
  | _ => Raise AttributeError
  end.
Definition args_item (arguments : json) (k : string) : result json :=
  match arguments with
  | JObj d => dict_item d k
  | _ => Raise TypeError
  end.

(** The functions the dispatch imports from tools/property_manager.py,
    tools/scheduler.py and tools/human_handoff.py (and
    [datetime.strptime]), each taken by what a call returns or raises:
    what is proved of the dispatch holds whatever they do. *)
Class Collaborators : Type := {
  search_properties_by_criteria :
    json -> json -> json -> json -> json -> Z -> result (list dict);
  format_property_for_chat : dict -> result string;
  get_property_by_reference : json -> result json;
  (** [datetime.strptime] on the formatted date and time; [None] is
      its [ValueError]. *)
  strptime : json -> json -> option datetime;
  schedule_visit : json -> json -> json -> json -> datetime -> result json;
  get_available_slots : json -> result (list dict);
  format_available_slots_for_chat : json -> list dict -> result string;
  calculate_mortgage : json -> json -> json -> json -> result dict;
  format_mortgage_for_chat : dict -> result string;
  handoff_to_human :
    json -> json -> json -> json -> json -> json -> json -> result unit;
  generate_handoff_response : json -> result string;
}.

(** The outside of the tool loop. *)
Class Service : Type := {
  (** The reasoning service: what the call number [n] (from 0) returns
      on the messages it is sent. *)
  create : nat -> list chat_msg -> completion;
  (** [json.loads]: the value read, or what it raises: its
      [JSONDecodeError] on a text that is not JSON, and on some texts
      another exception (a [RecursionError] on deep nesting, a
      [ValueError] on an integer of too many digits). *)
  json_loads : string -> result json;
}.

Section Dispatch.
Context `{Collaborators}.

(** The loop [for prop in results: output += format(prop) + newline]. *)
Fixpoint format_all (results : list dict) (output : fstring)
  : result fstring :=
  match results with
  | [] => Ok output
  | prop :: rest =>
      let? text := format_property_for_chat prop in
      format_all rest (output ++ [Lit text; Lit nl])
  end.

Definition _execute_tool_call (name : string) (arguments : json)
    (lead_context : option dict) : result fstring :=
  let lead_context := default ∅ lead_context in
  if String.eqb name "search_properties" then
    let? zone := args_get arguments "zone" in
    let? property_type := args_get arguments "property_type" in
    let? max_price := args_get arguments "max_price" in
    let? bedrooms := args_get arguments "bedrooms" in
    let? operation := args_get arguments "operation" in
    let? results :=
      search_properties_by_criteria
        zone property_type max_price bedrooms operation 5 in
    match results with
    | [] => Ok [Lit "No se encontraron propiedades con esos criterios. Prueba con criterios diferentes."]
    | _ :: _ =>
        format_all results
          [Lit "Se encontraron "; Num (Z.of_nat (length results));
           Lit " propiedades:"; Lit nl; Lit nl]
    end
  else if String.eqb name "get_property_details" then
    let? reference := args_item arguments "reference" in
    let? prop := get_property_by_reference reference in
    if negb (truthy prop) then
      let? reference := args_item arguments "reference" in
      Ok [Lit "No se encontró la propiedad con referencia ";
          Val reference; Lit "."]
    else
      match prop with
      | JObj prop => let? text := format_property_for_chat prop in Ok [Lit text]
      | _ => Raise AttributeError
      end
  else if String.eqb name "schedule_visit" then
    let? date_str := args_get_or arguments "preferred_date" (JStr "") in
    let? time_str := args_get_or arguments "preferred_time" (JStr "") in
    let? prop_ref := args_get_or arguments "property_reference" (JStr "") in
    match strptime date_str time_str with
    | None => Ok [Lit "Formato de fecha/hora no válido. Usa YYYY-MM-DD y HH:MM."]
    | Some visit_datetime =>
        let? client_name :=
          args_get_or arguments "client_name"
            (dict_get_or lead_context "name" (JStr "")) in
        let? client_phone :=
          args_get_or arguments "client_phone"
            (dict_get_or lead_context "phone" (JStr "")) in
        let client_email := dict_get_or lead_context "email" (JStr "") in
        let? result :=
          schedule_visit client_name client_phone client_email prop_ref
            visit_datetime in
        let? booked :=
          if truthy result then
            match result with
            | JObj r => Ok (truthy (dict_get r "id"))
            | _ => Raise AttributeError
            end
          else Ok false in
        if (booked : bool) then
          Ok [Lit "✅ Visita agendada correctamente:"; Lit nl;
              Lit "📅 Fecha: "; Val date_str; Lit nl;
              Lit "🕐 Hora: "; Val time_str; Lit nl;
              Lit "🏠 Propiedad: "; Val prop_ref; Lit nl;
              Lit "Se enviarán recordatorios automáticos."]
        else
          Ok [Lit "No se pudo agendar la visita. Puede que el horario no esté disponible."]
    end
  else if String.eqb name "check_availability" then
    let? date_str := args_get_or arguments "date" (JStr "") in
    let? slots := get_available_slots date_str in
    match slots with
    | [] => Ok [Lit "No hay horarios disponibles el "; Val date_str;
                Lit ". Prueba otro día."]
    | _ :: _ =>
        let? text := format_available_slots_for_chat date_str slots in
        Ok [Lit text]
    end
  else if String.eqb name "calculate_mortgage" then
    let? price := args_item arguments "price" in
    let? down := args_get_or arguments "down_payment_percent" (JInt 20) in
    let? years := args_get_or arguments "years" (JInt 30) in
    let? rate := args_get_or arguments "interest_rate" (JFloat 3.5%float) in
    let? result := calculate_mortgage price down years rate in
    let? text := format_mortgage_for_chat result in
    Ok [Lit text]
  else if String.eqb name "transfer_to_human" then
    let? reason := args_get_or arguments "reason" (JStr "solicitud_directa") in
    let? summary := args_get_or arguments "summary" (JStr "") in
    let? _ :=
      handoff_to_human
        (dict_get_or lead_context "name" (JStr ""))
        (dict_get_or lead_context "phone" (JStr ""))
        (dict_get_or lead_context "email" (JStr ""))
        (dict_get_or lead_context "score" (JInt 0))
        (dict_get_or lead_context "channel" (JStr "whatsapp"))
        reason summary in
    let? text := generate_handoff_response reason in
    Ok [Lit text]
  else Ok [Lit "Función "; Lit name; Lit " no implementada."].

End Dispatch.

Section Loop.
Context `{Collaborators} `{Service}.

(** The state of one [_generate_with_tools] call: the message list
    (mutated in place), the reasoning-service calls issued so far and
    the seconds slept. *)
Record LoopState : Type := {
  ls_messages : list chat_msg;
  ls_calls : nat;
  ls_slept : Z;
}.

Definition append_message (m : chat_msg) : M LoopState unit :=
  modify (fun st => {| ls_messages := ls_messages st ++ [m];
                       ls_calls := ls_calls st; ls_slept := ls_slept st |}).
Definition sleep (seconds : Z) : M LoopState unit :=
  modify (fun st => {| ls_messages := ls_messages st;
                       ls_calls := ls_calls st;
                       ls_slept := ls_slept st + seconds |}).
Definition call_create : M LoopState completion :=
  fun st => (Ok (create (ls_calls st) (ls_messages st)),
             {| ls_messages := ls_messages st;
                ls_calls := S (ls_calls st); ls_slept := ls_slept st |}).

(** The inner loop over [choice.message.tool_calls]. *)
Fixpoint run_tool_calls (lead_context : option dict)
    (tool_calls : list ToolCall) : M LoopState unit :=
  match tool_calls with
  | [] => ret tt
  | tool_call :: rest =>
      let func_name := tc_name tool_call in
      let* func_args :=
        lift (match json_loads (tc_arguments tool_call) with
              | Raise JSONDecodeError => Ok (JObj ∅)
              | outcome => outcome
              end) in
      let* result := lift (_execute_tool_call func_name func_args lead_context) in
      append_message (MsgTool (tc_id tool_call) result) ;;
      run_tool_calls lead_context rest
  end.

(** The loop [for _round in range(max_tool_rounds)], on the rounds
    that remain, followed by the statement after the loop. *)
Fixpoint rounds (lead_context : option dict) (remaining : nat)
  : M LoopState string :=
  match remaining with
  | O => ret still_processing
  | S remaining =>
      let* response := call_create in
      match response with
      | Failed error_str =>
          if str_contains "429" error_str
          then (sleep 15 ;; rounds lead_context remaining)
          else ret technical_difficulties
      | Completed choices =>
          match choices with
          | [] => raise IndexError
          | choice :: _ =>
              let tool_calls := cm_tool_calls (message choice) in
              if String.eqb (finish_reason choice) "tool_calls"
                 && negb (bool_decide (tool_calls = []))
              then
                append_message (MsgAssistant (message choice)) ;;
                run_tool_calls lead_context tool_calls ;;
                rounds lead_context remaining
              else ret (default "" (cm_content (message choice)))
          end
      end
  end.

Definition _generate_with_tools (messages : list chat_msg)
    (lead_context : option dict) (max_tool_rounds : Z)
  : result string * LoopState :=
  rounds lead_context (Z.to_nat max_tool_rounds)
    {| ls_messages := messages; ls_calls := 0%nat; ls_slept := 0 |}.

(** [_generate_openai_compatible]: the loop
    [for attempt in range(max_retries)] from [attempt] on, everything
    in it under one [try], and the end of the function after it, where
    nothing is returned ([None]).  An empty [choices] raises
    [IndexError] inside the [try]; its text is what [str(e)] gives. *)
Fixpoint attempts_from (attempt : Z) (remaining : nat) (max_retries : Z)
  : M LoopState (option string) :=
  match remaining with
  | O => ret None
  | S remaining =>
      let* response := call_create in
      let outcome : string + option string :=
        match response with
        | Completed (choice :: _) => inr (cm_content (message choice))
        | Completed [] => inl "list index out of range"
        | Failed error_str => inl error_str
        end in
      match outcome with
      | inr content => ret content
      | inl error_str =>
          if str_contains "429" error_str && (attempt <? max_retries - 1)
          then
            let wait := (attempt + 1) * 15 in
            sleep wait ;;
            attempts_from (attempt + 1) remaining max_retries
          else ret (Some technical_difficulties)
      end
  end.

Definition _generate_openai_compatible (messages : list chat_msg)
    (max_retries : Z) : result (option string) * LoopState :=
  attempts_from 0 (Z.to_nat max_retries) max_retries
    {| ls_messages := messages; ls_calls := 0%nat; ls_slept := 0 |}.

End Loop.

(** The providers the module chooses from: [LLM_PROVIDER] of config.py,
    the three client constructors (each may raise on a missing key),
    the Anthropic request with the [response.content[0].text] read
    from its answer, and [str.strip]. *)
Class Providers : Type := {
  LLM_PROVIDER : string;
  _get_openai_client : result unit;
  _get_gemini_client : result unit;
  AsyncAnthropic : result unit;
  anthropic_text : string -> list dict -> result string;
  strip : string -> string;
}.

(** [v == s] for a string literal [s]. *)
Definition str_eq (v : json) (s : string) : bool :=
  match v with JStr t => String.eqb t s | _ => false end.

Definition quote : string := String (Ascii.ascii_of_nat 34) EmptyString.
Definition fence : string := "```".

(** [s.split(newline, 1)[1]]: what follows the first newline; [None]
    is the [IndexError] of a string without one. *)
Fixpoint after_newline (s : string) : option string :=
  match s with
  | EmptyString => None
  | String c rest =>
      if Ascii.eqb c (Ascii.ascii_of_nat 10) then Some rest
      else after_newline rest
  end.

(** [s.rfind(sep)] for a non-empty [sep], counting from [i], and
    [s.rsplit(sep, 1)[0]]: what precedes the last occurrence of [sep],
    or all of [s] when there is none. *)
Fixpoint rfind_from (sep s : string) (i : nat) : option nat :=
  match s with
  | EmptyString => None
  | String _ rest =>
      match rfind_from sep rest (S i) with
      | Some j => Some j
      | None => if String.prefix sep s then Some i else None
      end
  end.
Definition before_last (sep s : string) : string :=
  match rfind_from sep s 0 with
  | Some i => substring 0 i s
  | None => s
  end.

(** The prompt of [extract_lead_info], its double quotes written as
    [quote]. *)
Definition extraction_prompt : string :=
  String.concat quote
    ["Analiza la siguiente conversación con un cliente inmobiliario y extrae la información disponible.

Responde SOLO con un JSON válido con estos campos (usa null si no se mencionó):
{
    ";
     "operation";
     ": ";
     "comprar|alquilar|vender|null";
     ",
    ";
     "property_type";
     ": ";
     "piso|casa|chalet|ático|dúplex|estudio|local|oficina|terreno|null";
     ",
    ";
     "zone";
     ": ";
     "zona mencionada o null";
     ",
    ";
     "min_budget";
     ": número o null,
    ";
     "max_budget";
     ": número o null,
    ";
     "bedrooms";
     ": número o null,
    ";
     "bathrooms";
     ": número o null,
    ";
     "min_sqm";
     ": número o null,
    ";
     "parking";
     ": true|false|null,
    ";
     "urgency";
     ": ";
     "inmediata|1-3 meses|3-6 meses|sin prisa|null";
     ",
    ";
     "purpose";
     ": ";
     "primera vivienda|inversión|segunda residencia|null";
     ",
    ";
     "name";
     ": ";
     "nombre del cliente o null";
     ",
    ";
     "interest_level";
     ": ";
     "bajo|medio|alto|muy alto";
     ",
    ";
     "wants_visit";
     ": true|false,
    ";
     "wants_human_agent";
     ": true|false,
    ";
     "notes";
     ": ";
     "cualquier otra info relevante";
     "
}

CONVERSACIÓN:
"].

Definition extractor_role : string :=
  "Eres un extractor de datos. Responde SOLO con JSON válido, sin markdown ni explicaciones.".

Section Extraction.
Context `{Service} `{Providers}.

(** The loop of [_generate_anthropic] over the messages: the system
    messages joined, the others kept. *)
Fixpoint split_system (messages : list dict) (system_msg : string)
    (chat_messages : list dict) : result (string * list dict) :=
  match messages with
  | [] => Ok (system_msg, chat_messages)
  | msg :: rest =>
      let? role := dict_item msg "role" in
      if str_eq role "system" then
        let? content := dict_item msg "content" in
        match content with
        | JStr content =>
            split_system rest (system_msg ++ (content ++ nl))%string chat_messages
        | _ => Raise TypeError
        end
      else split_system rest system_msg (chat_messages ++ [msg])
  end.

Definition _generate_anthropic (messages : list dict) : result (option string) :=
  let? _ := AsyncAnthropic in
  let? parts := split_system messages "" [] in
  let '(system_msg, chat_messages) := parts in
  match anthropic_text (strip system_msg) chat_messages with
  | Ok text => Ok (Some text)
  | Raise _ => Ok (Some technical_difficulties)
  end.

(** The [try] block that ends [extract_lead_info]: only the
    [JSONDecodeError] of [json.loads] is caught. *)
Definition read_reply (response_text : option string) : result json :=
  match response_text with
  | None => Raise AttributeError
  | Some response_text =>
      let cleaned := strip response_text in
      let? cleaned :=
        if startswith cleaned fence then
          match after_newline cleaned with
          | Some cleaned => Ok (before_last fence cleaned)
          | None => Raise IndexError
          end
        else Ok cleaned in
      match json_loads cleaned with
      | Raise JSONDecodeError => Ok (JObj ∅)
      | outcome => outcome
      end
  end.

Definition extract_lead_info (conversation_text : string)
  : result json * LoopState :=
  let system : dict :=
    {[ "role" := JStr "system"; "content" := JStr extractor_role ]} in
  let user : dict :=
    {[ "role" := JStr "user";
       "content" := JStr (extraction_prompt ++ conversation_text)%string ]} in
  let idle messages :=
    {| ls_messages := messages; ls_calls := 0%nat; ls_slept := 0 |} in
  let messages := [MsgDict system; MsgDict user] in
  let '(response_text, st) :=
    if String.eqb LLM_PROVIDER "gemini" then
      match _get_gemini_client with
      | Ok _ => _generate_openai_compatible messages 3
      | Raise e => (Raise e, idle messages)
      end
    else if String.eqb LLM_PROVIDER "anthropic" then
      (_generate_anthropic [system; user], idle messages)
    else
      match _get_openai_client with
      | Ok _ => _generate_openai_compatible messages 3
      | Raise e => (Raise e, idle messages)
      end in
  (let? response_text := response_text in read_reply response_text, st).

End Extraction.
End AiEngine.

(** ** tools/nurturing_engine.py, with [send_whatsapp_message] of
    tools/whatsapp_handler.py and [send_email] of tools/email_handler.py *)
Module NurturingEngine.

Definition nl : string := AiEngine.nl.

(** [NURTURING_RULES]: what the module declares of each rule. *)
Record Rule : Type := {
  r_delay_hours : Z;
  r_condition : string;
  r_channel : string;
  r_description : string;
}.

Definition NURTURING_RULES : list (string * Rule) :=
  [ ("post_first_contact",
     {| r_delay_hours := 24;
        r_condition := "total_interactions <= 2 and score < 30";
        r_channel := "whatsapp";
        r_description := "Primer seguimiento tras contacto inicial" |});
    ("post_visit",
     {| r_delay_hours := 24;
        r_condition := "status == 'visita_completada'";
        r_channel := "both";
        r_description := "Seguimiento después de una visita" |});
    ("warm_lead_nudge",
     {| r_delay_hours := 72;
        r_condition := "score >= 30 and score < 60 and days_since_contact >= 3";
        r_channel := "whatsapp";
        r_description := "Empujar lead tibio con propiedades nuevas" |});
    ("cold_lead_reactivation",
     {| r_delay_hours := 168;
        r_condition := "score < 30 and days_since_contact >= 7";
        r_channel := "email";
        r_description := "Reactivar lead frío con contenido de valor" |});
    ("hot_lead_urgency",
     {| r_delay_hours := 48;
        r_condition := "score >= 60 and days_since_contact >= 2";
        r_channel := "whatsapp";
        r_description := "Lead caliente sin actividad — crear urgencia" |});
    ("new_properties_matching",
     {| r_delay_hours := 0;
        r_condition := "has_preferences and new_properties_available";
        r_channel := "email";
        r_description := "Nuevas propiedades que coinciden con criterios" |}) ].

(** The action dicts [_evaluate_nurturing_rules] builds. *)
Record Action : Type := {
  a_type : string;
  a_channel : string;
  a_template : string;
}.

(** The counters [process_nurturing] returns. *)
Record Counters : Type := {
  messages_sent : Z;
  emails_sent : Z;
  leads_processed : Z;
  errors : Z;
}.

(** What the run does to the outside: calls of the two delivery
    clients, and the lines it prints. *)
Inductive event : Type :=
  | TwilioCreate (to body : fstring)
  | SendgridPost (to_email : json) (subject : string) (body : fstring)
  | PrintWhatsAppSent (to : fstring)
  | PrintWhatsAppError (to : fstring)
  | PrintEmailSent (to_email : json)
  | PrintNurturingWhatsApp (phone : json) (type : string)
  | PrintNurturingWhatsAppError (phone : json)
  | PrintNurturingEmail (email : json) (type : string)
  | PrintNurturingEmailError (email : json)
  | PrintNurturingLeadError (lead_id : json).

Record State : Type := {
  actions_taken : Counters;
  events : list event;
}.

Definition emit (e : event) : M State unit :=
  modify (fun st => {| actions_taken := actions_taken st;
                       events := events st ++ [e] |}).
Definition count (f : Counters -> Counters) : M State unit :=
  modify (fun st => {| actions_taken := f (actions_taken st);
                       events := events st |}).

Definition float_of_Z (n : Z) : float := PrimFloat.of_uint63 (Uint63.of_Z n).

(** [v >= n], [v < n] and [v <= n] for an integer constant [n]: numbers
    and booleans compare, anything else raises. *)
Definition ge_int (v : json) (n : Z) : result bool :=
  match v with
  | JInt z => Ok (n <=? z)
  | JBool b => Ok (n <=? (if b then 1 else 0))
  | JFloat f => Ok (PrimFloat.leb (float_of_Z n) f)
  | _ => Raise TypeError
  end.
Definition lt_int (v : json) (n : Z) : result bool :=
  match v with
  | JInt z => Ok (z <? n)
  | JBool b => Ok ((if b then 1 else 0) <? n)
  | JFloat f => Ok (PrimFloat.ltb f (float_of_Z n))
  | _ => Raise TypeError
  end.
Definition le_int (v : json) (n : Z) : result bool :=
  match v with
  | JInt z => Ok (z <=? n)
  | JBool b => Ok ((if b then 1 else 0) <=? n)
  | JFloat f => Ok (PrimFloat.leb f (float_of_Z n))
  | _ => Raise TypeError
  end.

(** [a and b] where [b] is only evaluated when [a] holds. *)
Definition and_then (a : result bool) (b : result bool) : result bool :=
  let? x := a in if (x : bool) then b else Ok false.

Definition _evaluate_nurturing_rules (lead : dict)
    (days_since_contact : Z) (score interactions : json)
  : result (option Action) :=
  let? hot := and_then (ge_int score 60) (Ok (2 <=? days_since_contact)) in
  if (hot : bool) then
    Ok (Some {| a_type := "hot_lead_urgency"; a_channel := "whatsapp";
                a_template := "hot_lead" |})
  else
  let? warm :=
    and_then (ge_int score 30)
      (and_then (lt_int score 60) (Ok (3 <=? days_since_contact))) in
  if (warm : bool) then
    Ok (Some {| a_type := "warm_lead_nudge"; a_channel := "whatsapp";
                a_template := "warm_nudge" |})
  else
  let? first :=
    and_then (le_int interactions 2)
      (and_then (lt_int score 30)
         (Ok ((1 <=? days_since_contact) && (days_since_contact <=? 2)))) in
  if (first : bool) then
    Ok (Some {| a_type := "post_first_contact"; a_channel := "whatsapp";
                a_template := "first_followup" |})
  else
  let? cold := and_then (lt_int score 30) (Ok (7 <=? days_since_contact)) in
  if (cold : bool) then
    Ok (Some {| a_type := "cold_lead_reactivation"; a_channel := "email";
                a_template := "reactivation" |})
  else Ok None.

(** [a + v] for a string [a]: [v] must be a string too. *)
Definition str_add (a : string) (v : json) : result string :=
  match v with
  | JStr s => Ok (a ++ s)%string
  | _ => Raise TypeError
  end.

(** [prefs.get(k, "")] on whatever [lead.get("preferences", {})] gave. *)
Definition prefs_get (prefs : json) (k : string) : result json :=
  match prefs with
  | JObj d => Ok (dict_get_or d k (JStr ""))
  | _ => Raise AttributeError
  end.

(** [' en ' + zone if zone else '']. *)
Definition in_zone (zone : json) : result string :=
  if truthy zone then str_add " en " zone else Ok "".

(** The outside of the nurturing run. *)
Class Outside : Type := {
  (** config.py *)
  AGENT_NAME : string;
  COMPANY_NAME : string;
  (** [datetime.fromisoformat(s)] followed by [(now - last_contact).days]:
      the days, or what either of the two raises. *)
  days_since_iso : string -> result Z;
  (** The Twilio client ([get_twilio_client] and [messages.create]) and
      the SendGrid request ([post] and [raise_for_status]), by whether
      the call made after [n] earlier events goes through. *)
  twilio : nat -> fstring -> fstring -> result unit;
  sendgrid : nat -> json -> string -> fstring -> result unit;
}.

Section Nurturing.
Context `{Outside}.

Definition _generate_nurturing_message (template : string) (lead : dict)
  : result fstring :=
  let name := dict_get_or lead "name" (JStr "") in
  let greeting : fstring :=
    if truthy name then [Lit "¡Hola "; Val name; Lit "!"] else [Lit "¡Hola!"] in
  let prefs := dict_get_or lead "preferences" (JObj ∅) in
  let? zone := prefs_get prefs "zone" in
  let? prop_type := prefs_get prefs "property_type" in
  let? budget := prefs_get prefs "max_budget" in
  if String.eqb template "first_followup" then
    let? recall :=
      if truthy (py_or zone prop_type) then
        let? a := str_add "Recuerdo que buscabas " (py_or prop_type (JStr "algo")) in
        let? z := in_zone zone in
        Ok (a ++ z ++ ". ")%string
      else Ok "" in
    Ok (app greeting
        [Lit " 😊"; Lit nl; Lit nl; Lit "Soy "; Lit AGENT_NAME; Lit " de ";
         Lit COMPANY_NAME;
         Lit ". Ayer estuvimos hablando y quería saber si encontraste lo que buscabas o si puedo ayudarte con algo más.";
         Lit nl; Lit nl; Lit recall;
         Lit "Tengo algunas opciones que podrían interesarte. ¿Seguimos? 🏠"])
  else if String.eqb template "warm_nudge" then
    let? z := in_zone zone in
    let? t :=
      if truthy prop_type
      then let? a := str_add " (" prop_type in Ok (a ++ ")")%string
      else Ok "" in
    Ok (app greeting
        [Lit nl; Lit nl;
         Lit "🏠 Han llegado nuevas propiedades que coinciden con lo que buscas";
         Lit z; Lit t; Lit "."; Lit nl; Lit nl;
         Lit "¿Te gustaría que te envíe los detalles? Solo responde ";
         Lit (String (Ascii.ascii_of_nat 34) "sí");
         Lit (String (Ascii.ascii_of_nat 34) " y te mando toda la info. 😊");
         Lit nl; Lit nl; Lit "— "; Lit AGENT_NAME; Lit ", "; Lit COMPANY_NAME])
  else if String.eqb template "hot_lead" then
    let? z := in_zone zone in
    Ok (app greeting
        [Lit nl; Lit nl;
         Lit "¡Quería avisarte! Hay mucho interés en las propiedades que viste";
         Lit z;
         Lit ". Si quieres que te reserve una visita antes de que se vayan, ¡dime y lo agendamos! 🔥";
         Lit nl; Lit nl; Lit "— "; Lit AGENT_NAME; Lit ", "; Lit COMPANY_NAME])
  else if String.eqb template "reactivation" then
    let? still :=
      if truthy (py_or zone prop_type) then
        let? a := str_add "¿Sigues buscando " (py_or prop_type (JStr "propiedad")) in
        let? z := in_zone zone in
        Ok (a ++ z ++ "? ")%string
      else Ok "¿Sigues buscando propiedad? " in
    Ok (app greeting
        [Lit nl; Lit nl;
         Lit "Hace tiempo que no hablamos y quería escribirte. ";
         Lit still; Lit nl; Lit nl;
         Lit "Tenemos novedades interesantes en nuestro catálogo. Si quieres, puedo enviarte las últimas opciones.";
         Lit nl; Lit nl; Lit "¡Estamos aquí para ayudarte!"; Lit nl; Lit nl;
         Lit "Un saludo,"; Lit nl; Lit AGENT_NAME; Lit nl; Lit COMPANY_NAME])
  else
    Ok (app greeting
        [Lit nl; Lit nl; Lit "¿Puedo ayudarte con algo? — "; Lit AGENT_NAME;
         Lit ", "; Lit COMPANY_NAME]).

(** [send_whatsapp_message]: everything it does is inside its own
    [try], so a failed send is printed and returned as an error
    dict; the result is not read by this file. *)
Definition send_whatsapp_message (to body : fstring) : M State unit :=
  try_except
    (let* st := get in
     emit (TwilioCreate to body) ;;
     lift (twilio (length (events st)) to body) ;;
     emit (PrintWhatsAppSent to))
    (fun _ => emit (PrintWhatsAppError to)).

(** [send_email]: the request is not guarded, so a failure raises. *)
Definition send_email (to_email : json) (subject : string) (body_text : fstring)
  : M State unit :=
  let* st := get in
  emit (SendgridPost to_email subject body_text) ;;
  lift (sendgrid (length (events st)) to_email subject body_text) ;;
  emit (PrintEmailSent to_email).

Definition subject_map (template : string) : string :=
  if String.eqb template "first_followup"
  then ("¿Encontraste lo que buscabas? — " ++ COMPANY_NAME)%string
  else if String.eqb template "warm_nudge"
  then ("🏠 Nuevas opciones para ti — " ++ COMPANY_NAME)%string
  else if String.eqb template "hot_lead"
  then ("¡No te pierdas esta oportunidad! — " ++ COMPANY_NAME)%string
  else if String.eqb template "reactivation"
  then ("Te echamos de menos — " ++ COMPANY_NAME)%string
  else ("Novedades — " ++ COMPANY_NAME)%string.

Definition channel_in (channel a b : string) : bool :=
  String.eqb channel a || String.eqb channel b.

(** [phone and not phone.startswith("ig:")]. *)
Definition phone_ok (phone : json) : result bool :=
  if truthy phone then
    match phone with
    | JStr p => Ok (negb (startswith p "ig:"))
    | _ => Raise AttributeError
    end
  else Ok false.

Definition _execute_nurturing_action (lead : dict) (action : Action)
  : M State unit :=
  let phone := dict_get_or lead "phone" (JStr "") in
  let email := dict_get_or lead "email" (JStr "") in
  let template := a_template action in
  let* message := lift (_generate_nurturing_message template lead) in
  (* WhatsApp *)
  let* by_whatsapp :=
    lift (and_then (Ok (channel_in (a_channel action) "whatsapp" "both"))
            (phone_ok phone)) in
  (if (by_whatsapp : bool) then
     try_except
       (send_whatsapp_message [Lit "whatsapp:"; Val phone] message ;;
        emit (PrintNurturingWhatsApp phone (a_type action)))
       (fun _ => emit (PrintNurturingWhatsAppError phone))
   else ret tt) ;;
  (* Email *)
  (if channel_in (a_channel action) "email" "both" && truthy email then
     try_except
       (send_email email (subject_map template) message ;;
        emit (PrintNurturingEmail email (a_type action)))
       (fun _ => emit (PrintNurturingEmailError email))
   else ret tt).

(** The days since the last contact, as the loop body computes them. *)
Definition days_since (lead : dict) : result Z :=
  match dict_get lead "last_contact" with
  | JStr s => days_since_iso s
  | last_contact => if truthy last_contact then Raise TypeError else Ok 999
  end.

Definition bump_processed (c : Counters) : Counters :=
  {| messages_sent := messages_sent c; emails_sent := emails_sent c;
     leads_processed := leads_processed c + 1; errors := errors c |}.
Definition bump_messages (c : Counters) : Counters :=
  {| messages_sent := messages_sent c + 1; emails_sent := emails_sent c;
     leads_processed := leads_processed c; errors := errors c |}.
Definition bump_emails (c : Counters) : Counters :=
  {| messages_sent := messages_sent c; emails_sent := emails_sent c + 1;
     leads_processed := leads_processed c; errors := errors c |}.
Definition bump_errors (c : Counters) : Counters :=
  {| messages_sent := messages_sent c; emails_sent := emails_sent c;
     leads_processed := leads_processed c; errors := errors c + 1 |}.

(** The body of the loop of [process_nurturing], with its [try]. *)
Definition process_lead (lead : dict) : M State unit :=
  try_except
    (let* days := lift (days_since lead) in
     let score := dict_get_or lead "score" (JInt 0) in
     let interactions := dict_get_or lead "total_interactions" (JInt 0) in
     let* action := lift (_evaluate_nurturing_rules lead days score interactions) in
     match action with
     | Some action =>
         _execute_nurturing_action lead action ;;
         count bump_processed ;;
         (if channel_in (a_channel action) "whatsapp" "both"
          then count bump_messages else ret tt) ;;
         (if channel_in (a_channel action) "email" "both"
          then count bump_emails else ret tt)
     | None => ret tt
     end)
    (fun _ =>
       emit (PrintNurturingLeadError (dict_get_or lead "id" (JStr "?"))) ;;
       count bump_errors).

Fixpoint process_leads (leads : list dict) : M State unit :=
  match leads with
  | [] => ret tt
  | lead :: rest => process_lead lead ;; process_leads rest
  end.

Definition initial : State :=
  {| actions_taken := {| messages_sent := 0; emails_sent := 0;
                         leads_processed := 0; errors := 0 |};
     events := [] |}.

(** [process_nurturing(leads)]: the counters returned, with the
    events of the run. *)
Definition process_nurturing (leads : list dict) : result unit * State :=
  process_leads leads initial.

End Nurturing.
End NurturingEngine.

(** ** tools/database.py: the store adapter over the Supabase client *)
Module Database.

(** The request a chain of client calls builds before [execute()]. *)
Inductive clause : Type :=
  | eq_ (column : string) (value : json)
  | neq (column : string) (value : json)
  | gte (column : string) (value : json)
  | order (column : string) (desc : bool)
  | limit (n : Z).

Inductive verb : Type :=
  | select (columns : string)
  | insert (data : dict)
  | update (data : dict).

Record query : Type := {
  q_table : string;
  q_verb : verb;
  q_clauses : list clause;
}.

(** What the adapter does to the outside: the requests executed and
    the lines printed, oldest first. *)
Record Store : Type := {
  executed : list query;
  printed : list string;
}.

Definition record_query (q : query) : M Store unit :=
  modify (fun st => {| executed := executed st ++ [q]; printed := printed st |}).
Definition print (line : string) : M Store unit :=
  modify (fun st => {| executed := executed st; printed := printed st ++ [line] |}).

(** [result.data[0] if result.data else None]. *)
Definition first_row (data : list dict) : option dict := head data.

(** The Supabase client. *)
Class Client : Type := {
  (** [get_client()]: the client, or the [RuntimeError] of a missing
      configuration (or whatever [create_client] raises). *)
  get_client : result unit;
  (** [execute()] of the request issued after [n] earlier ones: the
      rows of [result.data] (none when it is [None] or empty), or the
      exception of the client. *)
  execute : nat -> query -> result (list dict);
}.

Section Adapter.
Context `{Client}.

Definition run (table : string) (v : verb) (clauses : list clause)
  : M Store (list dict) :=
  lift get_client ;;
  let* st := get in
  let q := {| q_table := table; q_verb := v; q_clauses := clauses |} in
  record_query q ;;
  lift (execute (length (executed st)) q).

(* LEADS *)
Definition get_lead_by_phone (phone : json) : M Store (option dict) :=
  try_except
    (let* data := run "leads" (select "*") [eq_ "phone" phone] in
     ret (first_row data))
    (fun _ => print "❌ Error buscando lead por teléfono" ;; ret None).

Definition get_lead_by_id (lead_id : json) : M Store (option dict) :=
  try_except
    (let* data := run "leads" (select "*") [eq_ "id" lead_id] in
     ret (first_row data))
    (fun _ => print "❌ Error obteniendo lead" ;; ret None).

Definition create_lead (data : dict) : M Store (option dict) :=
  try_except
    (let* rows := run "leads" (insert data) [] in ret (first_row rows))
    (fun _ => print "❌ Error creando lead" ;; ret None).

Definition update_lead (lead_id : json) (data : dict) : M Store (option dict) :=
  try_except
    (let* rows := run "leads" (update data) [eq_ "id" lead_id] in
     ret (first_row rows))
    (fun _ => print "❌ Error actualizando lead" ;; ret None).

Definition get_all_leads (status score_min : json) : M Store (list dict) :=
  try_except
    (let by_status := if truthy status then [eq_ "status" status] else [] in
     let by_score :=
       if negb (is_none score_min) then [gte "score" score_min] else [] in
     let* rows :=
       run "leads" (select "*")
         (by_status ++ by_score ++ [order "last_contact" true]) in
     ret rows)
    (fun _ => print "❌ Error obteniendo leads" ;; ret []).

Definition get_active_leads : M Store (list dict) :=
  try_except
    (let* rows :=
       run "leads" (select "*")
         [neq "status" (JStr "cerrado"); neq "status" (JStr "descartado");
          order "last_contact" true; limit 100] in
     ret rows)
    (fun _ => print "❌ Error obteniendo leads activos" ;; ret []).

(* CONVERSATIONS *)
Definition get_conversation_by_lead (lead_id channel : json)
  : M Store (option dict) :=
  try_except
    (let* data :=
       run "conversations" (select "*")
         [eq_ "lead_id" lead_id; eq_ "channel" channel] in
     ret (first_row data))
    (fun _ => print "❌ Error obteniendo conversación" ;; ret None).

Definition upsert_conversation (conversation_id : json) (data : dict)
  : M Store (option dict) :=
  try_except
    (let* rows :=
       if truthy conversation_id
       then run "conversations" (update data) [eq_ "id" conversation_id]
       else run "conversations" (insert data) [] in
     ret (first_row rows))
    (fun _ => print "❌ Error guardando conversación" ;; ret None).

(* APPOINTMENTS *)
Definition create_appointment (data : dict) : M Store (option dict) :=
  try_except
    (let* rows := run "appointments" (insert data) [] in ret (first_row rows))
    (fun _ => print "❌ Error creando cita" ;; ret None).

Definition get_appointments_by_lead (lead_id : json) : M Store (list dict) :=
  try_except
    (let* rows :=
       run "appointments" (select "*")
         [eq_ "lead_id" lead_id; order "datetime_" true] in
     ret rows)
    (fun _ => print "❌ Error obteniendo citas" ;; ret []).

Definition update_appointment (appointment_id : json) (data : dict)
  : M Store (option dict) :=
  try_except
    (let* rows :=
       run "appointments" (update data) [eq_ "id" appointment_id] in
     ret (first_row rows))
    (fun _ => print "❌ Error actualizando cita" ;; ret None).

(* TASKS *)
Definition create_task (data : dict) : M Store (option dict) :=
  try_except
    (let* rows := run "tasks" (insert data) [] in ret (first_row rows))
    (fun _ => print "❌ Error creando tarea" ;; ret None).

Definition get_pending_tasks (assigned_to : json) : M Store (list dict) :=
  try_except
    (let by_agent :=
       if truthy assigned_to then [eq_ "assigned_to" assigned_to] else [] in
     let* rows :=
       run "tasks" (select "*")
         ([eq_ "status" (JStr "pendiente")] ++ by_agent
          ++ [order "due_date" false]) in
     ret rows)
    (fun _ => print "❌ Error obteniendo tareas" ;; ret []).

End Adapter.
End Database.

(** ** tools/conversation_manager.py *)
Module ConversationManager.

(** A reference to a [Conversation] object. *)
Abbreviation ref := positive.

(** The process: the module-level cache [_active_conversations], which
    holds references; the objects they point to; the store adapter's
    trace; and how many times the clock was read. *)
Record World : Type := {
  _active_conversations : gmap string ref;
  heap : gmap ref Conversation;
  store : Database.Store;
  ticks : nat;
}.

Definition MAX_CONTEXT_MESSAGES : nat := 20.

(** [f"{lead_id}_{channel.value}"]. *)
Definition cache_key (lead_id : string) (channel : ChannelType) : string :=
  (lead_id ++ "_" ++ ChannelType_value channel)%string.

Definition set_cache (f : gmap string ref -> gmap string ref) : M World unit :=
  modify (fun w => {| _active_conversations := f (_active_conversations w);
                      heap := heap w; store := store w; ticks := ticks w |}).
Definition set_heap (f : gmap ref Conversation -> gmap ref Conversation)
  : M World unit :=
  modify (fun w => {| _active_conversations := _active_conversations w;
                      heap := f (heap w); store := store w; ticks := ticks w |}).

(** A call into tools/database.py. *)
Definition in_store {A} (c : M Database.Store A) : M World A :=
  fun w =>
    let '(r, s) := c (store w) in
    (r, {| _active_conversations := _active_conversations w;
           heap := heap w; store := s; ticks := ticks w |}).

(** Constructing an object: a reference no live object has. *)
Definition new (c : Conversation) : M World ref :=
  let* w := get in
  let r := fresh (dom (heap w)) in
  set_heap (insert r c) ;; ret r.

(** Reading and updating the object behind a reference. *)
Definition deref (r : ref) : M World Conversation :=
  let* w := get in
  match heap w !! r with
  | Some c => ret c
  | None => raise RuntimeError
  end.
Definition update_object (r : ref) (f : Conversation -> Conversation)
  : M World unit :=
  set_heap (fun h => match h !! r with
                     | Some c => <[r := f c]> h
                     | None => h
                     end).

Definition with_messages (ms : list Message) (c : Conversation) : Conversation :=
  {| conv_id := conv_id c; conv_lead_id := conv_lead_id c;
     conv_channel := conv_channel c; conv_messages := ms;
     conv_summary := conv_summary c; conv_updated_at := conv_updated_at c |}.
Definition with_updated_at (t : datetime) (c : Conversation) : Conversation :=
  {| conv_id := conv_id c; conv_lead_id := conv_lead_id c;
     conv_channel := conv_channel c; conv_messages := conv_messages c;
     conv_summary := conv_summary c; conv_updated_at := Some t |}.
Definition with_id (i : json) (c : Conversation) : Conversation :=
  {| conv_id := i; conv_lead_id := conv_lead_id c;
     conv_channel := conv_channel c; conv_messages := conv_messages c;
     conv_summary := conv_summary c; conv_updated_at := conv_updated_at c |}.

(** The libraries the module runs on. *)
Class Runtime : Type := {
  (** [datetime.now()] at its [n]-th reading, and [isoformat()]. *)
  clock : nat -> datetime;
  isoformat : datetime -> string;
  (** What pydantic makes of a stored row: a [Message] from the dict of
      one message, and the optional string and optional datetime
      fields of [Conversation]. *)
  Message_validate : json -> result Message;
  validate_optional_str : json -> result json;
  validate_optional_datetime : json -> result (option datetime);
}.

Section Manager.
Context `{Database.Client} `{Runtime}.

Definition now : M World datetime :=
  fun w => (Ok (clock (ticks w)),
            {| _active_conversations := _active_conversations w;
               heap := heap w; store := store w; ticks := S (ticks w) |}).

(** The list of messages built from [conv.get("messages") or []]. *)
Fixpoint validate_messages (ms : list json) : result (list Message) :=
  match ms with
  | [] => Ok []
  | m :: rest =>
      let? m' := Message_validate m in
      let? rest' := validate_messages rest in
      Ok (m' :: rest')
  end.
Definition stored_messages (conv : dict) : result (list Message) :=
  match py_or (dict_get conv "messages") (JArr []) with
  | JArr ms => validate_messages ms
  | _ => Raise TypeError
  end.

Definition get_or_create_conversation (lead_id : string)
    (channel : ChannelType) : M World ref :=
  (* cache first *)
  let cache_key := cache_key lead_id channel in
  let* w := get in
  match _active_conversations w !! cache_key with
  | Some conversation => ret conversation
  | None =>
      (* then the store *)
      let* conv :=
        in_store (Database.get_conversation_by_lead
                    (JStr lead_id) (JStr (ChannelType_value channel))) in
      let* conversation :=
        match conv with
        | Some conv =>
            if truthy (JObj conv) then
              (* the arguments of [Conversation(...)] first, then
                 its validation *)
              let* id := lift (dict_item conv "id") in
              let* messages := lift (stored_messages conv) in
              let* id := lift (validate_optional_str id) in
              let* summary :=
                lift (validate_optional_str (dict_get conv "summary")) in
              let* updated_at :=
                lift (validate_optional_datetime (dict_get conv "updated_at")) in
              new {| conv_id := id; conv_lead_id := lead_id;
                     conv_channel := channel; conv_messages := messages;
                     conv_summary := summary; conv_updated_at := updated_at |}
            else
              new {| conv_id := JNull; conv_lead_id := lead_id;
                     conv_channel := channel; conv_messages := [];
                     conv_summary := JNull; conv_updated_at := None |}
        | None =>
            new {| conv_id := JNull; conv_lead_id := lead_id;
                   conv_channel := channel; conv_messages := [];
                   conv_summary := JNull; conv_updated_at := None |}
        end in
      set_cache (insert cache_key conversation) ;;
      ret conversation
  end.

Definition message_row (m : Message) : json :=
  JObj {[ "role" := JStr (msg_role m);
          "content" := JStr (msg_content m);
          "timestamp" := JStr (isoformat (msg_timestamp m));
          "channel" := match msg_channel m with
                       | Some c => JStr (ChannelType_value c)
                       | None => JNull
                       end ]}.

Definition _save_conversation (conversation : ref) : M World unit :=
  let* c := deref conversation in
  let* t := now in
  let data : dict :=
    {[ "lead_id" := JStr (conv_lead_id c);
       "channel" := JStr (ChannelType_value (conv_channel c));
       "messages" := JArr (map message_row (conv_messages c));
       "summary" := conv_summary c;
       "updated_at" := JStr (isoformat t) ]} in
  let* result :=
    in_store (Database.upsert_conversation (conv_id c) data) in
  match result with
  | Some row =>
      if truthy (JObj row) && negb (truthy (conv_id c))
      then update_object conversation (with_id (dict_get row "id"))
      else ret tt
  | None => ret tt
  end.

Definition add_message (lead_id role content : string)
    (channel : ChannelType) : M World ref :=
  let* conversation := get_or_create_conversation lead_id channel in
  let* t := now in
  let message :=
    {| msg_role := role; msg_content := content; msg_timestamp := t;
       msg_channel := Some channel |} in
  update_object conversation
    (fun c => with_messages (conv_messages c ++ [message]) c) ;;
  let* t' := now in
  update_object conversation (with_updated_at t') ;;
  _save_conversation conversation ;;
  ret conversation.

(** [conversation.messages[-MAX_CONTEXT_MESSAGES:]] as role and
    content pairs. *)
Definition get_context_messages (c : Conversation) : list (string * string) :=
  let ms := conv_messages c in
  map (fun m => (msg_role m, msg_content m))
    (drop (length ms - MAX_CONTEXT_MESSAGES) ms).

(** [get_full_conversation_text]: one line for each message, the
    lines joined by newlines. *)
Definition get_full_conversation_text (c : Conversation) : string :=
  String.concat AiEngine.nl
    (map (fun msg =>
            let speaker :=
              if String.eqb (msg_role msg) "user" then "CLIENTE" else "AGENTE" in
            (speaker ++ ": " ++ msg_content msg)%string)
       (conv_messages c)).

Definition clear_cache (lead_id : option string) : M World unit :=
  match lead_id with
  | Some lead_id =>
      if truthy (JStr lead_id) then
        set_cache (filter (fun kv => startswith (fst kv) lead_id = false))
      else set_cache (fun _ => ∅)
  | None => set_cache (fun _ => ∅)
  end.

(** [get_or_create_conversation(lead.id, channel)] as the webhooks and
    [qualify_lead] call it: [lead.id] is an optional string.  With
    [None] the key is the text "None" with the channel, and what is
    constructed on a miss is refused by the model, whose [lead_id] is
    a required string; the other arguments are evaluated first. *)
Definition conversation_of (lead_id : option string) (channel : ChannelType)
  : M World ref :=
  match lead_id with
  | Some lead_id => get_or_create_conversation lead_id channel
  | None =>
      let cache_key := cache_key "None" channel in
      let* w := get in
      match _active_conversations w !! cache_key with
      | Some conversation => ret conversation
      | None =>
          let* conv :=
            in_store (Database.get_conversation_by_lead
                        JNull (JStr (ChannelType_value channel))) in
          match conv with
          | Some conv =>
              if truthy (JObj conv) then
                lift (dict_item conv "id") ;;
                lift (stored_messages conv) ;;
                raise ValidationError
              else raise ValidationError
          | None => raise ValidationError
          end
      end
  end.

(** The process at start: nothing cached, no object. *)
Definition start : World :=
  {| _active_conversations := ∅; heap := ∅;
     store := {| Database.executed := []; Database.printed := [] |};
     ticks := 0 |}.

(** What the handlers do with this module, one call each. *)
Inductive call : Type :=
  | GetOrCreate (lead_id : string) (channel : ChannelType)
  | AddMessage (lead_id role content : string) (channel : ChannelType).

Definition do_call (c : call) (w : World) : World :=
  match c with
  | GetOrCreate lead_id channel =>
      snd (get_or_create_conversation lead_id channel w)
  | AddMessage lead_id role content channel =>
      snd (add_message lead_id role content channel w)
  end.

(** A sequence of calls with no [clear_cache] among them. *)
Definition do_calls (cs : list call) (w : World) : World :=
  fold_left (fun w c => do_call c w) cs w.

End Manager.
End ConversationManager.

(** ** tools/crm.py, continued: [get_or_create_lead], which reads what
    the store adapter returns *)
Module CrmLeads.
Import ConversationManager.

(** The keyword arguments of [Lead(...)] for a stored row, evaluated. *)
Record LeadArgs : Type := {
  arg_id : json;
  arg_name : json;
  arg_phone : json;
  arg_email : json;
  arg_channel : ChannelType;
  arg_status : LeadStatus;
  arg_score : json;
  arg_score_label : LeadScore;
  arg_preferences : LeadPreferences;
  arg_tags : json;
  arg_assigned_agent : json;
  arg_created_at : json;
  arg_last_contact : datetime;
  arg_total_interactions : json;
}.

(** What pydantic makes of values read from the store: the
    preferences from their dict, a lead from its arguments, and the
    optional string [id] of a lead. *)
Class Pydantic : Type := {
  LeadPreferences_validate : dict -> result LeadPreferences;
  Lead_validate : LeadArgs -> result Lead;
  validate_id : json -> result (option string);
}.

(** [v + 1]. *)
Definition add_one (v : json) : result json :=
  match v with
  | JInt z => Ok (JInt (z + 1))
  | JBool b => Ok (JInt ((if b then 1 else 0) + 1))
  | JFloat f => Ok (JFloat (f + 1)%float)
  | _ => Raise TypeError
  end.

(** [ChannelType(v)], [LeadStatus(v)] and [LeadScore(v)]: the member
    with that value, or [ValueError]. *)
Definition ChannelType_of (v : json) : result ChannelType :=
  match v with
  | JStr s =>
      match filter (fun c => ChannelType_value c = s)
              [WHATSAPP; INSTAGRAM; EMAIL; TELEFONO; WEB; PORTAL] with
      | c :: _ => Ok c
      | [] => Raise ValueError
      end
  | _ => Raise ValueError
  end.
Definition LeadStatus_of (v : json) : result LeadStatus :=
  match v with
  | JStr s =>
      match filter (fun c => LeadStatus_value c = s)
              [NUEVO; CONTACTADO; CUALIFICADO; VISITA_AGENDADA; NEGOCIACION;
               CERRADO_GANADO; CERRADO_PERDIDO; INACTIVO] with
      | c :: _ => Ok c
      | [] => Raise ValueError
      end
  | _ => Raise ValueError
  end.
Definition LeadScore_of (v : json) : result LeadScore :=
  match v with
  | JStr s =>
      match filter (fun c => LeadScore_value c = s)
              [CURIOSO; INTERESADO; CALIENTE; LISTO] with
      | c :: _ => Ok c
      | [] => Raise ValueError
      end
  | _ => Raise ValueError
  end.

Definition opt_str (o : option string) : json :=
  match o with Some s => JStr s | None => JNull end.

Section Entry.
Context `{Database.Client} `{Runtime} `{Pydantic}.

(** The dict [create_lead] is called with. *)
Definition lead_data (phone : string) (channel : ChannelType)
    (name : option string) (created_at last_contact : datetime) : dict :=
  {[ "phone" := JStr phone;
     "name" := opt_str name;
     "channel" := JStr (ChannelType_value channel);
     "status" := JStr (LeadStatus_value NUEVO);
     "score" := JInt 0;
     "score_label" := JStr (LeadScore_value CURIOSO);
     "preferences" := JObj ∅;
     "tags" := JArr [];
     "created_at" := JStr (isoformat created_at);
     "last_contact" := JStr (isoformat last_contact);
     "total_interactions" := JInt 1 ]}.

Definition get_or_create_lead (phone : string) (channel : ChannelType)
    (name : option string) : M World Lead :=
  let* existing := in_store (Database.get_lead_by_phone (JStr phone)) in
  let existing := default ∅ existing in
  if truthy (JObj existing) then
    (* the last contact, written to the store *)
    let* id := lift (dict_item existing "id") in
    let* t := now in
    let* interactions :=
      lift (add_one (dict_get_or existing "total_interactions" (JInt 0))) in
    in_store (Database.update_lead id
                {[ "last_contact" := JStr (isoformat t);
                   "total_interactions" := interactions ]}) ;;
    (* the object, from the row read before the update *)
    let* id := lift (dict_item existing "id") in
    let* phone := lift (dict_item existing "phone") in
    let* channel :=
      lift (ChannelType_of
              (dict_get_or existing "channel" (JStr (ChannelType_value channel)))) in
    let* status :=
      lift (LeadStatus_of (dict_get_or existing "status" (JStr "nuevo"))) in
    let* score_label :=
      lift (LeadScore_of (dict_get_or existing "score_label" (JStr "curioso"))) in
    let* preferences :=
      lift (match py_or (dict_get existing "preferences") (JObj ∅) with
            | JObj p => LeadPreferences_validate p
            | _ => Raise TypeError
            end) in
    let* t' := now in
    let* interactions :=
      lift (add_one (dict_get_or existing "total_interactions" (JInt 0))) in
    lift (Lead_validate
            {| arg_id := id;
               arg_name := dict_get existing "name";
               arg_phone := phone;
               arg_email := dict_get existing "email";
               arg_channel := channel;
               arg_status := status;
               arg_score := dict_get_or existing "score" (JInt 0);
               arg_score_label := score_label;
               arg_preferences := preferences;
               arg_tags := dict_get_or existing "tags" (JArr []);
               arg_assigned_agent := dict_get existing "assigned_agent";
               arg_created_at := dict_get existing "created_at";
               arg_last_contact := t';
               arg_total_interactions := interactions |})
  else
    (* a new lead *)
    let* created_at := now in
    let* last_contact := now in
    let* result :=
      in_store (Database.create_lead
                  (lead_data phone channel name created_at last_contact)) in
    let result := default ∅ result in
    let* id :=
      if truthy (JObj result)
      then (let* id := lift (dict_item result "id") in lift (validate_id id))
      else ret None in
    let* created_at := now in
    let* last_contact := now in
    ret {| lead_id := id; lead_name := opt_str name;
           lead_phone := Some phone; lead_email := None;
           lead_channel := channel; lead_status := NUEVO;
           lead_score := 0; lead_score_label := CURIOSO;
           lead_preferences := LeadPreferences_default; lead_tags := [];
           lead_assigned_agent := None;
           lead_created_at := Some created_at;
           lead_last_contact := Some last_contact;
           lead_total_interactions := 1 |}.

End Entry.
End CrmLeads.

(** ** tools/lead_qualifier.py *)
Module LeadQualifier.
Import ConversationManager.

(** What a qualification runs in: the process of the conversation
    manager, the [Lead] object it was handed (which
    [update_lead_from_extraction] mutates in place), the calls made to
    the store for the lead, and the runs of [extract_lead_info], each
    with the service calls it made. *)
Record Session : Type := {
  q_world : World;
  q_lead : Lead;
  q_calls : list Crm.db_call;
  q_extractions : list AiEngine.LoopState;
}.

Definition in_world {A} (c : M World A) : M Session A :=
  fun s =>
    let '(r, w) := c (q_world s) in
    (r, {| q_world := w; q_lead := q_lead s; q_calls := q_calls s;
           q_extractions := q_extractions s |}).

Definition in_crm {A} (c : M Crm.State A) : M Session A :=
  fun s =>
    let '(r, st) :=
      c {| Crm.st_lead := q_lead s; Crm.st_calls := q_calls s |} in
    (r, {| q_world := q_world s; q_lead := Crm.st_lead st;
           q_calls := Crm.st_calls st; q_extractions := q_extractions s |}).

Definition extracting (run : result json * AiEngine.LoopState)
  : M Session json :=
  fun s =>
    (fst run,
     {| q_world := q_world s; q_lead := q_lead s; q_calls := q_calls s;
        q_extractions := q_extractions s ++ [snd run] |}).

(** [{v:,.0f}]: the number with thousands separators and no decimals,
    or what the format raises on a value that is not a number. *)
Class Formatting : Type := {
  format_thousands : json -> result string;
}.

Section Qualifier.
Context `{Database.Client} `{Runtime} `{AiEngine.Service} `{AiEngine.Providers}.

(** [qualify_lead(lead, channel)], the lead being the one of the
    session; what it returns is that object. *)
Definition qualify_lead (channel : ChannelType) : M Session unit :=
  let* s := get in
  let* conversation :=
    in_world (conversation_of (lead_id (q_lead s)) channel) in
  let* conversation := in_world (deref conversation) in
  match conv_messages conversation with
  | [] => ret tt
  | _ :: _ =>
      let conv_text := get_full_conversation_text conversation in
      let* extracted := extracting (AiEngine.extract_lead_info conv_text) in
      if negb (truthy extracted) then ret tt
      else
        match extracted with
        | JObj extracted => in_crm (Crm.update_lead_from_extraction extracted)
        | _ => raise AttributeError
        end
  end.

End Qualifier.

Section Prompt.
Context `{Formatting}.

(** [_format_budget]. *)
Definition _format_budget (min_b max_b : json) : result fstring :=
  if truthy min_b && truthy max_b then
    let? lo := format_thousands min_b in
    let? hi := format_thousands max_b in
    Ok [Lit lo; Lit "€ - "; Lit hi; Lit "€"]
  else if truthy max_b then
    let? hi := format_thousands max_b in Ok [Lit "Hasta "; Lit hi; Lit "€"]
  else if truthy min_b then
    let? lo := format_thousands min_b in Ok [Lit "Desde "; Lit lo; Lit "€"]
  else Ok [Lit "❓"].

(** The list [missing] of [build_qualification_context], as it is
    built: the data not known yet, each with the points it is said to
    bring. *)
Definition missing_fields (lead : Lead) : list (string * Z) :=
  let prefs := lead_preferences lead in
  let missing := [] in
  let missing :=
    if negb (truthy (zone prefs))
    then missing ++ [("zona o barrio de interés", 15)] else missing in
  let missing :=
    if negb (truthy (max_budget prefs)) && negb (truthy (min_budget prefs))
    then missing ++ [("presupuesto aproximado", 15)] else missing in
  let missing :=
    if negb (truthy (operation prefs))
    then missing ++ [("si quiere comprar o alquilar", 10)] else missing in
  let missing :=
    if negb (truthy (property_type prefs))
    then missing ++ [("tipo de inmueble (piso, casa, etc.)", 10)]
    else missing in
  let missing :=
    if negb (truthy (urgency prefs))
    then missing ++ [("urgencia / cuándo lo necesita", 10)] else missing in
  let missing :=
    if negb (truthy (lead_name lead))
    then missing ++ [("nombre del cliente", 5)] else missing in
  let missing :=
    if negb (truthy (bedrooms prefs))
    then missing ++ [("número de habitaciones", 5)] else missing in
  let missing :=
    if negb (truthy (purpose prefs))
    then missing ++ [("finalidad (vivienda habitual, inversión...)", 5)]
    else missing in
  missing.

(** [missing.sort(key=lambda x: x[1], reverse=True)]: a stable sort,
    most points first. *)
Fixpoint insert_by_points (x : string * Z) (sorted : list (string * Z))
  : list (string * Z) :=
  match sorted with
  | [] => [x]
  | y :: rest =>
      if snd y <? snd x then x :: y :: rest
      else y :: insert_by_points x rest
  end.
Definition sort_by_points (l : list (string * Z)) : list (string * Z) :=
  fold_left (fun sorted x => insert_by_points x sorted) l [].

(** The list [known]. *)
Definition known_fields (lead : Lead) : result (list fstring) :=
  let prefs := lead_preferences lead in
  let known : list fstring := [] in
  let known :=
    if truthy (operation prefs)
    then known ++ [[Lit "- Operación: "; Val (operation prefs)]] else known in
  let known :=
    if truthy (property_type prefs)
    then known ++ [[Lit "- Tipo inmueble: "; Val (property_type prefs)]]
    else known in
  let known :=
    if truthy (zone prefs)
    then known ++ [[Lit "- Zona: "; Val (zone prefs)]] else known in
  let? known :=
    if truthy (py_or (max_budget prefs) (min_budget prefs)) then
      let? budget := _format_budget (min_budget prefs) (max_budget prefs) in
      Ok (known ++ [Lit "- Presupuesto: " :: budget])
    else Ok known in
  let known :=
    if truthy (bedrooms prefs)
    then known ++ [[Lit "- Habitaciones: "; Val (bedrooms prefs)]] else known in
  let known :=
    if truthy (urgency prefs)
    then known ++ [[Lit "- Urgencia: "; Val (urgency prefs)]] else known in
  let known :=
    if truthy (purpose prefs)
    then known ++ [[Lit "- Finalidad: "; Val (purpose prefs)]] else known in
  let known :=
    if truthy (lead_name lead)
    then known ++ [[Lit "- Nombre: "; Val (lead_name lead)]] else known in
  Ok known.

(** [build_qualification_context]: the lines it joins with newlines. *)
Definition build_qualification_context (lead : Lead) : result (list fstring) :=
  let? known := known_fields lead in
  let missing := sort_by_points (missing_fields lead) in
  let lines : list fstring :=
    [[Lit AiEngine.nl; Lit "## Estado de Cualificación"];
     [Lit "Score actual: "; Num (lead_score lead); Lit "/100 (";
      Lit (LeadScore_value (lead_score_label lead)); Lit ")"]] in
  let lines :=
    match known with
    | [] => lines
    | _ :: _ => lines ++ [[Lit AiEngine.nl; Lit "Datos ya conocidos:"]] ++ known
    end in
  let lines :=
    match missing with
    | _ :: _ =>
        lines
        ++ [[Lit AiEngine.nl;
             Lit "⚠️ DATOS QUE AÚN NECESITAS AVERIGUAR (ordenados por prioridad):"]]
        ++ map (fun fp => [Lit "- "; Lit (fst fp); Lit " (+"; Num (snd fp);
                           Lit " puntos)"]) missing
        ++ [[Lit AiEngine.nl;
             Lit "INSTRUCCIÓN: Intenta averiguar los datos que faltan de forma natural durante la conversación."];
            [Lit "Prioriza los que están más arriba (valen más puntos). NO preguntes más de 1-2 cosas a la vez."];
            [Lit "Si ya preguntaste algo y el cliente no respondió, no insistas. Pasa a otro tema."]]
    | [] =>
        lines
        ++ [[Lit AiEngine.nl;
             Lit "✅ ¡Tienes toda la información clave! Este lead está bien cualificado."];
            [Lit "Enfócate en cerrar: proponer propiedades concretas y agendar visita."]]
    end in
  Ok lines.

End Prompt.
End LeadQualifier.

(** ** tools/scheduler.py: the visiting hours and [get_available_slots] *)
Module Scheduler.

(** A point in time on or around the date asked for, in microseconds
    since the midnight that starts that date ([dt]); a [timedelta] is a
    number of microseconds. *)
Definition minute : Z := 60000000.
Definition minutes (n : Z) : Z := n * minute.

(** An [OverflowError], whatever its text. *)
Definition OverflowError : exn := OtherError "OverflowError".

(** [timedelta(minutes=n)]: its days are at most 999999999 either
    way. *)
Definition timedelta (n : Z) : result Z :=
  if (-999999999 <=? n / 1440) && (n / 1440 <=? 999999999)
  then Ok (minutes n) else Raise OverflowError.

(** [dt.replace(hour=h, minute=m)]. *)
Definition at_time (h m : Z) : Z := minutes (h * 60 + m).

(** [VISIT_HOURS], each time already split at its colon into hour and
    minute. *)
Record TimeRange : Type := {
  tr_start : Z * Z;
  tr_end : Z * Z;
}.
Definition morning : TimeRange := {| tr_start := (10, 0); tr_end := (13, 0) |}.
Definition afternoon : TimeRange := {| tr_start := (16, 0); tr_end := (20, 0) |}.
Definition saturday : TimeRange := {| tr_start := (10, 0); tr_end := (14, 0) |}.

Definition DEFAULT_VISIT_DURATION : Z := 45.

(** A slot found free, before it is written out. *)
Record Slot : Type := {
  slot_start : Z;
  slot_end : Z;
}.

(** The calendar and the clock library. *)
Class Calendar : Type := {
  (** [datetime.strptime(date, "%Y-%m-%d")] followed by
      [strftime("%A").lower()]: the name of the week day, or what the
      parsing raises. *)
  day_name : json -> result string;
  (** [_get_events_for_date(date)]: the [start] and [end] of the
      events of the day.  It catches the failures of its request and
      then has no events; what it computes before the request (the day
      after [date]) can raise. *)
  _get_events_for_date : json -> result (list (json * json));
  (** [datetime.fromisoformat(s.replace("Z", "+00:00"))] made naive, or
      what either raises. *)
  fromisoformat : json -> result Z;
  (** [isoformat()] of a point in time. *)
  isoformat : Z -> string;
  (** Whether a [datetime] holds the point in time (the years 1 to
      9999). *)
  in_range : Z -> bool;
}.

(** Two digits, and [strftime("%H:%M")]. *)
Definition digit (n : Z) : string :=
  String (Ascii.ascii_of_N (48 + Z.to_N n)) EmptyString.
Definition two_digits (n : Z) : string :=
  (digit (n / 10) ++ digit (n mod 10))%string.
Definition strftime_HM (t : Z) : string :=
  let m := (t / minute) mod 1440 in
  (two_digits (m / 60) ++ ":" ++ two_digits (m mod 60))%string.

Section Slots.
Context `{Calendar}.

(** [t + delta] on a [datetime]. *)
Definition plus (t delta : Z) : result Z :=
  if in_range (t + delta) then Ok (t + delta) else Raise OverflowError.

(** The loop over the events for one slot: [Ok true] when none
    overlaps it, [Ok false] at the first that does (the events after
    it are not read). *)
Fixpoint is_available (current slot_end : Z) (events : list (json * json))
  : result bool :=
  match events with
  | [] => Ok true
  | event :: rest =>
      let? event_start := fromisoformat (fst event) in
      let? event_end := fromisoformat (snd event) in
      if (current <? event_end) && (event_start <? slot_end) then Ok false
      else is_available current slot_end rest
  end.

(** The loop [while current + timedelta(minutes=duration_minutes) <=
    end_time], which ends when its test fails; [rounds] is a bound on
    the times the test is made. *)
Fixpoint scan (rounds : nat) (current end_time duration_minutes : Z)
    (events : list (json * json)) (available : list Slot)
  : result (list Slot) :=
  match rounds with
  | O => Ok available
  | S rounds =>
      let? duration := timedelta duration_minutes in
      let? tested := plus current duration in
      if tested <=? end_time then
        let? duration := timedelta duration_minutes in
        let? slot_end := plus current duration in
        let? free := is_available current slot_end events in
        let available :=
          if (free : bool)
          then available ++ [{| slot_start := current; slot_end := slot_end |}]
          else available in
        let? current := plus current (minutes 30) in
        scan rounds current end_time duration_minutes events available
      else Ok available
  end.

(** The rounds the loop makes from [current]: none when the first
    test fails, and otherwise one for each half hour up to the last
    start that still fits.  The test is made once more, and fails. *)
Definition rounds_from (current end_time duration : Z) : nat :=
  Z.to_nat ((end_time - duration - current) / minutes 30 + 1).

Definition scan_range (time_range : TimeRange) (duration_minutes : Z)
    (events : list (json * json)) (available : list Slot)
  : result (list Slot) :=
  let '(start_h, start_m) := tr_start time_range in
  let '(end_h, end_m) := tr_end time_range in
  let current := at_time start_h start_m in
  let end_time := at_time end_h end_m in
  scan (S (rounds_from current end_time (minutes duration_minutes)))
    current end_time duration_minutes events available.

Fixpoint scan_ranges (time_ranges : list TimeRange) (duration_minutes : Z)
    (events : list (json * json)) (available : list Slot)
  : result (list Slot) :=
  match time_ranges with
  | [] => Ok available
  | time_range :: rest =>
      let? available :=
        scan_range time_range duration_minutes events available in
      scan_ranges rest duration_minutes events available
  end.

(** The ranges of a day. *)
Definition time_ranges (day : string) : list TimeRange :=
  if String.eqb day "saturday" then [saturday] else [morning; afternoon].

(** The slots [get_available_slots] finds, in the order it finds
    them. *)
Definition free_slots (date : json) (duration_minutes : Z)
  : result (list Slot) :=
  let? day := day_name date in
  if String.eqb day "sunday" then Ok []
  else
    let? existing_events := _get_events_for_date date in
    scan_ranges (time_ranges day) duration_minutes existing_events [].

(** The dict a slot is written out as. *)
Definition slot_dict (s : Slot) : dict :=
  {[ "start" := JStr (strftime_HM (slot_start s));
     "end" := JStr (strftime_HM (slot_end s));
     "datetime_start" := JStr (isoformat (slot_start s));
     "datetime_end" := JStr (isoformat (slot_end s)) ]}.

Definition get_available_slots (date : json) (duration_minutes : Z)
  : result (list dict) :=
  let? slots := free_slots date duration_minutes in
  Ok (map slot_dict slots).

End Slots.
End Scheduler.

(** ** tools/human_handoff.py: [handoff_to_human] *)
Module HumanHandoff.
Import NurturingEngine.

(** The team's addresses (read from the environment when the module
    is loaded), the clock, and two operations of Python on values:
    [str(v)], which an f-string applies to what it interpolates, and
    the slice [v[:n]]. *)
Class Team : Type := {
  TEAM_WHATSAPP : string;
  TEAM_EMAIL : string;
  (** [datetime.now().strftime("%d/%m/%Y %H:%M")] *)
  now_text : string;
  str_of : json -> string;
  slice_to : Z -> json -> result json;
}.

Definition reason_labels : list (string * string) :=
  [ ("queja_cliente", "⚠️ QUEJA DE CLIENTE");
    ("negociacion", "💰 NEGOCIACIÓN / OFERTA");
    ("urgente", "🔴 URGENTE");
    ("solicitud_directa", "👤 SOLICITA HABLAR CON PERSONA");
    ("lead_caliente", "🔥 LEAD CALIENTE");
    ("portal_nuevo", "🏘️ LEAD DE PORTAL");
    ("otro", "📋 REQUIERE ATENCIÓN") ].

(** [reason_labels.get(reason, "📋 REQUIERE ATENCIÓN")]: the lookup
    hashes [reason]. *)
Definition reason_label (reason : json) : result string :=
  if hashable reason then
    Ok (match reason with
        | JStr r =>
            match find (fun kv => String.eqb (fst kv) r) reason_labels with
            | Some kv => snd kv
            | None => "📋 REQUIERE ATENCIÓN"
            end
        | _ => "📋 REQUIERE ATENCIÓN"
        end)
  else Raise TypeError.

Definition quote_mark : string := String (Ascii.ascii_of_nat 34) EmptyString.
Definition rule (c : string) : string := String.concat "" (repeat c 40).
Definition bar : string := "━━━━━━━━━━━━━━━━━━━━".

Section Handoff.
Context `{Outside} `{Team}.

(** The text of the WhatsApp notification. *)
Definition whatsapp_msg (label : string)
    (lead_name lead_phone lead_email lead_score channel
       conversation_summary last_message : json) : result fstring :=
  let? email_line :=
    if truthy lead_email then str_add "📧 " lead_email else Ok "" in
  let msg : fstring :=
    [Lit label; Lit nl; Lit bar; Lit nl;
     Lit "👤 *"; Val (py_or lead_name (JStr "Sin nombre")); Lit "*"; Lit nl;
     Lit "📱 "; Val lead_phone; Lit nl;
     Lit email_line; Lit nl;
     Lit "📊 Score: "; Val lead_score; Lit "/100"; Lit nl;
     Lit "📱 Canal: "; Val channel; Lit nl;
     Lit "🕐 "; Lit now_text; Lit nl; Lit bar; Lit nl] in
  let? msg :=
    if truthy last_message then
      let? cut := slice_to 200 last_message in
      Ok (msg ++ [Lit "💬 Último mensaje:"; Lit nl; Lit quote_mark; Val cut;
                  Lit quote_mark; Lit nl; Lit nl])
    else Ok msg in
  if truthy conversation_summary then
    let? cut := slice_to 300 conversation_summary in
    Ok (msg ++ [Lit "📝 Resumen:"; Lit nl; Val cut; Lit nl])
  else Ok msg.

(** The subject and the text of the email notification. *)
Definition email_subject (label : string) (lead_name lead_phone : json)
  : string :=
  (label ++ " — " ++ str_of (py_or lead_name lead_phone) ++ " — "
   ++ COMPANY_NAME)%string.

Definition email_body (label : string)
    (lead_name lead_phone lead_email lead_score channel
       conversation_summary last_message : json) : fstring :=
  let body : fstring :=
    [Lit "DERIVACIÓN DE LEAD"; Lit nl; Lit (rule "="); Lit nl; Lit nl;
     Lit "Motivo: "; Lit label; Lit nl;
     Lit "Fecha/Hora: "; Lit now_text; Lit nl; Lit nl;
     Lit "DATOS DEL CLIENTE"; Lit nl; Lit (rule "-"); Lit nl;
     Lit "Nombre: "; Val (py_or lead_name (JStr "No proporcionado")); Lit nl;
     Lit "Teléfono: "; Val lead_phone; Lit nl;
     Lit "Email: "; Val (py_or lead_email (JStr "No proporcionado")); Lit nl;
     Lit "Score: "; Val lead_score; Lit "/100"; Lit nl;
     Lit "Canal original: "; Val channel; Lit nl; Lit nl] in
  let body :=
    if truthy last_message then
      body ++ [Lit "ÚLTIMO MENSAJE DEL CLIENTE"; Lit nl; Lit (rule "-"); Lit nl;
               Lit quote_mark; Val last_message; Lit quote_mark; Lit nl; Lit nl]
    else body in
  let body :=
    if truthy conversation_summary then
      body ++ [Lit "RESUMEN DE CONVERSACIÓN"; Lit nl; Lit (rule "-"); Lit nl;
               Val conversation_summary; Lit nl; Lit nl]
    else body in
  body ++ [Lit "ACCIÓN REQUERIDA"; Lit nl; Lit (rule "-"); Lit nl;
           Lit "Contactar al cliente lo antes posible."; Lit nl; Lit nl;
           Lit "— "; Lit AGENT_NAME; Lit " (Agente IA), "; Lit COMPANY_NAME].

(** [handoff_to_human]: whether the team was notified.  The lines it
    prints itself are left out; those of the two senders are among the
    events. *)
Definition handoff_to_human
    (lead_name lead_phone lead_email lead_score channel reason
       conversation_summary last_message : json) : M State bool :=
  let* label := lift (reason_label reason) in
  let notified := false in
  let* notified :=
    if truthy (JStr TEAM_WHATSAPP) then
      let* msg :=
        lift (whatsapp_msg label lead_name lead_phone lead_email lead_score
                channel conversation_summary last_message) in
      try_except
        (send_whatsapp_message [Lit "whatsapp:"; Lit TEAM_WHATSAPP] msg ;;
         ret true)
        (fun _ => ret notified)
    else ret notified in
  let* notified :=
    if truthy (JStr TEAM_EMAIL) then
      let subject := email_subject label lead_name lead_phone in
      let body :=
        email_body label lead_name lead_phone lead_email lead_score channel
          conversation_summary last_message in
      try_except
        (send_email (JStr TEAM_EMAIL) subject body ;; ret true)
        (fun _ => ret notified)
    else ret notified in
  ret notified.

End Handoff.
End HumanHandoff.

(* ================================================================== *)
(** * Part I (continued). What the claims are stated with *)
(* ================================================================== *)

(** ** Qualification: the outcome of a pass, spelled out *)
Module CrmSpec.
Import Crm.

(** The preferences after the loop over [field_map]. *)
Definition merged_preferences (lead : Lead) (e : dict) : LeadPreferences :=
  fst (fold_left (merge_field e) field_map (lead_preferences lead, false)).

(** The name after the fill-only assignment. *)
Definition merged_name (lead : Lead) (e : dict) : json :=
  if truthy (dict_get e "name") && negb (truthy (lead_name lead))
  then dict_get e "name" else lead_name lead.

(** The lead after the merge, before its score is recomputed. *)
Definition merged (lead : Lead) (e : dict) : Lead :=
  with_name (merged_name lead e)
    (with_preferences (merged_preferences lead e) lead).

(** The lifecycle rule in the spec's words: only a lead in the initial
    status moves, to "qualified" at the hot threshold and to "contacted"
    at the warm threshold; every other status stays. *)
Definition lifecycle (status : LeadStatus) (score : Z) : LeadStatus :=
  match status with
  | NUEVO =>
      if LEAD_SCORE_HOT <=? score then CUALIFICADO
      else if LEAD_SCORE_WARM <=? score then CONTACTADO
      else NUEVO
  | s => s
  end.

(** The lead a pass that computed [score] leaves. *)
Definition qualified (lead : Lead) (e : dict) (score : Z) : Lead :=
  let l := with_score score (get_score_label score) (merged lead e) in
  with_status (lifecycle (lead_status lead) score) l.

(** The store calls of a pass that computed [score]. *)
Definition calls_made (lead : Lead) (e : dict) (score : Z) : list db_call :=
  let l := qualified lead e score in
  [CallUpdateLead (lead_id l)
     {| upd_name := lead_name l; upd_preferences := lead_preferences l;
        upd_score := lead_score l;
        upd_score_label := LeadScore_value (lead_score_label l);
        upd_status := LeadStatus_value (lead_status l) |}]
  ++ (if LEAD_SCORE_HOT <=? score then [CallCreateTask (hot_lead_task l)] else [])
  ++ (if truthy (dict_get e "wants_human_agent")
      then [CallCreateTask (human_handoff_task l)] else []).

(** [n] points when [b] holds. *)
Definition pts (b : bool) (n : Z) : Z := if b then n else 0.

(** The points of the profile: fields present and the name. *)
Definition profile_points (lead : Lead) : Z :=
  let prefs := lead_preferences lead in
  pts (truthy (operation prefs)) 10 + pts (truthy (property_type prefs)) 10
  + pts (truthy (zone prefs)) 15
  + pts (truthy (max_budget prefs) || truthy (min_budget prefs)) 15
  + pts (truthy (bedrooms prefs)) 5
  + pts (truthy (urgency prefs)) (10 + pts (urgency_is_soon (urgency prefs)) 10)
  + pts (truthy (purpose prefs)) 5 + pts (truthy (lead_name lead)) 5.

(** The points of the interaction counter. *)
Definition interaction_points (lead : Lead) : Z :=
  pts (3 <=? lead_total_interactions lead) 5
  + pts (5 <=? lead_total_interactions lead) 5.

(** [extracted.get("interest_level", "bajo")]. *)
Definition interest_level (e : dict) : json :=
  dict_get_or e "interest_level" (JStr "bajo").

(** The points the extraction itself brings: interest level and visit
    intent. *)
Definition signal_points (e : dict) : Z :=
  if truthy (JObj e) then
    match interest_points (interest_level e) with Ok p => p | Raise _ => 0 end
    + pts (truthy (dict_get e "wants_visit")) 15
  else 0.

(** The extractions [calculate_lead_score] can score: the interest
    level, when the extraction is not empty, has to be hashable. *)
Definition scorable (e : dict) : bool :=
  negb (truthy (JObj e)) || hashable (interest_level e).

(** The fields the merge may fill: the eleven preferences of
    [field_map] (and the two it never names), and the name. *)
Inductive field : Type := Preference (a : pref_attr) | Name.

Definition field_value (lead : Lead) (f : field) : json :=
  match f with
  | Preference a => getattr (lead_preferences lead) a
  | Name => lead_name lead
  end.

(** A field is set when the merge would not write it: a preference
    that is not [None], a name that is not empty ([not lead.name]). *)
Definition is_set (lead : Lead) (f : field) : bool :=
  match f with
  | Preference a => negb (is_none (getattr (lead_preferences lead) a))
  | Name => truthy (lead_name lead)
  end.

(** The high-priority follow-up tasks among the store calls. *)
Definition is_hot_task (c : db_call) : bool :=
  match c with
  | CallCreateTask d => String.eqb (task_priority d) (TaskPriority_value ALTA)
  | CallUpdateLead _ _ => false
  end.

Definition hot_tasks (calls : list db_call) : nat :=
  length (filter (fun c => is_hot_task c = true) calls).

(** Leads and extractions the examples run on. *)
Definition lead_in_centro : Lead :=
  with_preferences
    {| operation := JNull; property_type := JNull; zone := JStr "Centro";
       min_budget := JNull; max_budget := JInt 200000; min_sqm := JNull;
       max_sqm := JNull; bedrooms := JNull; bathrooms := JNull;
       parking := JNull; urgency := JNull; purpose := JNull; notes := JNull |}
    Lead_default.

Definition says_other_budget : dict :=
  {[ "zone" := JStr "Triana"; "max_budget" := JInt 350000 ]}.

Definition keen_on_centro : dict :=
  {[ "zone" := JStr "Centro"; "interest_level" := JStr "muy alto";
     "wants_visit" := JBool true ]}.

Definition lukewarm : dict := {[ "interest_level" := JStr "bajo" ]}.

(** The extraction as [calculate_lead_score] reads it: no extraction
    counts as an empty one. *)
Definition read_extraction (extracted : option dict) : dict := default ∅ extracted.

Definition seasoned_lead : Lead :=
  with_score 85 CALIENTE
    (with_name (JStr "Ana")
       (with_preferences
          {| operation := JStr "comprar"; property_type := JStr "piso";
             zone := JStr "Centro"; min_budget := JNull;
             max_budget := JInt 200000; min_sqm := JNull; max_sqm := JNull;
             bedrooms := JInt 2; bathrooms := JNull; parking := JNull;
             urgency := JStr "inmediata"; purpose := JStr "inversión";
             notes := JNull |}
          Lead_default)).

(** The extraction key [field_map] reads for a preference; [max_sqm]
    and [notes] have none. *)
Definition ext_key (a : pref_attr) : option string :=
  option_map fst (find (fun kv => bool_decide (snd kv = a)) field_map).

(** The record [update_lead] is sent for a lead. *)
Definition record_of (l : Lead) : LeadUpdate :=
  {| upd_name := lead_name l; upd_preferences := lead_preferences l;
     upd_score := lead_score l;
     upd_score_label := LeadScore_value (lead_score_label l);
     upd_status := LeadStatus_value (lead_status l) |}.

Definition is_task (c : db_call) : bool :=
  match c with CallCreateTask _ => true | CallUpdateLead _ _ => false end.

(** The urgent tasks (a client asking for a person) among the store
    calls. *)
Definition is_handoff_task (c : db_call) : bool :=
  match c with
  | CallCreateTask d => String.eqb (task_priority d) (TaskPriority_value URGENTE)
  | CallUpdateLead _ _ => false
  end.

Definition handoff_tasks (calls : list db_call) : nat :=
  length (filter (fun c => is_handoff_task c = true) calls).

End CrmSpec.

(** ** The tool loop: what a completion asks for *)
Module AiEngineSpec.
Import AiEngine.

(** The arguments the loop hands to the dispatch for a requested
    action: what [json.loads] read, an empty dict for a text that is
    not JSON, or what [json.loads] raised otherwise. *)
Definition parsed_arguments `{Service} (tool_call : ToolCall) : result json :=
  match json_loads (tc_arguments tool_call) with
  | Raise JSONDecodeError => Ok (JObj ∅)
  | outcome => outcome
  end.

(** The action requests the loop runs for a completion. *)
Definition requested (c : completion) : list ToolCall :=
  match c with
  | Completed (choice :: _) =>
      if String.eqb (finish_reason choice) "tool_calls"
      then cm_tool_calls (message choice) else []
  | _ => []
  end.

(** A completion after which the loop goes on to its next round: a
    rate-limit failure, or action requests. *)
Definition continues (c : completion) : bool :=
  match c with
  | Failed error_str => str_contains "429" error_str
  | Completed _ => negb (bool_decide (requested c = []))
  end.

(** The requested actions are all served: their arguments are read
    and the dispatch returns. *)
Definition dispatches `{Collaborators} `{Service} (lead_context : option dict)
    (tool_calls : list ToolCall) : Prop :=
  Forall (fun tool_call =>
            is_ok (let? func_args := parsed_arguments tool_call in
                   _execute_tool_call (tc_name tool_call) func_args
                     lead_context) = true)
    tool_calls.

(** The six action names of the dispatch. *)
Definition registered (name : string) : bool :=
  bool_decide (name ∈ ["search_properties"; "get_property_details";
                       "schedule_visit"; "check_availability";
                       "calculate_mortgage"; "transfer_to_human"]).

(** Collaborators that all fail, and a decoder that rejects its
    input: the dispatch of the examples needs none of them. *)
Definition no_collaborators : Collaborators :=
  {| search_properties_by_criteria := fun _ _ _ _ _ _ => Raise RuntimeError;
     format_property_for_chat := fun _ => Raise RuntimeError;
     get_property_by_reference := fun _ => Raise RuntimeError;
     strptime := fun _ _ => None;
     schedule_visit := fun _ _ _ _ _ => Raise RuntimeError;
     get_available_slots := fun _ => Raise RuntimeError;
     format_available_slots_for_chat := fun _ _ => Raise RuntimeError;
     calculate_mortgage := fun _ _ _ _ => Raise RuntimeError;
     format_mortgage_for_chat := fun _ => Raise RuntimeError;
     handoff_to_human := fun _ _ _ _ _ _ _ => Raise RuntimeError;
     generate_handoff_response := fun _ => Raise RuntimeError |}.

Definition asks_for (name arguments : string) : completion :=
  Completed
    [{| finish_reason := "tool_calls";
        message :=
          {| cm_content := None;
             cm_tool_calls :=
               [{| tc_id := "call_1"; tc_name := name;
                   tc_arguments := arguments |}] |} |}].

(** A service that asks for the same action at every call, with an
    argument text [json.loads] rejects. *)
Definition always_asks (name : string) : Service :=
  {| create := fun _ _ => asks_for name "{not json";
     json_loads := fun _ => Raise JSONDecodeError |}.

(** A service that asks for the same action at every call, with an
    argument text on which [json.loads] raises something else than
    its [JSONDecodeError]: an integer of more digits than it
    converts. *)
Definition always_asks_digits (name : string) : Service :=
  {| create := fun _ _ => asks_for name "99999999999999999999";
     json_loads := fun _ => Raise ValueError |}.

(** A service that is rate-limited at every call. *)
Definition always_limited : Service :=
  {| create := fun _ _ => Failed "Error code: 429 - rate limit";
     json_loads := fun _ => Raise JSONDecodeError |}.

(** A tool message answers a requested action when it carries the
    id of the request. *)
Definition is_answer_to (tool_call : ToolCall) (m : chat_msg) : Prop :=
  match m with
  | MsgTool tool_call_id _ => tool_call_id = tc_id tool_call
  | _ => False
  end.

(** What completed rounds of the tool loop leave in the message list:
    for each round the assistant message with its requests, then one
    answer for each request, in the order of the requests. *)
Inductive answered_rounds : list chat_msg -> Prop :=
  | no_round : answered_rounds []
  | one_round (m : ChatMessage) (answers rest : list chat_msg) :
      cm_tool_calls m <> [] ->
      Forall2 is_answer_to (cm_tool_calls m) answers ->
      answered_rounds rest ->
      answered_rounds (MsgAssistant m :: answers ++ rest).

(** The entries the loop itself appends. *)
Definition added_by_loop (m : chat_msg) : bool :=
  match m with MsgDict _ => false | _ => true end.

Definition is_dict (v : json) : bool :=
  match v with JObj _ => true | _ => false end.

(** The four actions that read every argument with [get]. *)
Definition reads_with_get (name : string) : bool :=
  bool_decide (name ∈ ["search_properties"; "schedule_visit";
                       "check_availability"; "transfer_to_human"]).

(** The exception is one that a function the four actions call has
    raised, on some input. *)
Definition raised_by_a_call `{Collaborators} (e : exn) : Prop :=
  (exists zone type price bedrooms operation limit,
     search_properties_by_criteria zone type price bedrooms operation limit
     = Raise e)
  \/ (exists prop, format_property_for_chat prop = Raise e)
  \/ (exists name phone email ref when,
        schedule_visit name phone email ref when = Raise e)
  \/ (exists date, get_available_slots date = Raise e)
  \/ (exists date slots, format_available_slots_for_chat date slots = Raise e)
  \/ (exists name phone email score channel reason summary,
        handoff_to_human name phone email score channel reason summary
        = Raise e)
  \/ (exists reason, generate_handoff_response reason = Raise e).

(** [schedule_visit] has returned something truthy that is not a
    dict, against its annotation; it has no [get]. *)
Definition odd_booking `{Collaborators} : Prop :=
  exists name phone email ref when v,
    schedule_visit name phone email ref when = Ok v
    /\ truthy v = true /\ is_dict v = false.

(** Collaborators of which only the slots answer: [get_available_slots]
    parses its date first, and that raises on the empty text. *)
Definition only_slots : Collaborators :=
  {| search_properties_by_criteria := fun _ _ _ _ _ _ => Raise RuntimeError;
     format_property_for_chat := fun _ => Raise RuntimeError;
     get_property_by_reference := fun _ => Raise RuntimeError;
     strptime := fun _ _ => None;
     schedule_visit := fun _ _ _ _ _ => Raise RuntimeError;
     get_available_slots := fun date =>
       if str_eq date "" then Raise ValueError else Ok [];
     format_available_slots_for_chat := fun _ _ => Raise RuntimeError;
     calculate_mortgage := fun _ _ _ _ => Raise RuntimeError;
     format_mortgage_for_chat := fun _ => Raise RuntimeError;
     handoff_to_human := fun _ _ _ _ _ _ _ => Raise RuntimeError;
     generate_handoff_response := fun _ => Raise RuntimeError |}.

(** The provider is one of the OpenAI-compatible ones, and its client
    can be made. *)
Definition openai_like `{Providers} : Prop :=
  String.eqb LLM_PROVIDER "anthropic" = false
  /\ (if String.eqb LLM_PROVIDER "gemini"
      then _get_gemini_client else _get_openai_client) = Ok tt.

(** The service answers its first call with a completion whose first
    choice has the content [reply]. *)
Definition replies `{Service} (reply : option string) : Prop :=
  forall msgs, exists choice rest,
    create 0 msgs = Completed (choice :: rest)
    /\ cm_content (message choice) = reply.

(** The service fails its first call, and not for its rate limit. *)
Definition out_of_service `{Service} : Prop :=
  forall msgs, exists error_str,
    create 0 msgs = Failed error_str /\ str_contains "429" error_str = false.

(** A reply in a markdown fence: the opening fence with its language
    tag, a newline, the body, the closing fence. *)
Definition fenced (lang body : string) : string :=
  (fence ++ lang ++ nl ++ body ++ fence)%string.

(** A reply the [try] block of [extract_lead_info] cannot read: no
    content at all, or an opening fence with no newline after it. *)
Definition cut_short `{Providers} (reply : option string) : bool :=
  match reply with
  | None => true
  | Some text =>
      startswith (strip text) fence
      && negb (bool_decide (is_Some (after_newline (strip text))))
  end.

(** Providers and services for the examples: OpenAI with a working
    client and a [strip] that finds nothing to strip; a service that
    is down, one that answers with an opening fence only, and one that
    answers with a fenced object. *)
Definition openai_provider : Providers :=
  {| LLM_PROVIDER := "openai"; _get_openai_client := Ok tt;
     _get_gemini_client := Raise RuntimeError;
     AsyncAnthropic := Raise RuntimeError;
     anthropic_text := fun _ _ => Raise RuntimeError;
     strip := fun s => s |}.

Definition service_down : Service :=
  {| create := fun _ _ => Failed "Connection error.";
     json_loads := fun _ => Raise JSONDecodeError |}.

Definition answers (text : string) (loads : string -> result json) : Service :=
  {| create := fun _ _ =>
       Completed [{| finish_reason := "stop";
                     message := {| cm_content := Some text;
                                   cm_tool_calls := [] |} |}];
     json_loads := loads |}.

Definition loads_zone (s : string) : result json :=
  if String.eqb s "{}" then Ok (JObj ∅) else Raise JSONDecodeError.

End AiEngineSpec.

(** ** Nurturing: what a run does for one lead, spelled out *)
Module NurturingSpec.
Import NurturingEngine.

(** The same outside with other delivery clients. *)
Definition with_deliveries (o : Outside)
    (tw : nat -> fstring -> fstring -> result unit)
    (sg : nat -> json -> string -> fstring -> result unit) : Outside :=
  {| AGENT_NAME := @AGENT_NAME o; COMPANY_NAME := @COMPANY_NAME o;
     days_since_iso := @days_since_iso o; twilio := tw; sendgrid := sg |}.

(** What is decided for a lead before anything is sent: the action, the
    message, and the channels it goes out on. *)
Record Plan : Type := {
  p_action : Action;
  p_message : fstring;
  p_phone : json;
  p_email : json;
  p_by_whatsapp : bool;
  p_by_email : bool;
}.

(** The part of [_execute_nurturing_action] before the two sends. *)
Definition plan_action `{Outside} (lead : dict) (action : Action)
  : result Plan :=
  let phone := dict_get_or lead "phone" (JStr "") in
  let email := dict_get_or lead "email" (JStr "") in
  let? message := _generate_nurturing_message (a_template action) lead in
  let? by_whatsapp :=
    and_then (Ok (channel_in (a_channel action) "whatsapp" "both"))
      (phone_ok phone) in
  Ok {| p_action := action; p_message := message; p_phone := phone;
        p_email := email; p_by_whatsapp := by_whatsapp;
        p_by_email := channel_in (a_channel action) "email" "both"
                      && truthy email |}.

(** The events of the two sends of a plan, the first of them being
    event number [n] of the run. *)
Definition whatsapp_events `{Outside} (n : nat) (p : Plan) : list event :=
  if p_by_whatsapp p then
    let to := [Lit "whatsapp:"; Val (p_phone p)] in
    [TwilioCreate to (p_message p);
     if is_ok (twilio n to (p_message p))
     then PrintWhatsAppSent to else PrintWhatsAppError to;
     PrintNurturingWhatsApp (p_phone p) (a_type (p_action p))]
  else [].

Definition email_events `{Outside} (n : nat) (p : Plan) : list event :=
  if p_by_email p then
    let subject := subject_map (a_template (p_action p)) in
    SendgridPost (p_email p) subject (p_message p)
    :: (if is_ok (sendgrid n (p_email p) subject (p_message p))
        then [PrintEmailSent (p_email p);
              PrintNurturingEmail (p_email p) (a_type (p_action p))]
        else [PrintNurturingEmailError (p_email p)])
  else [].

Definition delivery_events `{Outside} (n : nat) (p : Plan) : list event :=
  let w := whatsapp_events n p in
  w ++ email_events (n + length w) p.

(** What the loop body decides for a lead: nothing, a plan, or the
    exception its [except] catches. *)
Definition plan_lead `{Outside} (lead : dict) : result (option Plan) :=
  let? days := days_since lead in
  let score := dict_get_or lead "score" (JInt 0) in
  let interactions := dict_get_or lead "total_interactions" (JInt 0) in
  let? action := _evaluate_nurturing_rules lead days score interactions in
  match action with
  | Some action => let? p := plan_action lead action in Ok (Some p)
  | None => Ok None
  end.

Definition count_action (a : Action) (c : Counters) : Counters :=
  let c := bump_processed c in
  let c := if channel_in (a_channel a) "whatsapp" "both"
           then bump_messages c else c in
  if channel_in (a_channel a) "email" "both" then bump_emails c else c.

Definition lead_counters `{Outside} (lead : dict) (c : Counters) : Counters :=
  match plan_lead lead with
  | Ok (Some p) => count_action (p_action p) c
  | Ok None => c
  | Raise _ => bump_errors c
  end.

Definition lead_events `{Outside} (n : nat) (lead : dict) : list event :=
  match plan_lead lead with
  | Ok (Some p) => delivery_events n p
  | Ok None => []
  | Raise _ => [PrintNurturingLeadError (dict_get_or lead "id" (JStr "?"))]
  end.

(** The delivery attempts among the events. *)
Definition is_attempt (e : event) : bool :=
  match e with
  | TwilioCreate _ _ | SendgridPost _ _ _ => true
  | _ => false
  end.
Definition attempts (evs : list event) : list event :=
  filter (fun e => is_attempt e = true) evs.

(** The line a failed attempt is answered with: it names the number or
    the address the message was going to. *)
Definition failure_line `{Outside} (n : nat) (e : event) : option event :=
  match e with
  | TwilioCreate to body =>
      if is_ok (twilio n to body) then None else Some (PrintWhatsAppError to)
  | SendgridPost to_email subject body =>
      if is_ok (sendgrid n to_email subject body) then None
      else Some (PrintNurturingEmailError to_email)
  | _ => None
  end.

(** Every failed attempt among [evs], the first of which is event
    number [n] of the run, is followed by its line. *)
Definition logged_from `{Outside} (n : nat) (evs : list event) : Prop :=
  forall i e line,
    evs !! i = Some e -> failure_line (n + i) e = Some line ->
    evs !! S i = Some line.

(** An outside where every delivery fails, and two leads. *)
Definition nothing_delivers : Outside :=
  {| AGENT_NAME := "Ana"; COMPANY_NAME := "Tu Inmobiliaria";
     days_since_iso := fun _ => Raise ValueError;
     twilio := fun _ _ _ => Raise (OtherError "HTTP 500");
     sendgrid := fun _ _ _ _ => Raise (OtherError "HTTP 500") |}.

Definition cold_lead : dict :=
  {[ "id" := JStr "lead-1"; "email" := JStr "ana@example.com";
     "score" := JInt 10 ]}.
Definition hot_lead : dict :=
  {[ "id" := JStr "lead-2"; "phone" := JStr "+34600000000";
     "score" := JInt 70 ]}.

(** [NURTURING_RULES[name]], when the rule is declared. *)
Definition declared (name : string) : option Rule :=
  option_map snd (find (fun kv => String.eqb (fst kv) name) NURTURING_RULES).

(** A lead with a low score and neither a phone number nor an email
    address, never contacted. *)
Definition unreachable_lead : dict :=
  {[ "id" := JStr "lead-3"; "score" := JInt 10 ]}.

End NurturingSpec.

(** ** The store adapter: its operations as one type *)
Module DatabaseSpec.
Import Database.

(** The lead, conversation, appointment and task operations of
    tools/database.py, with their arguments. *)
Inductive operation : Type :=
  | GetLeadByPhone (phone : json)
  | GetLeadById (lead_id : json)
  | CreateLead (data : dict)
  | UpdateLead (lead_id : json) (data : dict)
  | GetAllLeads (status score_min : json)
  | GetActiveLeads
  | GetConversationByLead (lead_id channel : json)
  | UpsertConversation (conversation_id : json) (data : dict)
  | CreateAppointment (data : dict)
  | GetAppointmentsByLead (lead_id : json)
  | UpdateAppointment (appointment_id : json) (data : dict)
  | CreateTask (data : dict)
  | GetPendingTasks (assigned_to : json).

(** What an operation returns: one row or [None], or a list of rows. *)
Inductive answer : Type :=
  | Row (row : option dict)
  | Rows (rows : list dict).

Definition as_row (c : M Store (option dict)) : M Store answer :=
  let* r := c in ret (Row r).
Definition as_rows (c : M Store (list dict)) : M Store answer :=
  let* r := c in ret (Rows r).

Definition perform `{Client} (op : operation) : M Store answer :=
  match op with
  | GetLeadByPhone phone => as_row (get_lead_by_phone phone)
  | GetLeadById lead_id => as_row (get_lead_by_id lead_id)
  | CreateLead data => as_row (create_lead data)
  | UpdateLead lead_id data => as_row (update_lead lead_id data)
  | GetAllLeads status score_min => as_rows (get_all_leads status score_min)
  | GetActiveLeads => as_rows get_active_leads
  | GetConversationByLead lead_id channel =>
      as_row (get_conversation_by_lead lead_id channel)
  | UpsertConversation conversation_id data =>
      as_row (upsert_conversation conversation_id data)
  | CreateAppointment data => as_row (create_appointment data)
  | GetAppointmentsByLead lead_id => as_rows (get_appointments_by_lead lead_id)
  | UpdateAppointment appointment_id data =>
      as_row (update_appointment appointment_id data)
  | CreateTask data => as_row (create_task data)
  | GetPendingTasks assigned_to => as_rows (get_pending_tasks assigned_to)
  end.

(** [None] for the operations that return a row, the empty list for
    those that return rows. *)
Definition nothing (op : operation) : answer :=
  match op with
  | GetAllLeads _ _ | GetActiveLeads | GetAppointmentsByLead _
  | GetPendingTasks _ => Rows []
  | _ => Row None
  end.

(** The request an operation sends to the client. *)
Definition request (op : operation) : query :=
  match op with
  | GetLeadByPhone phone =>
      {| q_table := "leads"; q_verb := select "*";
         q_clauses := [eq_ "phone" phone] |}
  | GetLeadById lead_id =>
      {| q_table := "leads"; q_verb := select "*";
         q_clauses := [eq_ "id" lead_id] |}
  | CreateLead data =>
      {| q_table := "leads"; q_verb := insert data; q_clauses := [] |}
  | UpdateLead lead_id data =>
      {| q_table := "leads"; q_verb := update data;
         q_clauses := [eq_ "id" lead_id] |}
  | GetAllLeads status score_min =>
      {| q_table := "leads"; q_verb := select "*";
         q_clauses :=
           (if truthy status then [eq_ "status" status] else [])
           ++ (if negb (is_none score_min) then [gte "score" score_min] else [])
           ++ [order "last_contact" true] |}
  | GetActiveLeads =>
      {| q_table := "leads"; q_verb := select "*";
         q_clauses :=
           [neq "status" (JStr "cerrado"); neq "status" (JStr "descartado");
            order "last_contact" true; limit 100] |}
  | GetConversationByLead lead_id channel =>
      {| q_table := "conversations"; q_verb := select "*";
         q_clauses := [eq_ "lead_id" lead_id; eq_ "channel" channel] |}
  | UpsertConversation conversation_id data =>
      if truthy conversation_id then
        {| q_table := "conversations"; q_verb := update data;
           q_clauses := [eq_ "id" conversation_id] |}
      else
        {| q_table := "conversations"; q_verb := insert data;
           q_clauses := [] |}
  | CreateAppointment data =>
      {| q_table := "appointments"; q_verb := insert data; q_clauses := [] |}
  | GetAppointmentsByLead lead_id =>
      {| q_table := "appointments"; q_verb := select "*";
         q_clauses := [eq_ "lead_id" lead_id; order "datetime_" true] |}
  | UpdateAppointment appointment_id data =>
      {| q_table := "appointments"; q_verb := update data;
         q_clauses := [eq_ "id" appointment_id] |}
  | CreateTask data =>
      {| q_table := "tasks"; q_verb := insert data; q_clauses := [] |}
  | GetPendingTasks assigned_to =>
      {| q_table := "tasks"; q_verb := select "*";
         q_clauses :=
           [eq_ "status" (JStr "pendiente")]
           ++ (if truthy assigned_to then [eq_ "assigned_to" assigned_to]
               else [])
           ++ [order "due_date" false] |}
  end.

(** What an operation makes of the rows its request returned: the
    first row (or [None]), or all of them. *)
Definition read (op : operation) (rows : list dict) : answer :=
  match nothing op with
  | Row _ => Row (first_row rows)
  | Rows _ => Rows rows
  end.

(** What the client makes an operation called from [st] answer: what
    it reads in the rows when there is a client and the request
    returns, and nothing when there is no client or the request
    raises. *)
Definition outcome `{Client} (op : operation) (st : Store) : answer :=
  match get_client with
  | Ok _ =>
      match execute (length (executed st)) (request op) with
      | Ok rows => read op rows
      | Raise _ => nothing op
      end
  | Raise _ => nothing op
  end.

(** The client fails the operation called from [st]: there is no
    client, or the request of the operation raises. *)
Definition fails `{Client} (op : operation) (st : Store) : Prop :=
  is_ok get_client = false
  \/ is_ok (execute (length (executed st)) (request op)) = false.

(** The client fails every call made from [st]: there is no client, or
    the request executed next raises whatever it asks. *)
Definition client_fails `{Client} (st : Store) : Prop :=
  is_ok get_client = false
  \/ forall q, is_ok (execute (length (executed st)) q) = false.

(** A client without configuration, and one whose requests all fail. *)
Definition not_configured : Client :=
  {| get_client := Raise RuntimeError; execute := fun _ _ => Ok [] |}.
Definition unreachable : Client :=
  {| get_client := Ok tt;
     execute := fun _ _ => Raise (OtherError "connection refused") |}.

(** A client that answers what it is asked to read and refuses what it
    is asked to write. *)
Definition read_only : Client :=
  {| get_client := Ok tt;
     execute := fun _ q =>
       match q_verb q with
       | select _ => Ok []
       | _ => Raise (OtherError "permission denied")
       end |}.

Definition fresh_store : Store := {| executed := []; printed := [] |}.

End DatabaseSpec.

(** ** The conversation cache: what stays true of the process *)
Module ConversationSpec.
Import ConversationManager.

(** The conversation [get_or_create_conversation] constructs from what
    the store returned. *)
Definition blank (lead_id : string) (channel : ChannelType) : Conversation :=
  {| conv_id := JNull; conv_lead_id := lead_id; conv_channel := channel;
     conv_messages := []; conv_summary := JNull; conv_updated_at := None |}.

Definition build `{Runtime} (lead_id : string) (channel : ChannelType)
    (conv : option dict) : result Conversation :=
  match conv with
  | Some conv =>
      if truthy (JObj conv) then
        let? id := dict_item conv "id" in
        let? messages := stored_messages conv in
        let? id := validate_optional_str id in
        let? summary := validate_optional_str (dict_get conv "summary") in
        let? updated_at := validate_optional_datetime (dict_get conv "updated_at") in
        Ok {| conv_id := id; conv_lead_id := lead_id; conv_channel := channel;
              conv_messages := messages; conv_summary := summary;
              conv_updated_at := updated_at |}
      else Ok (blank lead_id channel)
  | None => Ok (blank lead_id channel)
  end.

(** The process with another trace of the store. *)
Definition with_store (s : Database.Store) (w : World) : World :=
  {| _active_conversations := _active_conversations w; heap := heap w;
     store := s; ticks := ticks w |}.

(** The cache only holds references to live objects, and no object is
    cached under two keys. *)
Definition well_formed (w : World) : Prop :=
  (forall k r, _active_conversations w !! k = Some r -> is_Some (heap w !! r))
  /\ (forall k1 k2 r,
        _active_conversations w !! k1 = Some r ->
        _active_conversations w !! k2 = Some r -> k1 = k2).

(** The messages of the object behind a reference. *)
Definition messages_of (w : World) (r : ref) : list Message :=
  match heap w !! r with
  | Some c => conv_messages c
  | None => []
  end.

(** [w'] comes after [w] with every cache entry still in place and
    every object still there, its messages at most extended. *)
Definition grows (w w' : World) : Prop :=
  (forall k r, _active_conversations w !! k = Some r ->
               _active_conversations w' !! k = Some r)
  /\ (forall r c, heap w !! r = Some c ->
        exists c', heap w' !! r = Some c'
                   /\ conv_messages c `prefix_of` conv_messages c').

(** Anything a handler may do with the module: one of the two calls,
    or [clear_cache]. *)
Inductive step : Type :=
  | Call (c : call)
  | ClearCache (lead_id : option string).

Definition do_step `{Database.Client} `{Runtime} (s : step) (w : World) : World :=
  match s with
  | Call c => do_call c w
  | ClearCache lead_id => snd (clear_cache lead_id w)
  end.

(** The states the process can be in: the start, and what any steps
    make of it. *)
Definition reachable `{Database.Client} `{Runtime} (w : World) : Prop :=
  exists steps, w = fold_left (fun w s => do_step s w) steps start.

(** A runtime for the examples: a clock that counts, and validators
    that accept what they are given. *)
Definition plain_runtime : Runtime :=
  {| clock := fun n => Z.of_nat n;
     isoformat := fun _ => "2024-01-01T00:00:00";
     Message_validate := fun _ => Raise ValidationError;
     validate_optional_str := fun v => Ok v;
     validate_optional_datetime := fun _ => Ok None |}.

(** The keys [clear_cache] removes: every key when it is called with
    [None] or an empty id, and otherwise the keys that start with the
    id. *)
Definition clears (lead_id : option string) (key : string) : bool :=
  match lead_id with
  | Some lead_id => negb (truthy (JStr lead_id)) || startswith key lead_id
  | None => true
  end.

(** A message as the LLM context carries it. *)
Definition in_context (m : Message) : string * string :=
  (msg_role m, msg_content m).

End ConversationSpec.

(** ** First contact and qualification: the examples *)
Module LeadsSpec.
Import ConversationManager CrmLeads LeadQualifier.

(** A pydantic that refuses everything: the new-lead branch of
    [get_or_create_lead] with a failing store asks it nothing. *)
Definition strict_pydantic : Pydantic :=
  {| LeadPreferences_validate := fun _ => Raise ValidationError;
     Lead_validate := fun _ => Raise ValidationError;
     validate_id := fun _ => Raise ValidationError |}.

(** The session a qualification starts in. *)
Definition session (w : World) (lead : Lead) (calls : list Crm.db_call)
  : Session :=
  {| q_world := w; q_lead := lead; q_calls := calls; q_extractions := [] |}.

(** The points of the profile without the bonus for a near urgency:
    what the fields and the name bring by being known. *)
Definition urgency_bonus (lead : Lead) : Z :=
  CrmSpec.pts (truthy (urgency (lead_preferences lead))
               && Crm.urgency_is_soon (urgency (lead_preferences lead))) 10.

Definition points (fields : list (string * Z)) : Z :=
  fold_right Z.add 0 (map snd fields).

(** [l] with [x] appended when [b] holds: one step of the building of
    [missing]. *)
Definition added_if {A} (b : bool) (l : list A) (x : A) : list A :=
  if b then l ++ [x] else l.

(** The points of a list fall from [n]: the first is at most [n], and
    each is at most the one before it. *)
Fixpoint falls_from (n : Z) (l : list (string * Z)) : Prop :=
  match l with
  | [] => True
  | x :: rest => snd x <= n /\ falls_from (snd x) rest
  end.

(** A lead with an id, and a process where its WhatsApp conversation
    holds one message. *)
Definition known_lead : Lead :=
  {| lead_id := Some "lead-1"; lead_name := JNull; lead_phone := None;
     lead_email := None; lead_channel := WHATSAPP; lead_status := NUEVO;
     lead_score := 0; lead_score_label := CURIOSO;
     lead_preferences := LeadPreferences_default; lead_tags := [];
     lead_assigned_agent := None; lead_created_at := None;
     lead_last_contact := None; lead_total_interactions := 1 |}.

Definition after_hello : World :=
  snd (@add_message DatabaseSpec.unreachable ConversationSpec.plain_runtime
         "lead-1" "user" "hola" WHATSAPP start).

(** A service whose reply reads as an extraction that names a zone,
    high interest and a visit. *)
Definition says_centro : AiEngine.Service :=
  AiEngineSpec.answers "{...}" (fun _ => Ok (JObj CrmSpec.keen_on_centro)).



End LeadsSpec.

(** ** The visiting slots: what makes a slot one of the day *)
Module SchedulerSpec.
Import Scheduler.

(** The slot and an event from [event_start] to [event_end] overlap. *)
Definition overlaps (s : Slot) (event_start event_end : Z) : bool :=
  (slot_start s <? event_end) && (event_start <? slot_end s).

(** The slot is clear of the events: the times of each event can be
    read, and no event overlaps the slot. *)
Definition clear_of `{Calendar} (events : list (json * json)) (s : Slot)
  : Prop :=
  Forall (fun event =>
            exists event_start event_end,
              fromisoformat (fst event) = Ok event_start
              /\ fromisoformat (snd event) = Ok event_end
              /\ overlaps s event_start event_end = false)
    events.

Definition opens (r : TimeRange) : Z := at_time (fst (tr_start r)) (snd (tr_start r)).
Definition closes (r : TimeRange) : Z := at_time (fst (tr_end r)) (snd (tr_end r)).

(** The slot is a visit of length [duration] in the range: it starts a
    whole number of half hours after the range opens and ends before
    the range closes. *)
Definition fits (r : TimeRange) (duration : Z) (s : Slot) : Prop :=
  slot_end s = slot_start s + duration
  /\ slot_end s <= closes r
  /\ exists k, 0 <= k /\ slot_start s = opens r + minutes 30 * k.

(** What the [while] loop finds from [current] in at most [rounds]
    rounds. *)
Definition found `{Calendar} (current end_time duration : Z)
    (events : list (json * json)) (rounds : nat) (s : Slot) : Prop :=
  clear_of events s
  /\ slot_end s = slot_start s + duration
  /\ slot_end s <= end_time
  /\ exists k, 0 <= k < Z.of_nat rounds
               /\ slot_start s = current + minutes 30 * k.

(** A calendar without events, on a day that is a Tuesday: 16 January
    2024, which is 738900 days after the first day a [datetime] holds
    and 2913159 days before the first it does not. *)
Definition quiet_tuesday : Calendar :=
  {| day_name := fun _ => Ok "tuesday";
     _get_events_for_date := fun _ => Ok [];
     fromisoformat := fun _ => Raise ValueError;
     isoformat := fun _ => "";
     in_range := fun t =>
       (minutes (1440 * -738900) <=? t) && (t <? minutes (1440 * 2913159)) |}.

End SchedulerSpec.

(** ** The hand-off: what it sends *)
Module HandoffSpec.
Import NurturingEngine HumanHandoff.

(** The events of the WhatsApp notification: the attempt and the line
    of its outcome. *)
Definition whatsapp_part `{Outside} `{Team} (n : nat) (msg : fstring)
  : list event :=
  if truthy (JStr TEAM_WHATSAPP) then
    let to := [Lit "whatsapp:"; Lit TEAM_WHATSAPP] in
    [TwilioCreate to msg;
     if is_ok (twilio n to msg)
     then PrintWhatsAppSent to else PrintWhatsAppError to]
  else [].

(** The events of the email notification. *)
Definition email_part `{Outside} `{Team} (n : nat) (subject : string)
    (body : fstring) : list event :=
  if truthy (JStr TEAM_EMAIL) then
    SendgridPost (JStr TEAM_EMAIL) subject body
    :: (if is_ok (sendgrid n (JStr TEAM_EMAIL) subject body)
        then [PrintEmailSent (JStr TEAM_EMAIL)] else [])
  else [].

(** A team reached by WhatsApp only. *)
Definition whatsapp_team : Team :=
  {| TEAM_WHATSAPP := "+34611111111"; TEAM_EMAIL := "";
     now_text := "16/01/2024 10:00";
     str_of := fun _ => "";
     slice_to := fun _ v => Ok v |}.

End HandoffSpec.

(* ================================================================== *)
(** * Part II. Theorems *)
(* ================================================================== *)

(** ** tools/crm.py: merge, score, lifecycle and follow-up task *)
Module CrmProofs.
Import Crm CrmSpec.

(** [update_lead_from_extraction] in one equation: it merges, scores
    the merged lead, and either raises what the scoring raised (the
    merge already done, nothing written to the store) or writes score,
    label, status and the store calls. *)
Lemma run_update_eq lead e :
  run_update lead e =
  match calculate_lead_score (merged lead e) (Some e) with
  | Raise x => (Raise x, {| st_lead := merged lead e; st_calls := [] |})
  | Ok score =>
      (Ok tt, {| st_lead := qualified lead e score;
                 st_calls := calls_made lead e score |})
  end.
Proof.
  unfold run_update, update_lead_from_extraction, calls_made, qualified, merged,
    merged_preferences, merged_name.
  unfold bind at 1. unfold the_lead at 1. cbn [st_lead st_calls].
  destruct (fold_left (merge_field e) field_map (lead_preferences lead, false))
    as [prefs updated] eqn:Hfold.
  cbn [fst].
  unfold bind, the_lead, set_lead, call_db, modify, lift, ret. cbn [st_lead st_calls fst snd].
  set (nm := truthy (dict_get e "name") && negb (truthy (lead_name lead))).
  assert (Hnm : truthy (dict_get e "name") && negb (truthy (lead_name (with_preferences prefs lead))) = nm) by reflexivity.
  rewrite Hnm. clear Hnm.
  destruct nm; cbn [st_lead st_calls].
  all: destruct (calculate_lead_score _ _) as [s|x]; [|reflexivity].
  all: rewrite orb_true_r.
  all: unfold lifecycle, LEAD_SCORE_HOT, LEAD_SCORE_WARM.
  all: destruct lead as [? ? ? ? ? status ? ? ? ? ? ? ? ?]; cbn [lead_status lead_score with_score with_name with_preferences with_status].
  all: destruct status; cbn [bool_decide decide_rel]; rewrite ?andb_false_r, ?andb_true_r;
       destruct (75 <=? s) eqn:H75; destruct (50 <=? s) eqn:H50;
       cbn -[Z.leb hot_lead_task human_handoff_task truthy dict_get LeadScore_value LeadStatus_value get_score_label];
       rewrite ?H75, ?H50;
       destruct (truthy (dict_get e "wants_human_agent")); reflexivity.
Qed.

Lemma if_pts (b : bool) (x n : Z) : (if b then x + n else x) = x + pts b n.
Proof. destruct b; unfold pts; lia. Qed.

Lemma pts_true n : pts true n = n.
Proof. reflexivity. Qed.

Lemma pts_false n : pts false n = 0.
Proof. reflexivity. Qed.

Lemma truthy_py_or a b : truthy (py_or a b) = truthy a || truthy b.
Proof. unfold py_or. destruct (truthy a) eqn:E; simpl; auto. Qed.

Lemma calculate_lead_score_eq lead e :
  calculate_lead_score lead (Some e) =
  if scorable e
  then Ok (Z.min (profile_points lead + signal_points e + interaction_points lead) 100)
  else Raise TypeError.
Proof.
  unfold calculate_lead_score, scorable, signal_points, profile_points,
    interaction_points, interest_level, interest_points.
  cbv zeta. rewrite truthy_py_or.
  set (u := urgency (lead_preferences lead)).
  set (ip := match dict_get_or e "interest_level" (JStr "bajo") with
             | JStr s => _ | _ => 0 end).
  destruct (truthy (JObj e)); cbn [negb orb];
    [destruct (hashable (dict_get_or e "interest_level" (JStr "bajo")))|];
    cbn [rbind]; try reflexivity;
    destruct (truthy u), (urgency_is_soon u);
    try destruct (truthy (dict_get e "wants_visit"));
    rewrite ?if_pts, ?pts_true, ?pts_false; f_equal; f_equal; lia.
Qed.

Lemma getattr_setattr p a v b :
  getattr (setattr p a v) b = if decide (a = b) then v else getattr p b.
Proof. destruct a, b; reflexivity. Qed.

(** One round of the merge leaves an attribute as it was, or the
    attribute was [None]. *)
Lemma merge_field_attr e st kv a :
  getattr (fst (merge_field e st kv)) a = getattr (fst st) a
  ∨ getattr (fst st) a = JNull.
Proof.
  destruct st as [prefs updated], kv as [ext_key pref_key].
  unfold merge_field.
  destruct (negb (is_none (dict_get e ext_key)) && is_none (getattr prefs pref_key))
    eqn:Hwrite; cbn [fst]; [|by left].
  rewrite getattr_setattr. destruct (decide (pref_key = a)) as [->|]; [|by left].
  right. apply andb_true_iff in Hwrite as [_ Hnone].
  by destruct (getattr prefs a).
Qed.

Lemma merge_fields_attr e fm st a :
  getattr (fst (fold_left (merge_field e) fm st)) a = getattr (fst st) a
  ∨ getattr (fst st) a = JNull.
Proof.
  revert st. induction fm as [|kv fm IH]; intros st; cbn [fold_left]; [by left|].
  destruct (IH (merge_field e st kv)) as [-> | Hnull].
  - apply merge_field_attr.
  - destruct (merge_field_attr e st kv a) as [Heq | ?]; [|by right].
    right. by rewrite <- Heq.
Qed.

Lemma merged_preferences_attr lead e a :
  getattr (merged_preferences lead e) a = getattr (lead_preferences lead) a
  ∨ getattr (lead_preferences lead) a = JNull.
Proof. apply (merge_fields_attr e field_map (lead_preferences lead, false) a). Qed.

Lemma merged_name_cases lead e :
  merged_name lead e = lead_name lead ∨ truthy (lead_name lead) = false.
Proof.
  unfold merged_name. destruct (truthy (lead_name lead)); [left|by right].
  by rewrite andb_false_r.
Qed.

(** What a pass leaves in the object, however it ends. *)
Lemma lead_after_preferences lead e :
  lead_preferences (lead_after lead e) = merged_preferences lead e.
Proof.
  unfold lead_after. rewrite run_update_eq.
  by destruct (calculate_lead_score _ _).
Qed.

Lemma lead_after_name lead e :
  lead_name (lead_after lead e) = merged_name lead e.
Proof.
  unfold lead_after. rewrite run_update_eq.
  by destruct (calculate_lead_score _ _).
Qed.

Lemma lead_after_interactions lead e :
  lead_total_interactions (lead_after lead e) = lead_total_interactions lead.
Proof.
  unfold lead_after. rewrite run_update_eq.
  by destruct (calculate_lead_score _ _).
Qed.

Lemma lead_after_field lead e f :
  is_set lead f = true -> field_value (lead_after lead e) f = field_value lead f.
Proof.
  destruct f as [a|]; cbn [is_set field_value]; intros Hset.
  - rewrite lead_after_preferences.
    destruct (merged_preferences_attr lead e a) as [-> | Hnull]; [done|].
    by rewrite Hnull in Hset.
  - rewrite lead_after_name.
    destruct (merged_name_cases lead e) as [-> | Hfalse]; [done|].
    by rewrite Hfalse in Hset.
Qed.

(** C1.  Fill-only merge: for every lead, every sequence of
    qualification passes (whatever each extraction holds, and whether
    or not a pass raised while scoring) and every field, a field that
    is set keeps its value.  A preference is set when it is not [None];
    the name is set when it is not empty, the test the code makes. *)
Theorem fill_only_never_overwrites (lead : Lead) (extractions : list dict)
    (f : field) :
  is_set lead f = true ->
  field_value (passes extractions lead) f = field_value lead f.
Proof.
  revert lead. induction extractions as [|e es IH]; intros lead Hset; [done|].
  cbn [passes fold_left]. fold (passes es (lead_after lead e)).
  pose proof (lead_after_field lead e f Hset) as Hone.
  rewrite IH; [done|].
  destruct f as [a|]; cbn [is_set field_value] in *; by rewrite Hone.
Qed.

Lemma pts_nonneg b n : 0 <= n -> 0 <= pts b n.
Proof. destruct b; unfold pts; lia. Qed.

Lemma pts_le b n : 0 <= n -> pts b n <= n.
Proof. destruct b; unfold pts; lia. Qed.

Lemma pts_mono (b b' : bool) n :
  0 <= n -> (b = true -> b' = true) -> pts b n <= pts b' n.
Proof.
  destruct b, b'; unfold pts; intros ? Himp; lia.
Qed.

(** Truthiness of an attribute survives a merge. *)
Lemma merged_truthy lead e a :
  truthy (getattr (lead_preferences lead) a) = true ->
  getattr (merged_preferences lead e) a = getattr (lead_preferences lead) a.
Proof.
  intros Ht. destruct (merged_preferences_attr lead e a) as [-> | Hnull]; [done|].
  by rewrite Hnull in Ht.
Qed.

Lemma merged_profile_points lead e :
  profile_points lead <= profile_points (merged lead e).
Proof.
  unfold profile_points, merged.
  cbn [lead_preferences lead_name with_name with_preferences].
  set (p := lead_preferences lead). set (q := merged_preferences lead e).
  assert (Hattr : forall a, truthy (getattr p a) = true -> getattr q a = getattr p a)
    by (intros a; apply merged_truthy).
  assert (Hmono : forall a, truthy (getattr p a) = true -> truthy (getattr q a) = true).
  { intros a Ht. by rewrite (Hattr a Ht). }
  pose proof (Hmono A_operation) as H1. pose proof (Hmono A_property_type) as H2.
  pose proof (Hmono A_zone) as H3. pose proof (Hmono A_max_budget) as H4.
  pose proof (Hmono A_min_budget) as H5. pose proof (Hmono A_bedrooms) as H6.
  pose proof (Hmono A_purpose) as H7. pose proof (Hattr A_urgency) as H8.
  cbn [getattr] in H1, H2, H3, H4, H5, H6, H7, H8.
  assert (Hname : truthy (lead_name lead) = true -> truthy (merged_name lead e) = true).
  { intros Ht. destruct (merged_name_cases lead e) as [-> | Hf]; [done|congruence]. }
  assert (Hurg : pts (truthy (urgency p)) (10 + pts (urgency_is_soon (urgency p)) 10)
                 <= pts (truthy (urgency q)) (10 + pts (urgency_is_soon (urgency q)) 10)).
  { destruct (truthy (urgency p)) eqn:Hu.
    - rewrite (H8 eq_refl), Hu. lia.
    - rewrite pts_false. apply pts_nonneg.
      pose proof (pts_nonneg (urgency_is_soon (urgency q)) 10). lia. }
  assert (Hbud : truthy (max_budget p) || truthy (min_budget p) = true ->
                 truthy (max_budget q) || truthy (min_budget q) = true).
  { rewrite !orb_true_iff. intros [?|?]; auto. }
  pose proof (pts_mono _ _ 10 ltac:(lia) H1). pose proof (pts_mono _ _ 10 ltac:(lia) H2).
  pose proof (pts_mono _ _ 15 ltac:(lia) H3). pose proof (pts_mono _ _ 15 ltac:(lia) Hbud).
  pose proof (pts_mono _ _ 5 ltac:(lia) H6). pose proof (pts_mono _ _ 5 ltac:(lia) H7).
  pose proof (pts_mono _ _ 5 ltac:(lia) Hname).
  lia.
Qed.

Lemma qualified_score lead e s : lead_score (qualified lead e s) = s.
Proof. reflexivity. Qed.

Lemma qualified_status lead e s :
  lead_status (qualified lead e s) = lifecycle (lead_status lead) s.
Proof. reflexivity. Qed.

Lemma merged_interaction_points lead e :
  interaction_points (merged lead e) = interaction_points lead.
Proof. reflexivity. Qed.

(** The score a pass leaves, when it returns. *)
Lemma lead_after_score lead e :
  returned lead e = true ->
  lead_score (lead_after lead e)
  = Z.min (profile_points (merged lead e) + signal_points e
           + interaction_points lead) 100.
Proof.
  unfold returned, lead_after.
  rewrite run_update_eq, calculate_lead_score_eq, merged_interaction_points.
  destruct (scorable e); [|done]. intros _.
  cbn [snd st_lead]. by rewrite qualified_score.
Qed.

Lemma profile_points_after lead e :
  profile_points (lead_after lead e) = profile_points (merged lead e).
Proof.
  unfold profile_points. rewrite lead_after_preferences, lead_after_name.
  reflexivity.
Qed.

Lemma interaction_points_after lead e :
  interaction_points (lead_after lead e) = interaction_points lead.
Proof. unfold interaction_points. by rewrite lead_after_interactions. Qed.

(** C2, amended.  Across two successive passes that both return, the
    score does not decrease provided the second extraction brings at
    least as many interest and visit points as the first: the points
    of the profile never decrease under the fill-only merge, and the
    interaction counter is left alone. *)
Theorem score_monotone_when_signals_hold (lead : Lead) (e1 e2 : dict) :
  returned lead e1 = true ->
  returned (lead_after lead e1) e2 = true ->
  signal_points e1 <= signal_points e2 ->
  lead_score (lead_after lead e1)
  <= lead_score (lead_after (lead_after lead e1) e2).
Proof.
  intros R1 R2 Hsig.
  rewrite (lead_after_score _ _ R2), (lead_after_score _ _ R1).
  pose proof (merged_profile_points (lead_after lead e1) e2) as Hp.
  rewrite profile_points_after in Hp.
  rewrite interaction_points_after. lia.
Qed.

(** C1 at work: a lead whose budget is known keeps it through two
    passes that both state another budget. *)
Lemma fill_only_witness :
  is_set lead_in_centro (Preference A_max_budget) = true
  /\ field_value (passes [says_other_budget; says_other_budget] lead_in_centro)
       (Preference A_max_budget) = JInt 200000.
Proof.
  split; [reflexivity|].
  apply (fill_only_never_overwrites lead_in_centro
           [says_other_budget; says_other_budget] (Preference A_max_budget)).
  reflexivity.
Defined.

(** C2 fails as stated: on an empty lead, a pass whose extraction
    signals very high interest and a visit leaves score 45, and the
    next pass, whose extraction signals low interest, leaves 15. *)
Lemma score_drops_between_passes :
  returned Lead_default keen_on_centro = true
  /\ returned (lead_after Lead_default keen_on_centro) lukewarm = true
  /\ lead_score (lead_after Lead_default keen_on_centro) = 45
  /\ lead_score (lead_after (lead_after Lead_default keen_on_centro) lukewarm) = 15.
Proof. vm_compute. auto. Qed.

(** C2 amended, at work: low interest first, very high interest next. *)
Lemma score_monotone_witness :
  lead_score (lead_after Lead_default lukewarm)
  <= lead_score (lead_after (lead_after Lead_default lukewarm) keen_on_centro).
Proof.
  apply (score_monotone_when_signals_hold Lead_default lukewarm keen_on_centro).
  - vm_compute; reflexivity.
  - vm_compute; reflexivity.
  - vm_compute. discriminate.
Defined.

(** C3 at its failing input: an extraction whose interest level is a
    JSON list makes [calculate_lead_score] raise [TypeError] (the
    lookup in [interest_points] hashes it) instead of returning a
    score. *)
Lemma score_raises_on_unhashable_interest :
  calculate_lead_score Lead_default (Some {[ "interest_level" := JArr [JStr "alto"] ]})
  = Raise TypeError.
Proof. vm_compute. reflexivity. Qed.

Lemma calculate_lead_score_None lead :
  calculate_lead_score lead None = calculate_lead_score lead (Some ∅).
Proof. reflexivity. Qed.

Lemma profile_points_bounds lead : 0 <= profile_points lead <= 85.
Proof.
  unfold profile_points.
  repeat match goal with
         | |- context [pts ?b ?n] =>
             lazymatch b with
             | true => fail | false => fail
             | _ => destruct b
             end
         end; rewrite ?pts_true, ?pts_false; lia.
Qed.

Lemma interest_points_bounds v p : interest_points v = Ok p -> 0 <= p <= 15.
Proof.
  unfold interest_points. destruct (hashable v); [|done].
  intros [= <-]. destruct v; try lia.
  repeat case_match; lia.
Qed.

Lemma signal_points_bounds e : 0 <= signal_points e <= 30.
Proof.
  unfold signal_points. destruct (truthy (JObj e)); [|lia].
  pose proof (pts_nonneg (truthy (dict_get e "wants_visit")) 15).
  pose proof (pts_le (truthy (dict_get e "wants_visit")) 15).
  destruct (interest_points (interest_level e)) as [p|] eqn:Hp; [|lia].
  apply interest_points_bounds in Hp. lia.
Qed.

Lemma interaction_points_bounds lead : 0 <= interaction_points lead <= 10.
Proof.
  unfold interaction_points.
  pose proof (pts_nonneg (3 <=? lead_total_interactions lead) 5).
  pose proof (pts_le (3 <=? lead_total_interactions lead) 5).
  pose proof (pts_nonneg (5 <=? lead_total_interactions lead) 5).
  pose proof (pts_le (5 <=? lead_total_interactions lead) 5).
  lia.
Qed.

(** X1.  [calculate_lead_score] returns a score in [0,100] on every
    lead and every extraction it can score, and raises [TypeError] on
    the others, which are exactly the non-empty extractions whose
    interest level is a list or a dict. *)
Theorem score_in_range_when_returned (lead : Lead) (extracted : option dict) :
  match calculate_lead_score lead extracted with
  | Ok score => 0 <= score <= 100 /\ scorable (read_extraction extracted) = true
  | Raise e => e = TypeError /\ scorable (read_extraction extracted) = false
  end.
Proof.
  assert (Hsome : calculate_lead_score lead extracted
                  = calculate_lead_score lead (Some (read_extraction extracted))).
  { destruct extracted; [done|apply calculate_lead_score_None]. }
  rewrite Hsome, calculate_lead_score_eq.
  destruct (scorable (read_extraction extracted)); [|done].
  split; [|done].
  pose proof (profile_points_bounds lead).
  pose proof (signal_points_bounds (read_extraction extracted)).
  pose proof (interaction_points_bounds lead). lia.
Qed.

(** X2.  [get_score_label] at the threshold boundaries: 25 is cold
    (curioso), 26 and 50 warm (interesado), 51 and 75 hot (caliente),
    76 ready (listo); and in general the bucket of the fixed
    thresholds 25, 50 and 75. *)
Theorem score_label_boundaries :
  get_score_label 25 = CURIOSO /\ get_score_label 26 = INTERESADO
  /\ get_score_label 50 = INTERESADO /\ get_score_label 51 = CALIENTE
  /\ get_score_label 75 = CALIENTE /\ get_score_label 76 = LISTO
  /\ forall score,
       get_score_label score =
       if score <=? 25 then CURIOSO
       else if score <=? 50 then INTERESADO
       else if score <=? 75 then CALIENTE else LISTO.
Proof. repeat split; reflexivity. Qed.

(** C4.  The status after a pass is the lifecycle rule applied to the
    status before and the recomputed score: a lead in "nuevo" becomes
    "cualificado" at 75 or more, "contactado" at 50 or more, and stays
    otherwise; any other status is left as it is.  A pass that raised
    while scoring leaves the status as it was. *)
Theorem status_follows_lifecycle (lead : Lead) (e : dict) :
  lead_status (lead_after lead e) =
  if returned lead e
  then lifecycle (lead_status lead) (lead_score (lead_after lead e))
  else lead_status lead.
Proof.
  unfold returned, lead_after. rewrite run_update_eq.
  destruct (calculate_lead_score (merged lead e) (Some e)) as [score|x];
    cbn [fst snd st_lead is_ok]; [|reflexivity].
  by rewrite qualified_status, qualified_score.
Qed.

(** C5 fails as stated: a lead already at 85 before the pass, scored
    85 again by it, gets a new high-priority task. *)
Lemma hot_task_without_crossing :
  LEAD_SCORE_HOT <= lead_score seasoned_lead
  /\ returned seasoned_lead lukewarm = true
  /\ lead_score (lead_after seasoned_lead lukewarm) = 85
  /\ hot_tasks (calls_of seasoned_lead lukewarm) = 1%nat.
Proof. vm_compute. repeat split; discriminate. Qed.

(** C5, amended.  A pass creates exactly one high-priority follow-up
    task when it returns with a recomputed score of 75 or more, and
    none otherwise; the score before the pass plays no part. *)
Theorem hot_task_iff_recomputed_score_hot (lead : Lead) (e : dict) :
  hot_tasks (calls_of lead e) =
  if returned lead e && (LEAD_SCORE_HOT <=? lead_score (lead_after lead e))
  then 1%nat else 0%nat.
Proof.
  unfold returned, lead_after, calls_of. rewrite run_update_eq.
  destruct (calculate_lead_score (merged lead e) (Some e)) as [score|x];
    cbn [fst snd st_lead st_calls is_ok andb]; [|reflexivity].
  rewrite qualified_score. unfold calls_made, hot_tasks.
  destruct (LEAD_SCORE_HOT <=? score), (truthy (dict_get e "wants_human_agent"));
    reflexivity.
Qed.

(** *** The merge, field by field *)

Lemma merge_field_getattr e p u kv a :
  getattr (fst (merge_field e (p, u) kv)) a =
  if decide (snd kv = a)
  then (if is_none (getattr p a) then dict_get e (fst kv) else getattr p a)
  else getattr p a.
Proof.
  destruct kv as [k b]. unfold merge_field. cbn [fst snd].
  destruct (decide (b = a)) as [->|Hne].
  - destruct (is_none (dict_get e k)) eqn:Hv, (is_none (getattr p a)) eqn:Hp;
      cbn [negb andb fst]; rewrite ?getattr_setattr, ?decide_True by done; try done.
    destruct (dict_get e k), (getattr p a); done.
  - destruct (negb (is_none (dict_get e k)) && is_none (getattr p b));
      cbn [fst]; [|done].
    by rewrite getattr_setattr, decide_False.
Qed.

Lemma merge_fields_getattr e fm st a :
  NoDup (map snd fm) ->
  getattr (fst (fold_left (merge_field e) fm st)) a =
  match find (fun kv => bool_decide (snd kv = a)) fm with
  | Some kv =>
      if is_none (getattr (fst st) a) then dict_get e (fst kv)
      else getattr (fst st) a
  | None => getattr (fst st) a
  end.
Proof.
  revert st. induction fm as [|kv fm IH]; intros [p u] Hnd; [done|].
  cbn [map] in Hnd. apply NoDup_cons in Hnd as [Hnotin Hnd].
  cbn [fold_left find]. rewrite (IH _ Hnd).
  destruct (merge_field e (p, u) kv) as [p' u'] eqn:Hstep.
  pose proof (merge_field_getattr e p u kv a) as Hattr.
  rewrite Hstep in Hattr. cbn [fst] in *. rewrite Hattr.
  destruct (decide (snd kv = a)) as [Heq|Hne].
  - rewrite bool_decide_eq_true_2 by done.
    assert (Hnone : find (fun kv0 => bool_decide (snd kv0 = a)) fm = None).
    { destruct (find _ fm) as [kv'|] eqn:Hfind; [|done].
      apply find_some in Hfind as [Hin Hfound].
      apply bool_decide_eq_true_1 in Hfound. exfalso. apply Hnotin.
      rewrite Heq, <- Hfound. apply list_elem_of_fmap. exists kv'.
      split; [done|]. by apply list_elem_of_In. }
    by rewrite Hnone.
  - by rewrite bool_decide_eq_false_2.
Qed.

Lemma field_map_NoDup : NoDup (map snd field_map).
Proof. by apply (bool_decide_unpack _). Qed.

Lemma merged_preferences_getattr lead e a :
  getattr (merged_preferences lead e) a =
  match ext_key a with
  | Some k =>
      if is_none (getattr (lead_preferences lead) a) then dict_get e k
      else getattr (lead_preferences lead) a
  | None => getattr (lead_preferences lead) a
  end.
Proof.
  unfold merged_preferences, ext_key.
  rewrite (merge_fields_getattr e field_map _ a field_map_NoDup). cbn [fst].
  by destruct (find _ field_map).
Qed.

(** X4.  The merge, field by field.  After a qualification pass
    (whether it returned or raised while scoring) each of the eleven
    preferences [field_map] names holds what it held before when that
    was not [None], and otherwise what the extraction holds under its
    key ([None] when the key is absent); [max_sqm] and [notes] are
    never written; the name is kept when it is non-empty, and is
    otherwise the extraction's name when that is non-empty. *)
Theorem empty_fields_take_the_extracted_value (lead : Lead) (e : dict)
    (a : pref_attr) :
  getattr (lead_preferences (lead_after lead e)) a
  = match ext_key a with
    | Some k =>
        if is_none (getattr (lead_preferences lead) a) then dict_get e k
        else getattr (lead_preferences lead) a
    | None => getattr (lead_preferences lead) a
    end
  /\ ext_key A_max_sqm = None /\ ext_key A_notes = None
  /\ lead_name (lead_after lead e)
     = if truthy (lead_name lead) then lead_name lead
       else py_or (dict_get e "name") (lead_name lead).
Proof.
  rewrite lead_after_preferences, lead_after_name, merged_preferences_getattr.
  repeat split. unfold merged_name, py_or.
  by destruct (truthy (lead_name lead)), (truthy (dict_get e "name")).
Qed.

(** *** Running the same pass again *)

Lemma preferences_ext p q : (forall a, getattr p a = getattr q a) -> p = q.
Proof.
  intros Hall. destruct p, q.
  pose proof (Hall A_operation). pose proof (Hall A_property_type).
  pose proof (Hall A_zone). pose proof (Hall A_min_budget).
  pose proof (Hall A_max_budget). pose proof (Hall A_min_sqm).
  pose proof (Hall A_max_sqm). pose proof (Hall A_bedrooms).
  pose proof (Hall A_bathrooms). pose proof (Hall A_parking).
  pose proof (Hall A_urgency). pose proof (Hall A_purpose).
  pose proof (Hall A_notes). cbn in *. subst. reflexivity.
Qed.

Lemma merged_preferences_again lead lead' e :
  lead_preferences lead' = merged_preferences lead e ->
  merged_preferences lead' e = merged_preferences lead e.
Proof.
  intros Hp. apply preferences_ext. intros a.
  rewrite (merged_preferences_getattr lead'), Hp, merged_preferences_getattr.
  destruct (ext_key a) as [k|]; [|done].
  destruct (is_none (getattr (lead_preferences lead) a)) eqn:Hnone; [|by rewrite Hnone].
  by destruct (is_none (dict_get e k)).
Qed.

Lemma merged_name_again lead lead' e :
  lead_name lead' = merged_name lead e ->
  merged_name lead' e = merged_name lead e.
Proof.
  intros Hn. unfold merged_name at 1. rewrite Hn. unfold merged_name.
  destruct (truthy (dict_get e "name")) eqn:He,
    (truthy (lead_name lead)) eqn:Hl; cbn [negb andb]; rewrite ?He, ?Hl; done.
Qed.

Lemma merged_fixed lead e :
  lead_preferences lead = merged_preferences lead e ->
  lead_name lead = merged_name lead e -> merged lead e = lead.
Proof.
  unfold merged. intros <- <-. by destruct lead.
Qed.

Lemma lifecycle_again status score :
  lifecycle (lifecycle status score) score = lifecycle status score.
Proof.
  unfold lifecycle. destruct status; try done.
  destruct (LEAD_SCORE_HOT <=? score) eqn:Hhot; [done|].
  by destruct (LEAD_SCORE_WARM <=? score) eqn:Hwarm.
Qed.

Lemma run_update_again lead e :
  run_update (lead_after lead e) e = run_update lead e.
Proof.
  unfold lead_after. rewrite (run_update_eq lead e).
  destruct (calculate_lead_score (merged lead e) (Some e)) as [s|x] eqn:Hs;
    cbn [snd st_lead].
  - assert (Hm : merged (qualified lead e s) e = qualified lead e s).
    { apply merged_fixed.
      - symmetry. by apply merged_preferences_again.
      - symmetry. by apply merged_name_again. }
    rewrite run_update_eq, Hm.
    assert (Hs' : calculate_lead_score (qualified lead e s) (Some e) = Ok s)
      by exact Hs.
    rewrite Hs'. unfold calls_made.
    assert (Hq : qualified (qualified lead e s) e s = qualified lead e s).
    { unfold qualified at 1. rewrite Hm. unfold qualified.
      cbn [lead_status with_status with_score]. rewrite lifecycle_again.
      by destruct (merged lead e). }
    by rewrite Hq.
  - assert (Hm : merged (merged lead e) e = merged lead e).
    { apply merged_fixed.
      - symmetry. by apply merged_preferences_again.
      - symmetry. by apply merged_name_again. }
    by rewrite run_update_eq, Hm, Hs.
Qed.

(** X5.  Running a qualification pass again with the same extraction
    leaves the lead object exactly as the first pass left it, and
    repeats every store call of the first pass: the record is written
    again and, for a hot lead or a hand-off request, the task is
    created again. *)
Theorem requalifying_is_idempotent (lead : Lead) (e : dict) :
  lead_after (lead_after lead e) e = lead_after lead e
  /\ calls_of (lead_after lead e) e = calls_of lead e
  /\ returned (lead_after lead e) e = returned lead e.
Proof.
  unfold calls_of, returned. unfold lead_after at 1.
  by rewrite run_update_again.
Qed.

Lemma qualified_label lead e s :
  lead_score_label (qualified lead e s) = get_score_label s.
Proof. reflexivity. Qed.

(** X6.  What a pass writes.  A pass that returns has made exactly one
    [update_lead] call, its first call, for the lead's own id and with
    the name, preferences, score, label and status the returned object
    holds; the label is the one of the score, which lies in [0,100];
    every other call creates a task.  A pass that raised while scoring
    has written nothing, though the object already holds the merged
    fields, and has left score, label and status as they were. *)
Theorem stored_record_matches_lead (lead : Lead) (e : dict) :
  let l := lead_after lead e in
  if returned lead e then
    lead_score_label l = get_score_label (lead_score l)
    /\ 0 <= lead_score l <= 100
    /\ exists tasks,
         calls_of lead e = CallUpdateLead (lead_id lead) (record_of l) :: tasks
         /\ Forall (fun c => is_task c = true) tasks
  else
    calls_of lead e = []
    /\ lead_preferences l = merged_preferences lead e
    /\ lead_score l = lead_score lead
    /\ lead_score_label l = lead_score_label lead
    /\ lead_status l = lead_status lead.
Proof.
  unfold returned, lead_after, calls_of. rewrite run_update_eq.
  rewrite calculate_lead_score_eq.
  destruct (scorable e); cbn [fst snd st_lead st_calls is_ok]; [|done].
  pose proof (profile_points_bounds (merged lead e)).
  pose proof (signal_points_bounds e).
  pose proof (interaction_points_bounds (merged lead e)).
  assert (Hs : 0 <= Z.min (profile_points (merged lead e) + signal_points e
                           + interaction_points (merged lead e)) 100 <= 100)
    by lia.
  revert Hs.
  generalize (Z.min (profile_points (merged lead e) + signal_points e
                     + interaction_points (merged lead e)) 100).
  intros s Hs. rewrite qualified_label, qualified_score.
  split; [reflexivity|]. split; [exact Hs|].
  unfold calls_made. eexists. split; [reflexivity|].
  destruct (LEAD_SCORE_HOT <=? s), (truthy (dict_get e "wants_human_agent"));
    repeat constructor.
Qed.

(** X7.  A pass creates exactly one urgent hand-off task when it
    returns and the extraction's [wants_human_agent] is truthy, and
    none otherwise, whatever the score. *)
Theorem handoff_task_iff_requested (lead : Lead) (e : dict) :
  handoff_tasks (calls_of lead e) =
  if returned lead e && truthy (dict_get e "wants_human_agent")
  then 1%nat else 0%nat.
Proof.
  unfold returned, calls_of. rewrite run_update_eq.
  destruct (calculate_lead_score (merged lead e) (Some e)) as [score|x];
    cbn [fst snd st_lead st_calls is_ok andb]; [|reflexivity].
  unfold calls_made, handoff_tasks.
  destruct (LEAD_SCORE_HOT <=? score), (truthy (dict_get e "wants_human_agent"));
    reflexivity.
Qed.

(** *** A pass after earlier store calls *)

(** [update_lead_from_extraction] with calls already made: the calls
    of the pass come after them. *)
Lemma update_after_calls calls lead e :
  update_lead_from_extraction e {| st_lead := lead; st_calls := calls |} =
  (fst (run_update lead e),
   {| st_lead := lead_after lead e; st_calls := calls ++ calls_of lead e |}).
Proof.
  unfold calls_of, lead_after. rewrite run_update_eq.
  unfold update_lead_from_extraction, calls_made, qualified, merged,
    merged_preferences, merged_name.
  unfold bind at 1. unfold the_lead at 1. cbn [st_lead st_calls].
  destruct (fold_left (merge_field e) field_map (lead_preferences lead, false))
    as [prefs updated] eqn:Hfold.
  cbn [fst].
  unfold bind, the_lead, set_lead, call_db, modify, lift, ret. cbn [st_lead st_calls fst snd].
  set (nm := truthy (dict_get e "name") && negb (truthy (lead_name lead))).
  assert (Hnm : truthy (dict_get e "name") && negb (truthy (lead_name (with_preferences prefs lead))) = nm) by reflexivity.
  rewrite Hnm. clear Hnm.
  destruct nm; cbn [st_lead st_calls].
  all: destruct (calculate_lead_score _ _) as [s|x];
       [|cbn [fst snd st_lead st_calls]; by rewrite app_nil_r].
  all: rewrite orb_true_r.
  all: unfold lifecycle, LEAD_SCORE_HOT, LEAD_SCORE_WARM.
  all: destruct lead as [? ? ? ? ? status ? ? ? ? ? ? ? ?]; cbn [lead_status lead_score with_score with_name with_preferences with_status].
  all: destruct status; cbn [bool_decide decide_rel]; rewrite ?andb_false_r, ?andb_true_r;
       destruct (75 <=? s) eqn:H75; destruct (50 <=? s) eqn:H50;
       cbn -[Z.leb hot_lead_task human_handoff_task truthy dict_get LeadScore_value LeadStatus_value get_score_label app];
       rewrite ?H75, ?H50;
       destruct (truthy (dict_get e "wants_human_agent"));
       cbn [fst snd st_lead st_calls]; rewrite <- ?app_assoc; reflexivity.
Qed.

End CrmProofs.

(** ** tools/ai_engine.py: the dispatch and the tool loop *)
Module AiEngineProofs.
Import AiEngine AiEngineSpec.

Section Dispatch.
Context `{Collaborators}.

(** C6 at its failing inputs: with the empty dict a rejected argument
    text is replaced by, [get_property_details] raises
    [KeyError('reference')] and [calculate_mortgage] raises
    [KeyError('price')], whatever the collaborators do; the sibling
    actions read their arguments with [get] and go on. *)
Theorem dispatch_raises_on_missing_key (lead_context : option dict) :
  _execute_tool_call "get_property_details" (JObj ∅) lead_context
  = Raise (KeyError "reference")
  /\ _execute_tool_call "calculate_mortgage" (JObj ∅) lead_context
     = Raise (KeyError "price").
Proof. split; reflexivity. Qed.

(** X3.  An action name outside the six registered ones gets the
    "no implementada" text as its result, whatever the arguments. *)
Theorem unknown_action_is_answered (name : string) (arguments : json)
    (lead_context : option dict) :
  registered name = false ->
  _execute_tool_call name arguments lead_context
  = Ok [Lit "Función "; Lit name; Lit " no implementada."].
Proof.
  unfold registered. intros Hname. apply bool_decide_eq_false in Hname.
  rewrite !elem_of_cons, elem_of_nil in Hname.
  unfold _execute_tool_call.
  repeat match goal with
         | |- context [String.eqb name ?s] =>
             destruct (String.eqb_spec name s) as [->|_]; [exfalso; tauto|]
         end.
  reflexivity.
Qed.

End Dispatch.

Section Loop.
Context `{Collaborators} `{Service}.

(** One request of the inner loop: its arguments are read, the
    dispatch runs, and its result is appended. *)
Lemma run_tool_calls_step ctx tc tcs st :
  run_tool_calls ctx (tc :: tcs) st
  = match (let? func_args := parsed_arguments tc in
           _execute_tool_call (tc_name tc) func_args ctx) with
    | Ok result =>
        run_tool_calls ctx tcs
          {| ls_messages := ls_messages st ++ [MsgTool (tc_id tc) result];
             ls_calls := ls_calls st; ls_slept := ls_slept st |}
    | Raise e => (Raise e, st)
    end.
Proof.
  cbn [run_tool_calls].
  unfold parsed_arguments, bind, lift, append_message, modify.
  destruct (json_loads (tc_arguments tc)) as [v|[]]; cbn [rbind];
    try reflexivity;
    destruct (_execute_tool_call _ _ _); reflexivity.
Qed.

Lemma run_tool_calls_calls ctx tcs st :
  ls_calls (snd (run_tool_calls ctx tcs st)) = ls_calls st.
Proof.
  revert st. induction tcs as [|tc tcs IH]; intros st; [reflexivity|].
  rewrite run_tool_calls_step.
  destruct (let? func_args := parsed_arguments tc in _); [|reflexivity].
  by rewrite IH.
Qed.

(** One round issues one call; the rounds that remain bound the rest. *)
Lemma rounds_calls ctx n st :
  (ls_calls (snd (rounds ctx n st)) <= ls_calls st + n)%nat.
Proof.
  revert st. induction n as [|n IH]; intros st; cbn [rounds].
  { unfold ret. cbn. lia. }
  unfold bind at 1. unfold call_create at 1.
  destruct (create (ls_calls st) (ls_messages st)) as [choices|error_str].
  - destruct choices as [|choice ?]; [unfold raise; cbn; lia|].
    destruct (_ && _); [|unfold ret; cbn; lia].
    unfold bind, append_message, modify.
    match goal with
    | |- context [run_tool_calls ctx ?t ?s] =>
        pose proof (run_tool_calls_calls ctx t s) as Hc;
        destruct (run_tool_calls ctx t s) as [[[]|x] st']
    end; cbn [snd ls_calls] in Hc |- *; [|lia].
    etransitivity; [apply IH|]. lia.
  - destruct (str_contains "429" error_str); [|unfold ret; cbn; lia].
    unfold bind, sleep, modify. etransitivity; [apply IH|]. cbn. lia.
Qed.

Lemma run_tool_calls_ok ctx tcs st :
  dispatches ctx tcs -> fst (run_tool_calls ctx tcs st) = Ok tt.
Proof.
  intros Hall. revert st.
  induction Hall as [|tc tcs Htc _ IH]; intros st; [reflexivity|].
  rewrite run_tool_calls_step. cbn beta in Htc.
  destruct (let? func_args := parsed_arguments tc in _); [|discriminate].
  apply IH.
Qed.

(** A round that is answered by a completion the loop goes on from
    leads to the remaining rounds, one call later. *)
Lemma rounds_continue ctx n st :
  continues (create (ls_calls st) (ls_messages st)) = true ->
  dispatches ctx (requested (create (ls_calls st) (ls_messages st))) ->
  exists st', rounds ctx (S n) st = rounds ctx n st'
              /\ ls_calls st' = S (ls_calls st).
Proof.
  intros Hgo Hok. cbn [rounds]. unfold bind at 1. unfold call_create at 1.
  destruct (create (ls_calls st) (ls_messages st)) as [choices|error_str].
  - destruct choices as [|choice ?]; [discriminate|].
    cbn [continues requested] in Hgo, Hok.
    destruct (String.eqb (finish_reason choice) "tool_calls"); [|discriminate].
    cbn [andb]. rewrite Hgo.
    unfold bind, append_message, modify.
    match goal with
    | |- context [run_tool_calls ctx ?t ?s] =>
        pose proof (run_tool_calls_calls ctx t s) as Hc;
        pose proof (run_tool_calls_ok ctx t s Hok) as Hr;
        destruct (run_tool_calls ctx t s) as [r st']
    end; cbn [fst snd ls_calls] in Hc, Hr. subst r.
    exists st'. split; [reflexivity|exact Hc].
  - cbn [continues] in Hgo. rewrite Hgo.
    unfold bind, sleep, modify. eexists. split; [reflexivity|reflexivity].
Qed.

Lemma rounds_exhausted ctx n st :
  (forall k msgs, (ls_calls st <= k < ls_calls st + n)%nat ->
                  continues (create k msgs) = true) ->
  (forall k msgs, (ls_calls st <= k < ls_calls st + n)%nat ->
                  dispatches ctx (requested (create k msgs))) ->
  fst (rounds ctx n st) = Ok still_processing
  /\ ls_calls (snd (rounds ctx n st)) = (ls_calls st + n)%nat.
Proof.
  revert st. induction n as [|n IH]; intros st Hgo Hok.
  { cbn. split; [done|lia]. }
  destruct (rounds_continue ctx n st) as (st' & -> & Hst').
  { apply Hgo. lia. }
  { apply Hok. lia. }
  destruct (IH st') as [-> ->].
  - intros k msgs Hk. apply Hgo. lia.
  - intros k msgs Hk. apply Hok. lia.
  - split; [done|lia].
Qed.

(** C7.  One call of [_generate_with_tools] issues at most
    [max_tool_rounds] calls to the reasoning service, whatever the
    service answers and whether the call returns or raises (a
    rate-limited call uses up its round); and when each of the
    [max_tool_rounds] answers is a rate-limit failure or a list of
    action requests that are served (the arguments of each are read,
    [json.loads] returning or raising its [JSONDecodeError], and the
    dispatch returns), so that no round ends the loop, it issues
    exactly that many calls and returns the "still processing"
    text. *)
Theorem tool_loop_is_bounded (messages : list chat_msg)
    (lead_context : option dict) (max_tool_rounds : Z) :
  let run := _generate_with_tools messages lead_context max_tool_rounds in
  (ls_calls (snd run) <= Z.to_nat max_tool_rounds)%nat
  /\ ((forall k msgs, (k < Z.to_nat max_tool_rounds)%nat ->
                      continues (create k msgs) = true) ->
      (forall k msgs, (k < Z.to_nat max_tool_rounds)%nat ->
                      dispatches lead_context (requested (create k msgs))) ->
      fst run = Ok still_processing
      /\ ls_calls (snd run) = Z.to_nat max_tool_rounds).
Proof.
  cbv zeta. unfold _generate_with_tools. split.
  - apply (rounds_calls lead_context (Z.to_nat max_tool_rounds)).
  - intros Hgo Hok.
    apply (rounds_exhausted lead_context (Z.to_nat max_tool_rounds)
             {| ls_messages := messages; ls_calls := 0; ls_slept := 0 |}).
    + intros k msgs Hk. apply Hgo. cbn in Hk. lia.
    + intros k msgs Hk. apply Hok. cbn in Hk. lia.
Qed.

End Loop.

(** C6 through the loop: the service asks for [get_property_details]
    with an argument text that does not parse; the dispatch raises and
    the exception leaves [_generate_with_tools] after one call. *)
Lemma malformed_arguments_abort_the_round :
  let run :=
    @_generate_with_tools no_collaborators (always_asks "get_property_details")
      [] None 3 in
  fst run = Raise (KeyError "reference") /\ ls_calls (snd run) = 1%nat.
Proof. vm_compute. split; reflexivity. Qed.

(** What [except json.JSONDecodeError] does not catch leaves the loop
    as well: an argument text on which [json.loads] raises a
    [ValueError] ends [_generate_with_tools] after one call, before
    the dispatch is reached. *)
Lemma unreadable_arguments_abort_the_round :
  let run :=
    @_generate_with_tools no_collaborators (always_asks_digits "make_coffee")
      [] None 3 in
  fst run = Raise ValueError /\ ls_calls (snd run) = 1%nat.
Proof. vm_compute. split; reflexivity. Qed.

(** X3 at work: "make_coffee" is not an action of the dispatch. *)
Lemma unknown_action_witness :
  @_execute_tool_call no_collaborators "make_coffee" (JObj ∅) None
  = Ok [Lit "Función "; Lit "make_coffee"; Lit " no implementada."].
Proof.
  apply (@unknown_action_is_answered no_collaborators "make_coffee" (JObj ∅) None).
  reflexivity.
Defined.

(** C7 at work: a service that asks for an unregistered action at
    every call, and a budget of three rounds. *)
Lemma tool_loop_witness :
  let run :=
    @_generate_with_tools no_collaborators (always_asks "make_coffee") [] None 3 in
  (ls_calls (snd run) <= 3)%nat
  /\ fst run = Ok still_processing /\ ls_calls (snd run) = 3%nat.
Proof.
  cbv zeta.
  pose proof (@tool_loop_is_bounded no_collaborators (always_asks "make_coffee")
                [] None 3) as [Hle Hfall].
  split; [exact Hle|]. apply Hfall.
  - intros k msgs _. reflexivity.
  - intros k msgs _. repeat constructor.
Defined.

(** *** The dispatch and its arguments *)

Section Arguments.
Context `{Collaborators}.

Lemma format_all_raises results output e :
  format_all results output = Raise e ->
  exists prop, format_property_for_chat prop = Raise e.
Proof.
  revert output. induction results as [|prop rest IH]; intros output; [done|].
  cbn [format_all].
  destruct (format_property_for_chat prop) as [text|e'] eqn:Hprop;
    cbn [rbind].
  - apply IH.
  - intros [= ->]. by exists prop.
Qed.

(** X16.  The four actions that read their arguments with [get] raise
    nothing of their own on an argument dict, whatever keys it lacks
    and whatever it holds under them.  Whenever the dispatch of one of
    them raises, the exception is one that a function it called has
    raised ([search_properties_by_criteria], [format_property_for_chat],
    [schedule_visit], [get_available_slots],
    [format_available_slots_for_chat], [handoff_to_human],
    [generate_handoff_response]), or it is the [AttributeError] of
    reading [get] on something truthy and not a dict that
    [schedule_visit] returned.  In particular no missing key raises a
    [KeyError] here, and when the functions called return
    ([schedule_visit] with a dict or [None]), the dispatch returns a
    text. *)
Theorem get_actions_raise_only_what_they_call (name : string)
    (arguments : dict) (lead_context : option dict) (e : exn) :
  reads_with_get name = true ->
  _execute_tool_call name (JObj arguments) lead_context = Raise e ->
  raised_by_a_call e \/ (e = AttributeError /\ odd_booking).
Proof.
  intros Hname. unfold reads_with_get in Hname.
  apply bool_decide_eq_true in Hname.
  rewrite !elem_of_cons, elem_of_nil in Hname.
  unfold raised_by_a_call.
  destruct Hname as [->|[->|[->|[->|[]]]]]; unfold _execute_tool_call;
    cbn [String.eqb Ascii.eqb Bool.eqb andb args_get args_get_or rbind].
  - destruct (search_properties_by_criteria _ _ _ _ _ _) as [results|e']
      eqn:Hsearch; cbn [rbind].
    + destruct results as [|prop rest]; [done|].
      intros Hfmt%format_all_raises. left. right. left. exact Hfmt.
    + intros [= ->]. left. left. by do 6 eexists.
  - destruct (strptime _ _) as [when|]; [|done].
    destruct (schedule_visit _ _ _ _ _) as [v|e'] eqn:Hvisit; cbn [rbind].
    + destruct (truthy v) eqn:Htruthy; cbn [rbind].
      * destruct v; cbn [rbind];
          try (intros [= <-]; right; split; [done|];
               do 6 eexists; split; [exact Hvisit|by split]).
        by destruct (truthy (dict_get _ "id")).
      * done.
    + intros [= ->]. left. right. right. left. by do 5 eexists.
  - destruct (get_available_slots _) as [slots|e'] eqn:Hslots; cbn [rbind].
    + destruct slots as [|slot slots]; [done|].
      destruct (format_available_slots_for_chat _ _) as [text|e'] eqn:Hfmt;
        cbn [rbind]; [done|].
      intros [= ->]. left. do 4 right. left. by do 2 eexists.
    + intros [= ->]. left. do 3 right. left. by eexists.
  - destruct (handoff_to_human _ _ _ _ _ _ _) as [[]|e'] eqn:Hhand;
      cbn [rbind].
    + destruct (generate_handoff_response _) as [text|e'] eqn:Hresp;
        cbn [rbind]; [done|].
      intros [= ->]. left. do 6 right. by eexists.
    + intros [= ->]. left. do 5 right. left. by do 7 eexists.
Qed.

(** X17.  Arguments that are valid JSON but not an object.  The loop
    replaces an argument text that does not parse by an empty dict,
    but hands over whatever a text that parses gives; on a list, a
    string, a number, a boolean or [null] each of the six registered
    actions raises ([AttributeError] from [get], [TypeError] from a
    subscript) before any collaborator is called. *)
Theorem non_object_arguments_raise (name : string) (arguments : json)
    (lead_context : option dict) :
  registered name = true -> is_dict arguments = false ->
  _execute_tool_call name arguments lead_context = Raise AttributeError
  \/ _execute_tool_call name arguments lead_context = Raise TypeError.
Proof.
  intros Hname Hargs. unfold registered in Hname.
  apply bool_decide_eq_true in Hname.
  rewrite !elem_of_cons, elem_of_nil in Hname.
  destruct Hname as [->|[->|[->|[->|[->|[->|[]]]]]]];
    destruct arguments; try discriminate Hargs; cbn; auto.
Qed.

End Arguments.

(** *** The message list and the waits of the tool loop *)

Section Transcript.
Context `{Collaborators} `{Service}.

Lemma run_tool_calls_messages ctx tcs st r st' :
  run_tool_calls ctx tcs st = (r, st') ->
  exists answers,
    ls_messages st' = ls_messages st ++ answers
    /\ Forall (fun m => added_by_loop m = true) answers
    /\ ls_slept st' = ls_slept st
    /\ (Forall2 is_answer_to tcs answers \/ is_ok r = false).
Proof.
  revert st. induction tcs as [|tc tcs IH]; intros st.
  { intros [= <- <-]. exists []. rewrite app_nil_r. repeat split; auto. }
  rewrite run_tool_calls_step.
  destruct (let? func_args := parsed_arguments tc in _) as [text|e].
  2:{ intros [= <- <-]. exists []. rewrite app_nil_r. repeat split; auto. }
  intros Hrun. destruct (IH _ Hrun) as (answers & Hmsgs & Hadded & Hslept & Hans).
  cbn [ls_messages ls_slept] in Hmsgs, Hslept.
  exists (MsgTool (tc_id tc) text :: answers). repeat split.
  - rewrite Hmsgs, <- app_assoc. reflexivity.
  - by constructor.
  - exact Hslept.
  - destruct Hans as [Hans|Hfail]; [left|by right]. by constructor.
Qed.

Lemma rounds_messages ctx n st r st' :
  rounds ctx n st = (r, st') ->
  exists added,
    ls_messages st' = ls_messages st ++ added
    /\ Forall (fun m => added_by_loop m = true) added
    /\ (answered_rounds added \/ is_ok r = false).
Proof.
  assert (Hstop : forall (x : result string) s,
            ls_messages s = ls_messages st ->
            (x, s) = (r, st') ->
            exists added,
              ls_messages st' = ls_messages st ++ added
              /\ Forall (fun m => added_by_loop m = true) added
              /\ (answered_rounds added \/ is_ok r = false)).
  { intros x s Hs [= <- <-]. exists []. rewrite app_nil_r.
    repeat split; auto. left. constructor. }
  revert st Hstop. induction n as [|n IH]; intros st Hstop.
  { cbn [rounds]. unfold ret. by apply Hstop. }
  cbn [rounds]. unfold bind at 1. unfold call_create at 1.
  destruct (create (ls_calls st) (ls_messages st)) as [choices|error_str].
  - destruct choices as [|choice ?]; [unfold raise; by apply Hstop|].
    destruct (String.eqb (finish_reason choice) "tool_calls"
              && negb (bool_decide (cm_tool_calls (message choice) = [])))
      eqn:Hgo; [|unfold ret; by apply Hstop].
    apply andb_true_iff in Hgo as [_ Hsome].
    apply negb_true_iff, bool_decide_eq_false in Hsome.
    unfold bind at 1, append_message at 1, modify.
    unfold bind at 1.
    match goal with
    | |- context [run_tool_calls ctx ?t ?s] =>
        destruct (run_tool_calls ctx t s) as [[[]|x] st1] eqn:Hrun;
        destruct (run_tool_calls_messages ctx t s _ _ Hrun)
          as (answers & Hmsgs & Hadded & _ & Hans)
    end; cbn [ls_messages is_ok] in Hmsgs, Hans.
    + intros Hrest. apply IH in Hrest.
      * destruct Hrest as (added & Hmsgs' & Hadded' & Hrest).
        exists (MsgAssistant (message choice) :: answers ++ added). repeat split.
        -- rewrite Hmsgs', Hmsgs, <- !app_assoc. reflexivity.
        -- constructor; [done|]. by apply Forall_app.
        -- destruct Hrest as [Hrest|Hfail]; [left|by right].
           destruct Hans as [Hans|?]; [|done]. by constructor.
      * intros x s Hs [= <- <-]. exists []. rewrite app_nil_r.
        repeat split; auto. left. constructor.
    + intros [= <- <-].
      exists (MsgAssistant (message choice) :: answers). repeat split.
      * rewrite Hmsgs, <- app_assoc. reflexivity.
      * by constructor.
      * by right.
  - destruct (str_contains "429" error_str); [|unfold ret; by apply Hstop].
    unfold bind at 1, sleep at 1, modify.
    intros Hrest. apply IH in Hrest; [exact Hrest|].
    intros x s Hs [= <- <-]. exists []. rewrite app_nil_r.
    repeat split; auto. left. constructor.
Qed.

(** X18.  The tool loop only appends to the message list it is given,
    and what it appends is what the reasoning service expects to read
    back.  The caller's messages stay where they were; every entry
    added is an assistant message or an action result; and when the
    loop returns a text, the added entries are, round by round, the
    assistant message that asked for actions followed by exactly one
    result for each of its requests, carrying the request's id, in the
    order of the requests. *)
Theorem tool_results_follow_their_requests (messages : list chat_msg)
    (lead_context : option dict) (max_tool_rounds : Z) :
  let run := _generate_with_tools messages lead_context max_tool_rounds in
  exists added,
    ls_messages (snd run) = messages ++ added
    /\ Forall (fun m => added_by_loop m = true) added
    /\ (answered_rounds added \/ is_ok (fst run) = false).
Proof.
  cbv zeta. unfold _generate_with_tools.
  set (st := {| ls_messages := messages; ls_calls := 0; ls_slept := 0 |}).
  destruct (rounds lead_context (Z.to_nat max_tool_rounds) st) as [r st'] eqn:Hrun.
  apply (rounds_messages _ _ _ _ _ Hrun).
Qed.

Lemma rounds_slept ctx n st r st' :
  rounds ctx n st = (r, st') ->
  (ls_calls st <= ls_calls st')%nat
  /\ ls_slept st <= ls_slept st'
  /\ ls_slept st' - ls_slept st
     <= 15 * (Z.of_nat (ls_calls st') - Z.of_nat (ls_calls st)).
Proof.
  revert st. induction n as [|n IH]; intros st; cbn [rounds].
  { unfold ret. intros [= <- <-]. lia. }
  unfold bind at 1. unfold call_create at 1.
  destruct (create (ls_calls st) (ls_messages st)) as [choices|error_str].
  - destruct choices as [|choice ?];
      [unfold raise; intros [= <- <-]; cbn; lia|].
    destruct (_ && _); [|unfold ret; intros [= <- <-]; cbn; lia].
    unfold bind at 1, append_message at 1, modify. unfold bind at 1.
    match goal with
    | |- context [run_tool_calls ctx ?t ?s] =>
        pose proof (run_tool_calls_calls ctx t s) as Hc;
        destruct (run_tool_calls ctx t s) as [[[]|x] st1] eqn:Hrun;
        destruct (run_tool_calls_messages ctx t s _ _ Hrun) as (_ & _ & _ & Hs & _)
    end; cbn [snd ls_calls ls_slept] in Hc, Hs.
    + intros Hrest%IH. lia.
    + intros [= <- <-]. lia.
  - destruct (str_contains "429" error_str);
      [|unfold ret; intros [= <- <-]; cbn; lia].
    unfold bind at 1, sleep at 1, modify.
    intros Hrest%IH. cbn [ls_calls ls_slept] in Hrest. lia.
Qed.

(** X19.  The tool loop waits at most fifteen seconds for each call it
    makes to the reasoning service, so at most fifteen seconds times
    [max_tool_rounds] in all (45 seconds with the default of three
    rounds); a rate-limit failure in the last round is waited for as
    well, although no call follows it. *)
Theorem tool_loop_waits_are_bounded (messages : list chat_msg)
    (lead_context : option dict) (max_tool_rounds : Z) :
  let run := _generate_with_tools messages lead_context max_tool_rounds in
  0 <= ls_slept (snd run) <= 15 * Z.of_nat (ls_calls (snd run))
  /\ ls_slept (snd run) <= 15 * Z.max 0 max_tool_rounds
  /\ ls_slept
       (snd (@_generate_with_tools _ always_limited messages lead_context 3))
     = 45.
Proof.
  cbv zeta. unfold _generate_with_tools.
  set (st := {| ls_messages := messages; ls_calls := 0; ls_slept := 0 |}).
  pose proof (rounds_calls lead_context (Z.to_nat max_tool_rounds) st) as Hle.
  destruct (rounds lead_context (Z.to_nat max_tool_rounds) st) as [r st'] eqn:Hrun.
  destruct (rounds_slept _ _ _ _ _ Hrun) as (_ & Hlo & Hhi).
  cbn [st snd ls_slept ls_calls] in Hlo, Hhi, Hle |- *.
  repeat split; try lia.
Qed.

(** *** The fallback without actions *)

Lemma attempts_from_spec attempt remaining max_retries st r st' :
  max_retries <= attempt + Z.of_nat remaining ->
  attempts_from attempt remaining max_retries st = (r, st') ->
  is_ok r = true
  /\ ls_messages st' = ls_messages st
  /\ match remaining with
     | O => r = Ok None /\ st' = st
     | S _ =>
         exists j : nat,
           (j < remaining)%nat
           /\ ls_calls st' = (ls_calls st + j + 1)%nat
           /\ 2 * (ls_slept st' - ls_slept st)
              = 15 * Z.of_nat j * (2 * attempt + Z.of_nat j + 1)
     end.
Proof.
  revert attempt st. induction remaining as [|n IH]; intros attempt st Hleft.
  { cbn [attempts_from]. unfold ret. by intros [= <- <-]. }
  cbn [attempts_from]. unfold bind at 1. unfold call_create at 1.
  set (st1 := {| ls_messages := ls_messages st; ls_calls := S (ls_calls st);
                 ls_slept := ls_slept st |}).
  assert (Hstop : forall x : option string,
            ret x st1 = (r, st') ->
            is_ok r = true
            /\ ls_messages st' = ls_messages st
            /\ exists j : nat,
                 (j < S n)%nat
                 /\ ls_calls st' = (ls_calls st + j + 1)%nat
                 /\ 2 * (ls_slept st' - ls_slept st)
                    = 15 * Z.of_nat j * (2 * attempt + Z.of_nat j + 1)).
  { intros x. unfold ret. intros [= <- <-]. repeat split. exists 0%nat.
    cbn. repeat split; lia. }
  destruct (match create (ls_calls st) (ls_messages st) with
            | Completed [] => inl "list index out of range"
            | Completed (choice :: _) => inr (cm_content (message choice))
            | Failed error_str => inl error_str
            end) as [error_str|content]; [|apply Hstop].
  destruct (str_contains "429" error_str && (attempt <? max_retries - 1))
    eqn:Hretry; [|apply Hstop].
  apply andb_true_iff in Hretry as [_ Hmore%Z.ltb_lt].
  unfold bind at 1, sleep at 1, modify.
  intros Hrest. apply IH in Hrest as (Hok & Hmsgs & Hrest); [|lia].
  cbn [st1 ls_messages ls_calls ls_slept] in Hmsgs, Hrest.
  split; [exact Hok|]. split; [exact Hmsgs|].
  destruct n as [|n']; [lia|].
  destruct Hrest as (j & Hj & Hcalls & Hslept).
  exists (S j). repeat split; [lia|lia|]. rewrite Nat2Z.inj_succ. nia.
Qed.

(** X20.  The fallback without actions.  [_generate_openai_compatible]
    never raises and leaves the message list as it was; it calls the
    service at most [max_retries] times; before its [c]-th call it has
    waited 15, 30, ... seconds after the calls before it, so that
    after [c] calls it has waited 15 (1 + ... + (c - 1)) seconds in
    all, and it never waits after its last call; and with
    [max_retries] at 0 or below it calls nothing and returns [None]
    instead of a text. *)
Theorem fallback_retries_are_bounded (messages : list chat_msg)
    (max_retries : Z) :
  let run := _generate_openai_compatible messages max_retries in
  let calls := Z.of_nat (ls_calls (snd run)) in
  is_ok (fst run) = true
  /\ ls_messages (snd run) = messages
  /\ calls <= Z.max 0 max_retries
  /\ 2 * ls_slept (snd run) = 15 * calls * (calls - 1)
  /\ (if max_retries <=? 0 then fst run = Ok None /\ calls = 0
      else 1 <= calls).
Proof.
  cbv zeta. unfold _generate_openai_compatible.
  set (st := {| ls_messages := messages; ls_calls := 0; ls_slept := 0 |}).
  destruct (attempts_from 0 (Z.to_nat max_retries) max_retries st)
    as [r st'] eqn:Hrun.
  apply attempts_from_spec in Hrun as (Hok & Hmsgs & Hrest); [|lia].
  cbn [fst snd]. split; [exact Hok|]. split; [exact Hmsgs|].
  destruct (Z.to_nat max_retries) as [|n] eqn:Hn.
  - destruct Hrest as [-> ->]. cbn [st ls_calls ls_slept].
    repeat split; try lia.
    destruct (max_retries <=? 0) eqn:Hle; [by split|lia].
  - destruct Hrest as (j & Hj & Hcalls & Hslept).
    cbn [st ls_calls ls_slept] in Hcalls, Hslept.
    rewrite Hcalls. repeat split; try lia; try nia.
    destruct (max_retries <=? 0) eqn:Hle; lia.
Qed.

End Transcript.

Lemma get_actions_witness :
  @raised_by_a_call only_slots ValueError
  \/ (ValueError = AttributeError /\ @odd_booking only_slots).
Proof.
  apply (@get_actions_raise_only_what_they_call only_slots
           "check_availability" ∅ None ValueError); reflexivity.
Defined.

Lemma non_object_arguments_witness :
  @_execute_tool_call no_collaborators "search_properties" (JArr []) None
  = Raise AttributeError
  \/ @_execute_tool_call no_collaborators "search_properties" (JArr []) None
     = Raise TypeError.
Proof.
  apply (@non_object_arguments_raise no_collaborators "search_properties"
           (JArr []) None); reflexivity.
Defined.

(** *** Reading the extraction *)

Lemma rfind_from_short sep s i :
  (String.length s < String.length sep)%nat -> rfind_from sep s i = None.
Proof.
  revert i. induction s as [|c s IH]; intros i Hlen; [done|].
  cbn [rfind_from]. rewrite IH by (cbn [String.length] in Hlen; lia).
  assert (Hpre : String.prefix sep (String c s) = false).
  { destruct (String.prefix sep (String c s)) eqn:Hp; [|done].
    apply prefix_correct in Hp.
    assert (Hl : String.length (substring 0 (String.length sep) (String c s))
                 = String.length sep) by (by rewrite Hp).
    clear Hp. exfalso. revert Hl Hlen.
    generalize (String c s). clear. intros t.
    revert t. induction sep as [|x sep IH]; intros t Hl Hlen;
      [cbn in Hlen; lia|].
    destruct t as [|y t]; [cbn in Hl; lia|].
    cbn [substring String.length] in Hl, Hlen.
    apply (IH t); [lia|lia]. }
  by rewrite Hpre.
Qed.

Lemma prefix_refl s : String.prefix s s = true.
Proof.
  induction s as [|c s IH]; [done|]. simpl.
  destruct (Ascii.ascii_dec c c); [exact IH|contradiction].
Qed.

Lemma rfind_from_closing sep body i :
  sep <> "" ->
  rfind_from sep (body ++ sep) i = Some (i + String.length body)%nat.
Proof.
  intros Hsep. revert i. induction body as [|c body IH]; intros i.
  - change ("" ++ sep)%string with sep.
    destruct sep as [|x sep]; [done|]. cbn [rfind_from].
    rewrite rfind_from_short by (cbn [String.length]; lia).
    rewrite prefix_refl. f_equal. cbn. lia.
  - change (String c body ++ sep)%string with (String c (body ++ sep)).
    cbn [rfind_from]. rewrite IH. f_equal. cbn [String.length]. lia.
Qed.

Lemma substring_append body rest :
  substring 0 (String.length body) (body ++ rest) = body.
Proof.
  induction body as [|c body IH]; [by destruct rest|].
  change (String c body ++ rest)%string with (String c (body ++ rest)).
  cbn [String.length substring]. by rewrite IH.
Qed.

Lemma before_last_closing body : before_last fence (body ++ fence) = body.
Proof.
  unfold before_last. rewrite rfind_from_closing by done.
  cbn [Nat.add]. apply substring_append.
Qed.

Lemma after_newline_append lang rest :
  after_newline lang = None ->
  after_newline (lang ++ nl ++ rest) = Some rest.
Proof.
  induction lang as [|c lang IH]; [done|].
  change (String c lang ++ nl ++ rest)%string
    with (String c (lang ++ nl ++ rest)).
  cbn [after_newline]. destruct (Ascii.eqb c _); [done|]. exact IH.
Qed.

Lemma startswith_append s rest : startswith (s ++ rest) s = true.
Proof.
  unfold startswith. induction s as [|c s IH]; [by destruct rest|].
  change (String c s ++ rest)%string with (String c (s ++ rest)). simpl.
  destruct (Ascii.ascii_dec c c); [exact IH|contradiction].
Qed.

Section Extraction.
Context `{Service} `{Providers}.

Lemma first_reply reply messages :
  replies reply ->
  exists st, _generate_openai_compatible messages 3 = (Ok reply, st).
Proof.
  intros Hreply. unfold _generate_openai_compatible.
  change (Z.to_nat 3) with 3%nat. cbn [attempts_from].
  unfold bind at 1, call_create at 1. cbn [ls_calls ls_messages].
  destruct (Hreply messages) as (choice & rest & -> & <-).
  unfold ret. by eexists.
Qed.

Lemma first_failure messages :
  out_of_service ->
  exists st,
    _generate_openai_compatible messages 3 = (Ok (Some technical_difficulties), st).
Proof.
  intros Hdown. unfold _generate_openai_compatible.
  change (Z.to_nat 3) with 3%nat. cbn [attempts_from].
  unfold bind at 1, call_create at 1. cbn [ls_calls ls_messages].
  destruct (Hdown messages) as (e & -> & ->).
  unfold ret. by eexists.
Qed.

(** With an OpenAI-compatible provider, the extraction is the reading
    of what the generation returned. *)
Lemma extract_reads_the_generation text reply :
  openai_like ->
  (forall messages, exists st,
     _generate_openai_compatible messages 3 = (Ok reply, st)) ->
  fst (extract_lead_info text) = read_reply reply.
Proof.
  intros [Hprov Hclient] Hgen. unfold extract_lead_info.
  rewrite Hprov.
  destruct (String.eqb LLM_PROVIDER "gemini"); rewrite Hclient;
    match goal with
    | |- context [_generate_openai_compatible ?m 3] =>
        destruct (Hgen m) as (st & ->)
    end; reflexivity.
Qed.

Lemma extraction_when_out_of_service text :
  openai_like -> out_of_service ->
  strip technical_difficulties = technical_difficulties ->
  json_loads technical_difficulties = Raise JSONDecodeError ->
  fst (extract_lead_info text) = Ok (JObj ∅).
Proof.
  intros Hprov Hdown Hstrip Hloads.
  rewrite (extract_reads_the_generation _ (Some technical_difficulties));
    [|done|intros; by apply first_failure].
  unfold read_reply. rewrite Hstrip.
  assert (Hplain : startswith technical_difficulties fence = false)
    by reflexivity.
  rewrite Hplain. cbn [rbind]. by rewrite Hloads.
Qed.

(** X21.  When the reasoning service fails (not for its rate limit)
    [extract_lead_info] returns the empty dict and does not raise: the
    apology text the generation returns in that case is not JSON, and
    the [JSONDecodeError] is caught. *)
Theorem extraction_survives_a_failed_service (conversation_text : string) :
  openai_like -> out_of_service ->
  strip technical_difficulties = technical_difficulties ->
  json_loads technical_difficulties = Raise JSONDecodeError ->
  fst (extract_lead_info conversation_text) = Ok (JObj ∅).
Proof.
  apply extraction_when_out_of_service.
Qed.

(** X22.  Two replies make [extract_lead_info] raise instead of
    returning the empty dict, because its [try] only catches
    [JSONDecodeError]: a completion without content ([None] has no
    [strip]) and a reply that opens a markdown fence and has no newline
    after it (the split has no second part). *)
Theorem extraction_raises_on_cut_replies (conversation_text : string)
    (reply : option string) :
  openai_like -> replies reply -> cut_short reply = true ->
  fst (extract_lead_info conversation_text)
  = Raise (match reply with Some _ => IndexError | None => AttributeError end).
Proof.
  intros Hprov Hreply Hcut.
  rewrite (extract_reads_the_generation _ reply);
    [|done|intros; by apply first_reply].
  destruct reply as [text|]; [|done].
  cbn [cut_short] in Hcut. apply andb_true_iff in Hcut as [Hfence Hline].
  unfold read_reply. rewrite Hfence.
  destruct (after_newline (strip text)); [|done].
  apply negb_true_iff, bool_decide_eq_false in Hline.
  exfalso. apply Hline. by eexists.
Qed.

(** X23.  A reply wrapped in a markdown fence is unwrapped: whatever
    the language tag after the opening fence and whatever the body
    (other fences included), [extract_lead_info] hands exactly the
    body to [json.loads].  It returns what [json.loads] reads, the
    empty dict when [json.loads] raises its [JSONDecodeError], and it
    raises whatever else [json.loads] raises (a [RecursionError], a
    [ValueError]), which its [except] clause does not catch. *)
Theorem fenced_reply_is_unwrapped (conversation_text reply lang body : string) :
  openai_like -> replies (Some reply) ->
  strip reply = fenced lang body -> after_newline lang = None ->
  fst (extract_lead_info conversation_text)
  = match json_loads body with
    | Ok extracted => Ok extracted
    | Raise JSONDecodeError => Ok (JObj ∅)
    | Raise e => Raise e
    end.
Proof.
  intros Hprov Hreply Hstrip Hlang.
  rewrite (extract_reads_the_generation _ (Some reply));
    [|done|intros; by apply first_reply].
  unfold read_reply. rewrite Hstrip. unfold fenced.
  rewrite startswith_append.
  assert (Hafter : after_newline (fence ++ lang ++ nl ++ body ++ fence)
                   = Some (body ++ fence)%string).
  { exact (after_newline_append lang (body ++ fence) Hlang). }
  rewrite Hafter, before_last_closing. cbn [rbind].
  by destruct (json_loads body) as [extracted|[]].
Qed.

End Extraction.

Lemma failed_service_witness :
  fst (@extract_lead_info service_down openai_provider "CLIENTE: hola")
  = Ok (JObj ∅).
Proof.
  apply (@extraction_survives_a_failed_service service_down openai_provider
           "CLIENTE: hola").
  - split; reflexivity.
  - intros msgs. eexists. split; reflexivity.
  - reflexivity.
  - reflexivity.
Defined.

Lemma cut_reply_witness :
  fst (@extract_lead_info (answers "```json" loads_zone) openai_provider
         "CLIENTE: hola")
  = Raise IndexError.
Proof.
  apply (@extraction_raises_on_cut_replies (answers "```json" loads_zone)
           openai_provider "CLIENTE: hola" (Some "```json")).
  - split; reflexivity.
  - intros msgs. eexists _, _. split; reflexivity.
  - reflexivity.
Defined.

Lemma fenced_reply_witness :
  fst (@extract_lead_info (answers (fenced "json" "{}") loads_zone)
         openai_provider "CLIENTE: hola")
  = match loads_zone "{}" with
    | Ok extracted => Ok extracted
    | Raise JSONDecodeError => Ok (JObj ∅)
    | Raise e => Raise e
    end.
Proof.
  apply (@fenced_reply_is_unwrapped (answers (fenced "json" "{}") loads_zone)
           openai_provider "CLIENTE: hola" (fenced "json" "{}") "json" "{}").
  - split; reflexivity.
  - intros msgs. eexists _, _. split; reflexivity.
  - reflexivity.
  - reflexivity.
Defined.

End AiEngineProofs.

(** ** tools/nurturing_engine.py: deliveries that fail *)
Module NurturingProofs.
Import NurturingEngine NurturingSpec.

Section Run.
Context `{Outside}.

Lemma state_eta (st : State) :
  {| actions_taken := actions_taken st; events := events st |} = st.
Proof. by destruct st. Qed.

(** The guarded WhatsApp send: it never raises, and its events are the
    attempt, the line of its outcome and the nurturing line. *)
Lemma whatsapp_branch_eq phone type message st :
  try_except
    (send_whatsapp_message [Lit "whatsapp:"; Val phone] message ;;
     emit (PrintNurturingWhatsApp phone type))
    (fun _ => emit (PrintNurturingWhatsAppError phone)) st
  = (Ok tt,
     {| actions_taken := actions_taken st;
        events := events st ++
          [TwilioCreate [Lit "whatsapp:"; Val phone] message;
           if is_ok (twilio (length (events st)) [Lit "whatsapp:"; Val phone] message)
           then PrintWhatsAppSent [Lit "whatsapp:"; Val phone]
           else PrintWhatsAppError [Lit "whatsapp:"; Val phone];
           PrintNurturingWhatsApp phone type] |}).
Proof.
  unfold try_except, send_whatsapp_message, try_except, bind, get, emit, modify, lift.
  cbn [actions_taken events fst snd].
  destruct (twilio _ _ _); cbn [is_ok actions_taken events];
    rewrite <- !app_assoc; reflexivity.
Qed.

(** The guarded email send: a failure of the request is caught here. *)
Lemma email_branch_eq email subject type message st :
  try_except
    (send_email email subject message ;; emit (PrintNurturingEmail email type))
    (fun _ => emit (PrintNurturingEmailError email)) st
  = (Ok tt,
     {| actions_taken := actions_taken st;
        events := events st ++
          SendgridPost email subject message
          :: (if is_ok (sendgrid (length (events st)) email subject message)
              then [PrintEmailSent email; PrintNurturingEmail email type]
              else [PrintNurturingEmailError email]) |}).
Proof.
  unfold try_except, send_email, bind, get, emit, modify, lift.
  cbn [actions_taken events fst snd].
  destruct (sendgrid _ _ _ _); cbn [is_ok actions_taken events];
    rewrite <- !app_assoc; reflexivity.
Qed.

Lemma execute_action_eq lead action st :
  _execute_nurturing_action lead action st =
  match plan_action lead action with
  | Ok p =>
      (Ok tt, {| actions_taken := actions_taken st;
                 events := events st ++ delivery_events (length (events st)) p |})
  | Raise e => (Raise e, st)
  end.
Proof.
  unfold _execute_nurturing_action, plan_action.
  unfold bind at 1. unfold lift at 1.
  destruct (_generate_nurturing_message _ _) as [message|e]; cbn [rbind]; [|done].
  unfold bind at 1. unfold lift at 1.
  destruct (and_then _ _) as [by_whatsapp|e]; cbn [rbind]; [|done].
  unfold delivery_events, whatsapp_events, email_events.
  cbn [p_by_whatsapp p_by_email p_phone p_email p_message p_action].
  unfold bind at 1.
  destruct by_whatsapp.
  - rewrite whatsapp_branch_eq.
    destruct (channel_in (a_channel action) "email" "both" && truthy _).
    + rewrite email_branch_eq. cbn [actions_taken events].
      rewrite length_app, <- app_assoc. reflexivity.
    + unfold ret. cbn [actions_taken events]. by rewrite app_nil_r.
  - unfold ret at 1.
    destruct (channel_in (a_channel action) "email" "both" && truthy _).
    + rewrite email_branch_eq. cbn [length app]. by rewrite Nat.add_0_r.
    + unfold ret. cbn [app]. by rewrite app_nil_r, state_eta.
Qed.

(** The loop body in one equation: it never raises, and what it does
    is decided by the plan of the lead. *)
Lemma process_lead_eq lead st :
  process_lead lead st =
  (Ok tt, {| actions_taken := lead_counters lead (actions_taken st);
             events := events st ++ lead_events (length (events st)) lead |}).
Proof.
  unfold process_lead, lead_counters, lead_events, plan_lead, try_except.
  unfold bind at 1. unfold lift at 1.
  destruct (days_since lead) as [days|e]; cbn [rbind].
  2:{ unfold bind, emit, count, modify. reflexivity. }
  unfold bind at 1. unfold lift at 1.
  destruct (_evaluate_nurturing_rules _ _ _ _) as [[action|]|e]; cbn [rbind].
  3:{ unfold bind, emit, count, modify. reflexivity. }
  2:{ unfold ret. by rewrite app_nil_r, state_eta. }
  unfold bind at 1. rewrite execute_action_eq.
  destruct (plan_action lead action) as [p|e] eqn:Hp; cbn [rbind].
  2:{ unfold bind, emit, count, modify. reflexivity. }
  assert (Hact : p_action p = action).
  { unfold plan_action in Hp.
    destruct (_generate_nurturing_message _ _); [|done].
    destruct (and_then _ _); [|done]. cbn in Hp. by injection Hp as <-. }
  rewrite Hact. unfold count_action, bind, count, modify, ret.
  cbn [actions_taken events].
  destruct (channel_in (a_channel action) "whatsapp" "both"),
    (channel_in (a_channel action) "email" "both"); reflexivity.
Qed.

Lemma process_leads_ok leads st : fst (process_leads leads st) = Ok tt.
Proof.
  revert st. induction leads as [|lead leads IH]; intros st; [done|].
  cbn [process_leads]. unfold bind. rewrite process_lead_eq. apply IH.
Qed.

Lemma process_leads_counters leads st :
  actions_taken (snd (process_leads leads st))
  = fold_left (fun c lead => lead_counters lead c) leads (actions_taken st).
Proof.
  revert st. induction leads as [|lead leads IH]; intros st; [done|].
  cbn [process_leads fold_left]. unfold bind. rewrite process_lead_eq.
  by rewrite IH.
Qed.

End Run.

(** The plan of a lead does not depend on the delivery clients. *)
Lemma plan_lead_deliveries (o : Outside) tw sg lead :
  @plan_lead (with_deliveries o tw sg) lead = @plan_lead o lead.
Proof. reflexivity. Qed.

Lemma plan_action_deliveries (o : Outside) tw sg lead action :
  @plan_action (with_deliveries o tw sg) lead action = @plan_action o lead action.
Proof. reflexivity. Qed.

Lemma attempts_app evs evs' : attempts (evs ++ evs') = attempts evs ++ attempts evs'.
Proof. apply filter_app. Qed.

Lemma delivery_attempts (o : Outside) tw sg n n' p :
  attempts (@delivery_events (with_deliveries o tw sg) n p)
  = attempts (@delivery_events o n' p).
Proof.
  unfold delivery_events, whatsapp_events, email_events.
  destruct (p_by_whatsapp p), (p_by_email p); cbn [app length];
    repeat match goal with
           | |- context [is_ok ?r] => destruct (is_ok r)
           end; reflexivity.
Qed.

Lemma lead_attempts (o : Outside) tw sg n n' lead :
  attempts (@lead_events (with_deliveries o tw sg) n lead)
  = attempts (@lead_events o n' lead).
Proof.
  unfold lead_events. rewrite plan_lead_deliveries.
  destruct (@plan_lead o lead) as [[p|]|e]; try reflexivity.
  apply delivery_attempts.
Qed.

Lemma process_leads_attempts (o : Outside) tw sg leads st st' :
  attempts (events st') = attempts (events st) ->
  attempts (events (snd (@process_leads (with_deliveries o tw sg) leads st')))
  = attempts (events (snd (@process_leads o leads st))).
Proof.
  revert st st'. induction leads as [|lead leads IH]; intros st st' Hst; [done|].
  cbn [process_leads]. unfold bind. rewrite !process_lead_eq.
  apply IH. cbn [events]. rewrite !attempts_app, Hst. f_equal.
  apply lead_attempts.
Qed.

Lemma process_leads_counters_deliveries (o : Outside) tw sg leads c :
  fold_left (fun c lead => @lead_counters (with_deliveries o tw sg) lead c) leads c
  = fold_left (fun c lead => @lead_counters o lead c) leads c.
Proof. reflexivity. Qed.


Section Logged.
Context `{Outside}.

Lemma logged_from_app n evs evs' :
  logged_from n evs -> logged_from (n + length evs) evs' ->
  logged_from n (evs ++ evs').
Proof.
  intros Hl Hr i e line Hi Hline.
  destruct (decide (i < length evs)%nat) as [Hlt|Hge].
  - rewrite lookup_app_l in Hi by done.
    pose proof (Hl i e line Hi Hline) as Hnext.
    rewrite lookup_app_l; [done|]. by apply lookup_lt_Some in Hnext.
  - rewrite lookup_app_r in Hi by lia.
    replace (n + i)%nat with (n + length evs + (i - length evs))%nat in Hline by lia.
    pose proof (Hr _ e line Hi Hline) as Hnext.
    rewrite lookup_app_r by lia.
    by replace (S i - length evs)%nat with (S (i - length evs)) by lia.
Qed.

Lemma whatsapp_logged n p : logged_from n (whatsapp_events n p).
Proof.
  unfold whatsapp_events. destruct (p_by_whatsapp p); [|by intros [|?] ? ? ?].
  intros i e line Hi Hline.
  destruct i as [|[|[|i]]]; cbn in Hi; try done; injection Hi as <-.
  - cbn [failure_line] in Hline. rewrite Nat.add_0_r in Hline. cbn.
    destruct (is_ok _); [done|]. by injection Hline as <-.
  - destruct (is_ok _); done.
  - done.
Qed.

Lemma email_logged n p : logged_from n (email_events n p).
Proof.
  unfold email_events. destruct (p_by_email p); [|by intros [|?] ? ? ?].
  intros i e line Hi Hline.
  destruct i as [|i]; cbn in Hi.
  - injection Hi as <-. cbn [failure_line] in Hline.
    rewrite Nat.add_0_r in Hline. cbn.
    destruct (is_ok _); [done|]. by injection Hline as <-.
  - destruct (is_ok _); destruct i as [|[|i]]; cbn in Hi; try done;
      by injection Hi as <-.
Qed.

Lemma lead_logged n lead : logged_from n (lead_events n lead).
Proof.
  unfold lead_events. destruct (plan_lead lead) as [[p|]|e].
  - unfold delivery_events. apply logged_from_app.
    + apply whatsapp_logged.
    + apply email_logged.
  - by intros [|?] ? ? ?.
  - intros [|?] ? ? Hi Hline; [|done]. by injection Hi as <-.
Qed.

Lemma process_leads_logged leads st :
  logged_from 0 (events st) ->
  logged_from 0 (events (snd (process_leads leads st))).
Proof.
  revert st. induction leads as [|lead leads IH]; intros st Hst; [done|].
  cbn [process_leads]. unfold bind. rewrite process_lead_eq.
  apply IH. cbn [events]. apply logged_from_app; [done|]. apply lead_logged.
Qed.

End Logged.

(** C8 fails as stated: both deliveries fail, one per lead, and the
    run returns with [errors] at 0 (and both sends counted as sent);
    the second lead is still processed after the first one's failure. *)
Lemma failed_deliveries_are_not_counted :
  let run := @process_nurturing nothing_delivers [cold_lead; hot_lead] in
  fst run = Ok tt
  /\ actions_taken (snd run)
     = {| messages_sent := 1; emails_sent := 1; leads_processed := 2;
          errors := 0 |}
  /\ length (attempts (events (snd run))) = 2%nat
  /\ events (snd run) !! 1%nat
     = Some (PrintNurturingEmailError (JStr "ana@example.com")).
Proof. vm_compute. repeat split. Qed.

(** C8, amended.  A run of [process_nurturing] returns, and whatever the
    two delivery clients do (any other pair in their place) it ends
    with the same four counters and makes the same delivery attempts
    in the same order: a failed delivery stops neither the other
    channel of its lead nor the leads after it, and it is not counted
    in [errors], which counts the leads whose processing raised outside
    the two guarded sends.  Every failed attempt is followed by the
    line that reports it with the number or the address it was going
    to.  The same holds for [_execute_nurturing_action] on any action,
    channel "both" included: it ends the same way and makes the same
    attempts whatever the clients do. *)
Theorem delivery_failures_are_contained (o : Outside)
    (tw : nat -> fstring -> fstring -> result unit)
    (sg : nat -> json -> string -> fstring -> result unit)
    (leads : list dict) :
  let run := @process_nurturing o leads in
  let run' := @process_nurturing (with_deliveries o tw sg) leads in
  fst run = Ok tt
  /\ actions_taken (snd run') = actions_taken (snd run)
  /\ attempts (events (snd run')) = attempts (events (snd run))
  /\ @logged_from o 0 (events (snd run))
  /\ forall lead action st,
       let act := @_execute_nurturing_action o lead action st in
       let act' :=
         @_execute_nurturing_action (with_deliveries o tw sg) lead action st in
       fst act' = fst act
       /\ attempts (events (snd act')) = attempts (events (snd act)).
Proof.
  cbv zeta. unfold process_nurturing. repeat split.
  - apply process_leads_ok.
  - by rewrite !process_leads_counters.
  - by apply process_leads_attempts.
  - apply process_leads_logged. by intros [|?] ? ? ?.
  - rewrite !execute_action_eq, plan_action_deliveries.
    by destruct (@plan_action o lead action).
  - rewrite !execute_action_eq, plan_action_deliveries.
    destruct (@plan_action o lead action) as [p|e]; [|done].
    cbn [snd events]. rewrite !attempts_app. f_equal. apply delivery_attempts.
Qed.

(** *** The rules *)

(** The four actions the rules can give, each with the days its
    condition asks for. *)
Lemma evaluate_cases lead days score interactions action :
  _evaluate_nurturing_rules lead days score interactions = Ok (Some action) ->
  (action = {| a_type := "hot_lead_urgency"; a_channel := "whatsapp";
               a_template := "hot_lead" |} /\ 2 <= days)
  \/ (action = {| a_type := "warm_lead_nudge"; a_channel := "whatsapp";
                  a_template := "warm_nudge" |} /\ 3 <= days)
  \/ (action = {| a_type := "post_first_contact"; a_channel := "whatsapp";
                  a_template := "first_followup" |} /\ 1 <= days <= 2)
  \/ (action = {| a_type := "cold_lead_reactivation"; a_channel := "email";
                  a_template := "reactivation" |} /\ 7 <= days).
Proof.
  unfold _evaluate_nurturing_rules, and_then.
  destruct (ge_int score 60) as [[|]|]; cbn [rbind]; try done.
  1: destruct (2 <=? days) eqn:H2;
       [intros [= <-]; left; split; [done|lia]|].
  all: destruct (ge_int score 30) as [[|]|]; cbn [rbind]; try done.
  all: try (destruct (lt_int score 60) as [[|]|]; cbn [rbind]; try done).
  all: try (destruct (3 <=? days) eqn:H3;
            [intros [= <-]; right; left; split; [done|lia]|]).
  all: destruct (le_int interactions 2) as [[|]|]; cbn [rbind]; try done.
  all: destruct (lt_int score 30) as [[|]|]; cbn [rbind]; try done.
  all: try (destruct ((1 <=? days) && (days <=? 2)) eqn:H12;
            [intros [= <-]; right; right; left; split; [done|lia]|]).
  all: try (destruct (7 <=? days) eqn:H7;
            [intros [= <-]; right; right; right; split; [done|lia]|]).
  all: done.
Qed.

(** X8.  Whenever [_evaluate_nurturing_rules] gives an action, its type
    is a rule declared in [NURTURING_RULES], it goes out on the channel
    that rule declares (WhatsApp or email, never both), and the days
    since the last contact cover the rule's declared [delay_hours]: no
    lead is written to within a day of its last contact. *)
Theorem actions_respect_declared_rules (lead : dict) (days : Z)
    (score interactions : json) (action : Action) :
  _evaluate_nurturing_rules lead days score interactions = Ok (Some action) ->
  exists rule,
    declared (a_type action) = Some rule
    /\ a_channel action = r_channel rule
    /\ r_delay_hours rule <= 24 * days
    /\ (a_channel action = "whatsapp" \/ a_channel action = "email")
    /\ 1 <= days.
Proof.
  intros Hcases%evaluate_cases.
  destruct Hcases as [[-> ?]|[[-> ?]|[[-> ?]|[-> ?]]]];
    eexists; (split; [reflexivity|]); cbn; repeat split; auto; lia.
Qed.

Section Counters.
Context `{Outside}.

Lemma plan_lead_action lead p :
  plan_lead lead = Ok (Some p) ->
  exists days,
    _evaluate_nurturing_rules lead days (dict_get_or lead "score" (JInt 0))
      (dict_get_or lead "total_interactions" (JInt 0))
    = Ok (Some (p_action p))
    /\ plan_action lead (p_action p) = Ok p.
Proof.
  unfold plan_lead. destruct (days_since lead) as [days|]; cbn [rbind]; [|done].
  destruct (_evaluate_nurturing_rules _ _ _ _) as [[action|]|] eqn:Hrules;
    cbn [rbind]; try done.
  destruct (plan_action lead action) as [p'|] eqn:Hplan; cbn [rbind]; [|done].
  intros [= <-]. exists days.
  assert (Hact : p_action p' = action).
  { unfold plan_action in Hplan.
    destruct (_generate_nurturing_message _ _); [|done].
    destruct (and_then _ _); [|done]. cbn in Hplan. by injection Hplan as <-. }
  by rewrite Hact.
Qed.

(** What one lead does to the counters: nothing, one error, or one
    processed lead with one message or one email. *)
Lemma lead_counters_cases lead c :
  lead_counters lead c = c
  \/ lead_counters lead c = bump_errors c
  \/ lead_counters lead c = bump_messages (bump_processed c)
  \/ lead_counters lead c = bump_emails (bump_processed c).
Proof.
  unfold lead_counters.
  destruct (plan_lead lead) as [[p|]|] eqn:Hplan; [|by left|by right; left].
  destruct (plan_lead_action _ _ Hplan) as (days & Hrules%evaluate_cases & _).
  unfold count_action.
  destruct Hrules as [[-> ?]|[[-> ?]|[[-> ?]|[-> ?]]]]; cbn; auto.
Qed.

Lemma fold_counters leads c :
  let c' := fold_left (fun c lead => lead_counters lead c) leads c in
  messages_sent c' + emails_sent c' - leads_processed c'
  = messages_sent c + emails_sent c - leads_processed c
  /\ leads_processed c' + errors c'
     <= leads_processed c + errors c + Z.of_nat (length leads)
  /\ messages_sent c <= messages_sent c'
  /\ emails_sent c <= emails_sent c'
  /\ errors c <= errors c'.
Proof.
  revert c. induction leads as [|lead leads IH]; intros c; cbv zeta.
  { cbn [fold_left length]. lia. }
  cbn [fold_left]. specialize (IH (lead_counters lead c)). cbv zeta in IH.
  rewrite length_cons, Nat2Z.inj_succ.
  destruct (lead_counters_cases lead c) as [Hc|[Hc|[Hc|Hc]]];
    rewrite Hc in IH |- *; cbn in IH; lia.
Qed.

(** X9.  The counters [process_nurturing] returns add up, for every
    list of leads and whatever the delivery clients do: the run
    returns; every processed lead is counted once as a message or once
    as an email ([messages_sent + emails_sent = leads_processed]); and
    the processed leads and the errors together are at most the leads
    handed in. *)
Theorem nurturing_counters_add_up (leads : list dict) :
  let run := process_nurturing leads in
  let c := actions_taken (snd run) in
  fst run = Ok tt
  /\ messages_sent c + emails_sent c = leads_processed c
  /\ leads_processed c + errors c <= Z.of_nat (length leads)
  /\ 0 <= messages_sent c /\ 0 <= emails_sent c /\ 0 <= errors c.
Proof.
  cbv zeta. unfold process_nurturing.
  split; [apply process_leads_ok|].
  rewrite process_leads_counters.
  set (c0 := actions_taken initial).
  pose proof (fold_counters leads c0) as Hfold. cbv zeta in Hfold.
  assert (Hc0 : messages_sent c0 = 0 /\ emails_sent c0 = 0
                /\ leads_processed c0 = 0 /\ errors c0 = 0) by done.
  destruct Hc0 as (? & ? & ? & ?). lia.
Qed.

(** X10.  A lead is counted whether or not anything could be sent to
    it.  For a lead with neither a phone number nor an email address
    (absent, [None] or empty) that the rules select, the loop body
    makes no delivery attempt and prints nothing, and still counts the
    lead as processed and as one message or one email sent. *)
Theorem counted_without_an_address (lead : dict) (p : Plan) (st : State) :
  truthy (dict_get_or lead "phone" (JStr "")) = false ->
  truthy (dict_get_or lead "email" (JStr "")) = false ->
  plan_lead lead = Ok (Some p) ->
  let st' := snd (process_lead lead st) in
  events st' = events st
  /\ leads_processed (actions_taken st')
     = leads_processed (actions_taken st) + 1
  /\ messages_sent (actions_taken st') + emails_sent (actions_taken st')
     = messages_sent (actions_taken st) + emails_sent (actions_taken st) + 1.
Proof.
  intros Hphone Hemail Hplan. cbv zeta. rewrite process_lead_eq.
  cbn [snd events actions_taken]. unfold lead_events, lead_counters.
  rewrite Hplan.
  destruct (plan_lead_action _ _ Hplan) as (days & Hrules%evaluate_cases & Hp).
  assert (Hnone : p_by_whatsapp p = false /\ p_by_email p = false).
  { unfold plan_action in Hp.
    destruct (_generate_nurturing_message _ _); cbn [rbind] in Hp; [|done].
    unfold phone_ok in Hp. rewrite Hphone, Hemail, andb_false_r in Hp.
    destruct (channel_in _ _ _); cbn in Hp; by injection Hp as <-. }
  destruct Hnone as [Hw He].
  unfold delivery_events, whatsapp_events, email_events. rewrite Hw, He.
  cbn [app length]. rewrite app_nil_r. split; [done|].
  unfold count_action.
  destruct Hrules as [[-> ?]|[[-> ?]|[[-> ?]|[-> ?]]]]; cbn; lia.
Qed.

End Counters.

Lemma declared_rules_witness :
  exists rule,
    declared "cold_lead_reactivation" = Some rule
    /\ "email" = r_channel rule
    /\ r_delay_hours rule <= 24 * 999
    /\ ("email" = "whatsapp" \/ "email" = "email")
    /\ 1 <= 999.
Proof.
  apply (actions_respect_declared_rules ∅ 999 (JInt 10) (JInt 0)
           {| a_type := "cold_lead_reactivation"; a_channel := "email";
              a_template := "reactivation" |}).
  reflexivity.
Defined.

Lemma counted_without_an_address_witness :
  let st' := snd (@process_lead nothing_delivers unreachable_lead initial) in
  events st' = []
  /\ leads_processed (actions_taken st') = 0 + 1
  /\ messages_sent (actions_taken st') + emails_sent (actions_taken st')
     = 0 + 0 + 1.
Proof.
  destruct (@plan_lead nothing_delivers unreachable_lead) as [[p|]|] eqn:Hplan;
    [|discriminate Hplan|discriminate Hplan].
  apply (@counted_without_an_address nothing_delivers unreachable_lead p initial);
    [reflexivity|reflexivity|exact Hplan].
Defined.

End NurturingProofs.

(** ** tools/database.py: every operation returns *)
Module DatabaseProofs.
Import Database DatabaseSpec.

Section Adapter.
Context `{Client}.

(** A body under [try/except Exception] whose handler prints and
    returns a default never raises. *)
Lemma guarded_returns {A} (body : M Store A) (line : string) (dflt : A) st :
  exists a st', try_except body (fun _ => print line ;; ret dflt) st = (Ok a, st').
Proof.
  unfold try_except. destruct (body st) as [[a|e] st']; [by eauto|].
  unfold bind, print, modify, ret. by eauto.
Qed.

(** When the client fails, the request raises. *)
Lemma run_raises table v clauses st :
  client_fails st -> exists e st', run table v clauses st = (Raise e, st').
Proof.
  intros [Hclient|Hexec]; unfold run, bind, lift, get, record_query, modify.
  - destruct get_client; [done|by eauto].
  - destruct get_client; [|by eauto]. cbn [executed].
    match goal with |- context [execute ?n ?q] => specialize (Hexec q) end.
    destruct (execute _ _); [done|by eauto].
Qed.

Lemma guarded_row_fails table v clauses line st :
  client_fails st ->
  exists st',
    try_except (let* rows := run table v clauses in ret (first_row rows))
      (fun _ => print line ;; ret None) st = (Ok None, st').
Proof.
  intros Hf. destruct (run_raises table v clauses st Hf) as (e & st' & Hrun).
  unfold try_except, bind at 1. rewrite Hrun.
  unfold bind, print, modify, ret. by eauto.
Qed.

Lemma guarded_rows_fails table v clauses line st :
  client_fails st ->
  exists st',
    try_except (let* rows := run table v clauses in ret rows)
      (fun _ => print line ;; ret []) st = (Ok [], st').
Proof.
  intros Hf. destruct (run_raises table v clauses st Hf) as (e & st' & Hrun).
  unfold try_except, bind at 1. rewrite Hrun.
  unfold bind, print, modify, ret. by eauto.
Qed.

Lemma as_row_ok c st r st' :
  c st = (Ok r, st') -> as_row c st = (Ok (Row r), st').
Proof. intros Hc. unfold as_row, bind. by rewrite Hc. Qed.

Lemma as_rows_ok c st r st' :
  c st = (Ok r, st') -> as_rows c st = (Ok (Rows r), st').
Proof. intros Hc. unfold as_rows, bind. by rewrite Hc. Qed.

Lemma perform_returns op st : exists a st', perform op st = (Ok a, st').
Proof.
  destruct op; cbn [perform];
    match goal with
    | |- context [as_row ?c] =>
        let H := fresh in
        assert (H : exists a st', c st = (Ok a, st')) by apply guarded_returns;
        destruct H as (a & st' & H); exists (Row a), st'; by apply as_row_ok
    | |- context [as_rows ?c] =>
        let H := fresh in
        assert (H : exists a st', c st = (Ok a, st')) by apply guarded_returns;
        destruct H as (a & st' & H); exists (Rows a), st'; by apply as_rows_ok
    end.
Qed.

Lemma perform_fails op st :
  client_fails st -> exists st', perform op st = (Ok (nothing op), st').
Proof.
  intros Hf.
  destruct op; cbn [perform nothing];
    unfold get_lead_by_phone, get_lead_by_id, create_lead, update_lead,
      get_all_leads, get_active_leads, get_conversation_by_lead,
      upsert_conversation, create_appointment, get_appointments_by_lead,
      update_appointment, create_task, get_pending_tasks;
    try match goal with
        | |- context [if truthy ?v then run _ _ _ else _] => destruct (truthy v)
        end;
    first
      [ edestruct guarded_row_fails as (st' & Hr); [exact Hf|];
        exists st'; apply as_row_ok; exact Hr
      | edestruct guarded_rows_fails as (st' & Hr); [exact Hf|];
        exists st'; apply as_rows_ok; exact Hr ].
Qed.

(** What an operation answers, and the store it leaves. *)
Lemma perform_answer op st :
  exists a st', perform op st = (Ok a, st')
                /\ (client_fails st -> a = nothing op).
Proof.
  destruct (perform_returns op st) as (a & st' & Hp).
  exists a, st'. split; [done|]. intros Hf.
  destruct (perform_fails op st Hf) as (st'' & Hq). congruence.
Qed.

(** The request: nothing is sent without a client, and otherwise the
    request is sent and its outcome is that of the client. *)
Lemma run_eq table v clauses st :
  let q := {| q_table := table; q_verb := v; q_clauses := clauses |} in
  run table v clauses st
  = match get_client with
    | Ok _ =>
        (execute (length (executed st)) q,
         {| executed := executed st ++ [q]; printed := printed st |})
    | Raise e => (Raise e, st)
    end.
Proof.
  cbv zeta. unfold run, bind, lift, get, record_query, modify.
  destruct get_client; [|reflexivity]. cbn [executed].
  by destruct (execute _ _).
Qed.

Lemma guarded_row_eq table v clauses line st :
  let q := {| q_table := table; q_verb := v; q_clauses := clauses |} in
  exists st',
    try_except (let* rows := run table v clauses in ret (first_row rows))
      (fun _ => print line ;; ret None) st
    = (Ok (match get_client with
           | Ok _ =>
               match execute (length (executed st)) q with
               | Ok rows => first_row rows
               | Raise _ => None
               end
           | Raise _ => None
           end), st')
    /\ executed st'
       = if is_ok get_client then executed st ++ [q] else executed st.
Proof.
  cbv zeta. unfold try_except, bind at 1. rewrite run_eq.
  destruct get_client; cbn [is_ok].
  - destruct (execute _ _); unfold bind, print, modify, ret; by eauto.
  - unfold bind, print, modify, ret. by eauto.
Qed.

Lemma guarded_rows_eq table v clauses line st :
  let q := {| q_table := table; q_verb := v; q_clauses := clauses |} in
  exists st',
    try_except (let* rows := run table v clauses in ret rows)
      (fun _ => print line ;; ret []) st
    = (Ok (match get_client with
           | Ok _ =>
               match execute (length (executed st)) q with
               | Ok rows => rows
               | Raise _ => []
               end
           | Raise _ => []
           end), st')
    /\ executed st'
       = if is_ok get_client then executed st ++ [q] else executed st.
Proof.
  cbv zeta. unfold try_except, bind at 1. rewrite run_eq.
  destruct get_client; cbn [is_ok].
  - destruct (execute _ _); unfold bind, print, modify, ret; by eauto.
  - unfold bind, print, modify, ret. by eauto.
Qed.

(** Every operation sends its request, once, when there is a client,
    and answers by the outcome of that request. *)
Lemma perform_outcome op st :
  exists st',
    perform op st = (Ok (outcome op st), st')
    /\ executed st'
       = if is_ok get_client then executed st ++ [request op]
         else executed st.
Proof.
  destruct op; cbn [perform]; unfold outcome; cbn [request read nothing];
    unfold get_lead_by_phone, get_lead_by_id, create_lead, update_lead,
      get_all_leads, get_active_leads, get_conversation_by_lead,
      upsert_conversation, create_appointment, get_appointments_by_lead,
      update_appointment, create_task, get_pending_tasks;
    try match goal with
        | |- context [if truthy ?v then run _ _ _ else _] => destruct (truthy v)
        end;
    first
      [ edestruct guarded_row_eq as (st' & Hr & Hex);
        exists st'; split; [|exact Hex];
        erewrite as_row_ok by exact Hr;
        destruct get_client; [destruct (execute _ _)|]; reflexivity
      | edestruct guarded_rows_eq as (st' & Hr & Hex);
        exists st'; split; [|exact Hex];
        erewrite as_rows_ok by exact Hr;
        destruct get_client; [destruct (execute _ _)|]; reflexivity ].
Qed.

(** A failing client makes the outcome nothing. *)
Lemma outcome_fails op st : fails op st -> outcome op st = nothing op.
Proof.
  unfold fails, outcome. intros [Hclient|Hexec].
  - by destruct get_client.
  - destruct get_client; [|done]. by destruct (execute _ _).
Qed.

Lemma client_fails_fails op st : client_fails st -> fails op st.
Proof. intros [?|Hall]; [by left|right; apply Hall]. Qed.

End Adapter.
End DatabaseProofs.

(** ** tools/conversation_manager.py: the cache and its objects *)
Module ConversationProofs.
Import ConversationManager ConversationSpec.

Section Manager.
Context `{Database.Client} `{Runtime}.

(** [get_or_create_conversation] in one equation. *)
Lemma get_or_create_eq lead_id channel w :
  get_or_create_conversation lead_id channel w =
  match _active_conversations w !! cache_key lead_id channel with
  | Some r => (Ok r, w)
  | None =>
      let '(row, s) :=
        Database.get_conversation_by_lead (JStr lead_id)
          (JStr (ChannelType_value channel)) (store w) in
      match row with
      | Raise e => (Raise e, with_store s w)
      | Ok row =>
          match build lead_id channel row with
          | Raise e => (Raise e, with_store s w)
          | Ok c =>
              let r := fresh (dom (heap w)) in
              (Ok r,
               {| _active_conversations :=
                    <[cache_key lead_id channel := r]> (_active_conversations w);
                  heap := <[r := c]> (heap w); store := s; ticks := ticks w |})
          end
      end
  end.
Proof.
  unfold get_or_create_conversation. unfold bind at 1. unfold get at 1.
  destruct (_active_conversations w !! cache_key lead_id channel) as [r|]; [done|].
  unfold bind at 1. unfold in_store at 1.
  destruct (Database.get_conversation_by_lead _ _ (store w)) as [[row|e] s]; [|done].
  unfold build, with_store.
  unfold new, bind, lift, get, set_heap, set_cache, modify, ret.
  destruct row as [conv|]; [|done].
  destruct (truthy (JObj conv)); [|done].
  destruct (dict_item conv "id") as [id|]; cbn [rbind]; [|done].
  destruct (stored_messages conv); cbn [rbind]; [|done].
  destruct (validate_optional_str id); cbn [rbind]; [|done].
  destruct (validate_optional_str (dict_get conv "summary")); cbn [rbind]; [|done].
  destruct (validate_optional_datetime _); cbn [rbind]; done.
Qed.

Lemma upsert_returns id data s :
  exists res s', Database.upsert_conversation id data s = (Ok res, s').
Proof. apply DatabaseProofs.guarded_returns. Qed.

(** [add_message] once the conversation is at hand: the message is
    appended to the object, and the call returns it, whatever the
    store answers to the save. *)
Lemma add_message_eq lead_id role content channel w r w1 c :
  get_or_create_conversation lead_id channel w = (Ok r, w1) ->
  heap w1 !! r = Some c ->
  exists w2 c2,
    add_message lead_id role content channel w = (Ok r, w2)
    /\ _active_conversations w2 = _active_conversations w1
    /\ heap w2 = <[r := c2]> (heap w1)
    /\ conv_messages c2
       = conv_messages c
         ++ [{| msg_role := role; msg_content := content;
                msg_timestamp := clock (ticks w1);
                msg_channel := Some channel |}].
Proof.
  intros Hgoc Hc. unfold add_message. unfold bind at 1. rewrite Hgoc.
  unfold bind at 1. unfold now at 1.
  unfold bind at 1. unfold update_object at 1, set_heap, modify.
  cbn [heap _active_conversations store ticks]. rewrite Hc.
  unfold bind at 1. unfold now at 1. cbn [heap _active_conversations store ticks].
  unfold bind at 1. unfold update_object at 1, set_heap, modify.
  cbn [heap _active_conversations store ticks]. rewrite lookup_insert_eq.
  rewrite insert_insert_eq.
  unfold bind at 1. unfold _save_conversation.
  unfold bind at 1. unfold deref, bind at 1, get at 1.
  cbn [heap _active_conversations store ticks]. rewrite lookup_insert_eq.
  unfold ret at 1. unfold bind at 1. unfold now at 1.
  cbn [heap _active_conversations store ticks].
  unfold bind at 1. unfold in_store at 1.
  cbn [heap _active_conversations store ticks conv_id with_updated_at with_messages].
  match goal with
  | |- context [Database.upsert_conversation ?i ?d ?s] =>
      destruct (upsert_returns i d s) as (res & s' & ->)
  end.
  destruct res as [row|].
  - destruct (truthy (JObj row) && negb (truthy (conv_id c))).
    + unfold update_object, set_heap, modify, ret.
      cbn [heap _active_conversations store ticks]. rewrite lookup_insert_eq.
      rewrite insert_insert_eq. eexists _, _. split; [reflexivity|].
      cbn [heap _active_conversations]. repeat split; reflexivity.
    + unfold ret. eexists _, _. split; [reflexivity|].
      cbn [heap _active_conversations]. repeat split; reflexivity.
  - unfold ret. eexists _, _. split; [reflexivity|].
    cbn [heap _active_conversations]. repeat split; reflexivity.
Qed.

Lemma grows_refl w : grows w w.
Proof. split; [done|]. intros r c Hc. by exists c. Qed.

Lemma grows_trans w1 w2 w3 : grows w1 w2 -> grows w2 w3 -> grows w1 w3.
Proof.
  intros [Hc12 Hh12] [Hc23 Hh23]. split; [by auto|].
  intros r c Hc. destruct (Hh12 r c Hc) as (c2 & Hc2 & Hp2).
  destruct (Hh23 r c2 Hc2) as (c3 & Hc3 & Hp3).
  exists c3. split; [done|]. by etransitivity.
Qed.

Lemma with_store_well_formed s w : well_formed w -> well_formed (with_store s w).
Proof. by intros [??]. Qed.

Lemma with_store_grows s w : grows w (with_store s w).
Proof. split; [done|]. intros r c Hc. by exists c. Qed.

(** A new object under a key that was not cached. *)
Lemma caching_new_object w key c s t :
  well_formed w -> _active_conversations w !! key = None ->
  let r := fresh (dom (heap w)) in
  let w' := {| _active_conversations := <[key := r]> (_active_conversations w);
               heap := <[r := c]> (heap w); store := s; ticks := t |} in
  well_formed w' /\ grows w w'.
Proof.
  intros [Hlive Hinj] Hkey r w'.
  assert (Hfresh : heap w !! r = None).
  { apply not_elem_of_dom. apply is_fresh. }
  assert (Hnotcached : forall k, _active_conversations w !! k <> Some r).
  { intros k Hk. destruct (Hlive k r Hk) as [c' Hc']. congruence. }
  subst w'. unfold well_formed, grows. cbn [_active_conversations heap].
  split; [split|split].
  - intros k r' Hk. destruct (decide (k = key)) as [->|Hne].
    + rewrite lookup_insert_eq in Hk. injection Hk as <-.
      rewrite lookup_insert_eq. by eexists.
    + rewrite lookup_insert_ne in Hk by done.
      destruct (Hlive k r' Hk) as [c' Hc'].
      rewrite lookup_insert_ne by congruence. by eexists.
  - intros k1 k2 r' H1 H2.
    destruct (decide (k1 = key)) as [->|Hne1], (decide (k2 = key)) as [->|Hne2];
      [done| | |].
    + rewrite lookup_insert_eq in H1. injection H1 as <-.
      rewrite lookup_insert_ne in H2 by done. by destruct (Hnotcached k2).
    + rewrite lookup_insert_eq in H2. injection H2 as <-.
      rewrite lookup_insert_ne in H1 by done. by destruct (Hnotcached k1).
    + rewrite lookup_insert_ne in H1, H2 by done. by eapply Hinj.
  - intros k r' Hk. rewrite lookup_insert_ne; [done|congruence].
  - intros r' c' Hc'. exists c'. split; [|done].
    rewrite lookup_insert_ne; [done|congruence].
Qed.

Lemma get_or_create_step lead_id channel w :
  well_formed w ->
  let w' := snd (get_or_create_conversation lead_id channel w) in
  well_formed w' /\ grows w w'.
Proof.
  intros Hwf. cbv zeta. rewrite get_or_create_eq.
  destruct (_active_conversations w !! cache_key lead_id channel) as [r|] eqn:Hkey.
  { split; [done|apply grows_refl]. }
  destruct (Database.get_conversation_by_lead _ _ _) as [[row|e] s].
  2:{ split; [by apply with_store_well_formed|apply with_store_grows]. }
  destruct (build lead_id channel row) as [c|e].
  2:{ split; [by apply with_store_well_formed|apply with_store_grows]. }
  by apply caching_new_object.
Qed.

(** What is returned is cached under the key of the pair, and alive. *)
Lemma get_or_create_cached lead_id channel w r w1 :
  well_formed w ->
  get_or_create_conversation lead_id channel w = (Ok r, w1) ->
  _active_conversations w1 !! cache_key lead_id channel = Some r
  /\ is_Some (heap w1 !! r).
Proof.
  intros [Hlive _]. rewrite get_or_create_eq.
  destruct (_active_conversations w !! cache_key lead_id channel) as [r'|] eqn:Hkey.
  { intros [= <- <-]. split; [done|by eapply Hlive]. }
  destruct (Database.get_conversation_by_lead _ _ _) as [[row|e] s]; [|done].
  destruct (build lead_id channel row) as [c|e]; [|done].
  intros [= <- <-]. cbn [_active_conversations heap].
  rewrite !lookup_insert_eq. split; [done|by eexists].
Qed.

(** A cached pair is answered from the cache: the same reference, and
    the process (its store trace included) as it was. *)
Lemma get_or_create_hit lead_id channel w r :
  _active_conversations w !! cache_key lead_id channel = Some r ->
  get_or_create_conversation lead_id channel w = (Ok r, w).
Proof. intros Hkey. by rewrite get_or_create_eq, Hkey. Qed.

Lemma updating_object w w2 r c c2 :
  well_formed w -> heap w !! r = Some c ->
  _active_conversations w2 = _active_conversations w ->
  heap w2 = <[r := c2]> (heap w) ->
  conv_messages c `prefix_of` conv_messages c2 ->
  well_formed w2 /\ grows w w2.
Proof.
  intros [Hlive Hinj] Hc Hcache Hheap Hpre. split; [split|split].
  - intros k r' Hk. rewrite Hcache in Hk. rewrite Hheap.
    destruct (decide (r' = r)) as [->|Hne].
    + rewrite lookup_insert_eq. by eexists.
    + rewrite lookup_insert_ne by done. by eapply Hlive.
  - intros k1 k2 r'. rewrite Hcache. apply Hinj.
  - intros k r'. by rewrite Hcache.
  - intros r' c' Hc'. rewrite Hheap.
    destruct (decide (r' = r)) as [->|Hne].
    + rewrite lookup_insert_eq. exists c2. split; [done|]. congruence.
    + rewrite lookup_insert_ne by done. exists c'. by split.
Qed.

Lemma add_message_raises lead_id role content channel w e w1 :
  get_or_create_conversation lead_id channel w = (Raise e, w1) ->
  add_message lead_id role content channel w = (Raise e, w1).
Proof. intros Hgoc. unfold add_message, bind at 1. by rewrite Hgoc. Qed.

Lemma add_message_step lead_id role content channel w :
  well_formed w ->
  let w' := snd (add_message lead_id role content channel w) in
  well_formed w' /\ grows w w'.
Proof.
  intros Hwf. cbv zeta.
  pose proof (get_or_create_step lead_id channel w Hwf) as Hstep. cbv zeta in Hstep.
  destruct (get_or_create_conversation lead_id channel w) as [[r|e] w1] eqn:Hgoc;
    cbn [snd] in Hstep; destruct Hstep as [Hwf1 Hg1].
  2:{ by rewrite (add_message_raises _ _ _ _ _ _ _ Hgoc). }
  destruct (get_or_create_cached _ _ _ _ _ Hwf Hgoc) as [_ [c Hc]].
  destruct (add_message_eq _ role content _ _ _ _ _ Hgoc Hc)
    as (w2 & c2 & -> & Hcache & Hheap & Hmsgs). cbn [snd].
  destruct (updating_object w1 w2 r c c2 Hwf1 Hc Hcache Hheap) as [Hwf2 Hg2].
  { rewrite Hmsgs. by apply prefix_app_r. }
  split; [done|]. by eapply grows_trans.
Qed.

Lemma do_call_step c w :
  well_formed w -> well_formed (do_call c w) /\ grows w (do_call c w).
Proof.
  intros Hwf. destruct c; cbn [do_call].
  - by apply get_or_create_step.
  - by apply add_message_step.
Qed.

Lemma do_calls_step cs w :
  well_formed w -> well_formed (do_calls cs w) /\ grows w (do_calls cs w).
Proof.
  revert w. induction cs as [|c cs IH]; intros w Hwf.
  { split; [done|apply grows_refl]. }
  cbn [do_calls fold_left]. fold (do_calls cs (do_call c w)).
  destruct (do_call_step c w Hwf) as [Hwf1 Hg1].
  destruct (IH _ Hwf1) as [Hwf2 Hg2]. split; [done|]. by eapply grows_trans.
Qed.

Lemma start_well_formed : well_formed start.
Proof.
  split; [intros k r Hk|intros k1 k2 r Hk _]; cbn in Hk;
    by rewrite lookup_empty in Hk.
Qed.

Lemma clear_cache_well_formed lead_id w :
  well_formed w -> well_formed (snd (clear_cache lead_id w)).
Proof.
  intros [Hlive Hinj].
  assert (Hempty : well_formed
            {| _active_conversations := ∅; heap := heap w; store := store w;
               ticks := ticks w |}).
  { split; [intros k r Hk|intros k1 k2 r Hk _]; cbn in Hk;
      by rewrite lookup_empty in Hk. }
  destruct lead_id as [lead_id|]; cbn [clear_cache]; [|exact Hempty].
  destruct (truthy (JStr lead_id)); [|exact Hempty].
  unfold set_cache, modify. cbn [snd]. split; cbn [_active_conversations heap].
  - intros k r [Hk _]%map_lookup_filter_Some. by eapply Hlive.
  - intros k1 k2 r [H1 _]%map_lookup_filter_Some [H2 _]%map_lookup_filter_Some.
    by eapply Hinj.
Qed.

Lemma do_step_well_formed s w : well_formed w -> well_formed (do_step s w).
Proof.
  intros Hwf. destruct s; cbn [do_step].
  - by apply do_call_step.
  - by apply clear_cache_well_formed.
Qed.

(** Every state the process reaches is well formed. *)
Lemma reachable_well_formed w : reachable w -> well_formed w.
Proof.
  intros [steps ->].
  assert (Hgen : forall w0, well_formed w0 ->
            well_formed (fold_left (fun w s => do_step s w) steps w0)).
  { induction steps as [|s steps IH]; intros w0 Hw0; [done|].
    cbn [fold_left]. by apply IH, do_step_well_formed. }
  apply Hgen, start_well_formed.
Qed.

Lemma start_reachable : reachable start.
Proof. by exists []. Qed.

Lemma append_inv_head (a b c : string) :
  (a ++ b)%string = (a ++ c)%string -> b = c.
Proof. induction a as [|x a IH]; cbn; [done|]. intros [= Heq]. by apply IH. Qed.

Lemma ChannelType_value_inj c1 c2 :
  ChannelType_value c1 = ChannelType_value c2 -> c1 = c2.
Proof. destruct c1, c2; cbn; intros Heq; first [reflexivity | discriminate Heq]. Qed.

(** One lead, two channels: two keys. *)
Lemma cache_key_inj lead_id c1 c2 :
  cache_key lead_id c1 = cache_key lead_id c2 -> c1 = c2.
Proof.
  unfold cache_key. intros Heq%append_inv_head.
  injection Heq as Heq. by apply ChannelType_value_inj.
Qed.

Lemma messages_of_lookup w r c :
  heap w !! r = Some c -> messages_of w r = conv_messages c.
Proof. intros Hc. unfold messages_of. by rewrite Hc. Qed.

(** [add_message] on a well-formed process, once the conversation is
    at hand. *)
Lemma add_message_appends lead_id role content channel w r w1 :
  well_formed w ->
  get_or_create_conversation lead_id channel w = (Ok r, w1) ->
  exists w2 m,
    add_message lead_id role content channel w = (Ok r, w2)
    /\ msg_role m = role /\ msg_content m = content
    /\ messages_of w2 r = messages_of w1 r ++ [m].
Proof.
  intros Hwf Hgoc.
  destruct (get_or_create_cached _ _ _ _ _ Hwf Hgoc) as [_ [c Hc]].
  destruct (add_message_eq _ role content _ _ _ _ _ Hgoc Hc)
    as (w2 & c2 & Hadd & _ & Hheap & Hmsgs).
  exists w2, {| msg_role := role; msg_content := content;
                msg_timestamp := clock (ticks w1);
                msg_channel := Some channel |}.
  split; [exact Hadd|]. split; [reflexivity|]. split; [reflexivity|].
  rewrite (messages_of_lookup w1 r c Hc).
  rewrite (messages_of_lookup w2 r c2); [exact Hmsgs|].
  rewrite Hheap. apply lookup_insert_eq.
Qed.

(** With a client that fails, the lookup finds nothing and a new
    conversation is made. *)
Lemma get_or_create_without_store lead_id channel w :
  (forall st, DatabaseSpec.client_fails st) ->
  exists r w1, get_or_create_conversation lead_id channel w = (Ok r, w1).
Proof.
  intros Hfail. rewrite get_or_create_eq.
  destruct (_active_conversations w !! cache_key lead_id channel) as [r|];
    [by eauto|].
  unfold Database.get_conversation_by_lead.
  edestruct DatabaseProofs.guarded_row_fails as (st' & ->); [apply Hfail|].
  cbn [build]. by eauto.
Qed.
End Manager.

Section Claims.
Context `{Database.Client} `{Runtime}.

(** C9.  Every lead, conversation, appointment and task operation of
    the store adapter returns on every input and every state of the
    client.  It sends one request when there is a client and none
    otherwise, and what it returns is decided by that request alone:
    when there is no client, or the request of the operation raises
    (whatever the client does with other requests), it returns [None],
    or the empty list for the operations that return lists; when the
    request returns, it returns what it reads in the rows.
    Consequently [add_message], once it has its conversation, appends
    the message to the object in memory and returns it whatever the
    save does; and with a client that fails at every call it still
    returns, the message appended. *)
Theorem store_failures_are_absorbed :
  (forall op st,
     exists a st',
       DatabaseSpec.perform op st = (Ok a, st')
       /\ (DatabaseSpec.fails op st -> a = DatabaseSpec.nothing op)
       /\ a = DatabaseSpec.outcome op st
       /\ Database.executed st'
          = if is_ok Database.get_client
            then Database.executed st ++ [DatabaseSpec.request op]
            else Database.executed st)
  /\ (forall lead_id role content channel w r w1,
        reachable w ->
        get_or_create_conversation lead_id channel w = (Ok r, w1) ->
        exists w2 m,
          add_message lead_id role content channel w = (Ok r, w2)
          /\ msg_role m = role /\ msg_content m = content
          /\ messages_of w2 r = messages_of w1 r ++ [m])
  /\ (forall lead_id role content channel w,
        reachable w ->
        (forall st, DatabaseSpec.client_fails st) ->
        exists r w2 m,
          add_message lead_id role content channel w = (Ok r, w2)
          /\ msg_role m = role /\ msg_content m = content
          /\ last (messages_of w2 r) = Some m).
Proof.
  split; [|split].
  - intros op st.
    destruct (DatabaseProofs.perform_outcome op st) as (st' & Hp & Hex).
    exists (DatabaseSpec.outcome op st), st'. split; [exact Hp|].
    split; [apply DatabaseProofs.outcome_fails|]. by split.
  - intros * Hreach. by apply add_message_appends, reachable_well_formed.
  - intros lead_id role content channel w Hwf%reachable_well_formed Hfail.
    destruct (get_or_create_without_store lead_id channel w Hfail) as (r & w1 & Hgoc).
    destruct (add_message_appends _ role content _ _ _ _ Hwf Hgoc)
      as (w2 & m & Hadd & Hrole & Hcontent & Hmsgs).
    exists r, w2, m. repeat split; try done.
    rewrite Hmsgs. apply last_snoc.
Qed.

(** C10.  In every state the process reaches, once
    [get_or_create_conversation] has returned a conversation for a pair, the cache maps the key of the pair to that object;
    after any further calls of [get_or_create_conversation] and
    [add_message] (no [clear_cache] among them) a call for the same
    pair returns the same object and leaves the process, the trace of
    the store included, as it was; a message appended with
    [add_message] is in the object every later read returns; and the
    same lead on another channel has another key and another object. *)
Theorem cache_returns_the_same_object (lead_id : string)
    (channel : ChannelType) (w : World) (r : ref) (w1 : World) :
  reachable w ->
  get_or_create_conversation lead_id channel w = (Ok r, w1) ->
  _active_conversations w1 !! cache_key lead_id channel = Some r
  /\ (forall cs,
        let w2 := do_calls cs w1 in
        get_or_create_conversation lead_id channel w2 = (Ok r, w2))
  /\ (forall role content cs,
        let w2 := snd (add_message lead_id role content channel w1) in
        let w3 := do_calls cs w2 in
        exists m, msg_role m = role /\ msg_content m = content
                  /\ (messages_of w1 r ++ [m]) `prefix_of` messages_of w3 r)
  /\ (forall channel' r' w',
        channel' <> channel ->
        get_or_create_conversation lead_id channel' w1 = (Ok r', w') ->
        cache_key lead_id channel' <> cache_key lead_id channel /\ r' <> r).
Proof.
  intros Hwf%reachable_well_formed Hgoc.
  destruct (get_or_create_cached _ _ _ _ _ Hwf Hgoc) as [Hkey [c Hc]].
  pose proof (get_or_create_step lead_id channel w Hwf) as [Hwf1 _].
  rewrite Hgoc in Hwf1. cbn [snd] in Hwf1.
  split; [exact Hkey|]. split; [|split].
  - intros cs w2. subst w2.
    destruct (do_calls_step cs w1 Hwf1) as [_ [Hcache _]].
    apply get_or_create_hit. by apply Hcache.
  - intros role content cs w2 w3.
    pose proof (get_or_create_hit lead_id channel w1 r Hkey) as Hhit.
    destruct (add_message_appends _ role content _ _ _ _ Hwf1 Hhit)
      as (w2' & m & Hadd & Hrole & Hcontent & Hmsgs).
    pose proof (add_message_step lead_id role content channel w1 Hwf1) as [Hwf2 _].
    assert (Hw2 : w2 = w2') by (subst w2; by rewrite Hadd). fold w2 in Hwf2.
    destruct (do_calls_step cs w2 Hwf2) as [_ [_ Hheap]]. fold w3 in Hheap.
    exists m. split; [done|]. split; [done|].
    rewrite <- Hmsgs, <- Hw2.
    destruct (heap w2 !! r) as [c2|] eqn:Hc2.
    + destruct (Hheap r c2 Hc2) as (c3 & Hc3 & Hpre).
      by rewrite (messages_of_lookup _ _ _ Hc2), (messages_of_lookup _ _ _ Hc3).
    + unfold messages_of at 1. rewrite Hc2. apply prefix_nil.
  - intros channel' r' w' Hne Hgoc'.
    assert (Hkeys : cache_key lead_id channel' <> cache_key lead_id channel).
    { intros Heq. by apply Hne, (cache_key_inj lead_id). }
    split; [exact Hkeys|]. intros ->.
    destruct (get_or_create_cached _ _ _ _ _ Hwf1 Hgoc') as [Hkey' _].
    pose proof (get_or_create_step lead_id channel' w1 Hwf1) as [[_ Hinj] [Hcache _]].
    rewrite Hgoc' in Hinj, Hcache. cbn [snd] in Hinj, Hcache.
    apply Hkeys. eapply Hinj; [exact Hkey'|]. by apply Hcache.
Qed.

End Claims.

(** C9 at work.  With a store that can be read and not written,
    [create_task] returns [None] after its one request, although the
    client answers other requests; and with a client whose every
    request fails, the first message of a lead is appended and
    returned. *)
Lemma store_failures_witness :
  (exists st,
     @DatabaseSpec.perform DatabaseSpec.read_only
       (DatabaseSpec.CreateTask ∅) DatabaseSpec.fresh_store
     = (Ok (DatabaseSpec.Row None), st)
     /\ Database.executed st
        = [DatabaseSpec.request (DatabaseSpec.CreateTask ∅)])
  /\ exists r w2 m,
      @add_message DatabaseSpec.unreachable plain_runtime
        "lead-1" "user" "hola" WHATSAPP start = (Ok r, w2)
      /\ msg_role m = "user" /\ msg_content m = "hola"
      /\ last (messages_of w2 r) = Some m.
Proof.
  split.
  - destruct (@store_failures_are_absorbed DatabaseSpec.read_only plain_runtime)
      as (Hop & _ & _).
    destruct (Hop (DatabaseSpec.CreateTask ∅) DatabaseSpec.fresh_store)
      as (a & st & Hp & Hfails & _ & Hex).
    exists st. rewrite (Hfails (or_intror eq_refl)) in Hp.
    split; [exact Hp|exact Hex].
  - destruct (@store_failures_are_absorbed DatabaseSpec.unreachable plain_runtime)
      as (_ & _ & Hadd).
    apply Hadd.
    + apply start_reachable.
    + intros st. right. intros q. reflexivity.
Defined.

(** The read-only client does answer: reading the active leads
    returns, and the client does not fail every request. *)
Lemma read_only_client_answers :
  (exists st,
     @DatabaseSpec.perform DatabaseSpec.read_only
       DatabaseSpec.GetActiveLeads DatabaseSpec.fresh_store
     = (Ok (DatabaseSpec.Rows []), st))
  /\ ~ @DatabaseSpec.client_fails DatabaseSpec.read_only DatabaseSpec.fresh_store.
Proof.
  split.
  - eexists. vm_compute. reflexivity.
  - intros [Hclient|Hall]; [discriminate|].
    specialize (Hall {| Database.q_table := "leads";
                        Database.q_verb := Database.select "*";
                        Database.q_clauses := [] |}).
    discriminate.
Qed.

(** C10 at work: the first conversation of the process is cached under
    its key. *)
Lemma cache_witness :
  let run :=
    @get_or_create_conversation DatabaseSpec.unreachable plain_runtime
      "lead-1" WHATSAPP start in
  _active_conversations (snd run) !! cache_key "lead-1" WHATSAPP = Some 1%positive.
Proof.
  cbv zeta.
  refine (proj1 (@cache_returns_the_same_object DatabaseSpec.unreachable
                   plain_runtime "lead-1" WHATSAPP start 1%positive _
                   start_reachable _)).
  vm_compute. reflexivity.
Defined.

(** *** The context window *)

Lemma last_drop_lt {A} (l : list A) n :
  (n < length l)%nat -> last (drop n l) = last l.
Proof.
  revert n. induction l as [|x l IH]; intros n Hn; cbn [length] in Hn; [lia|].
  destruct n as [|n]; [done|]. cbn [drop]. rewrite IH by lia.
  destruct l; [cbn in Hn; lia|done].
Qed.

Lemma last_map {A B} (f : A -> B) (l : list A) :
  last (map f l) = option_map f (last l).
Proof.
  induction l as [|x l IH]; [done|]. destruct l; [done|].
  cbn [map] in *. by rewrite !last_cons_cons.
Qed.

Lemma context_is_the_last (ms : list Message) :
  map in_context (drop (length ms - 20) ms) `suffix_of` map in_context ms
  /\ last (map in_context (drop (length ms - 20) ms)) = last (map in_context ms).
Proof.
  rewrite <- skipn_map. split; [apply suffix_drop|].
  destruct ms as [|m ms']; [done|].
  apply last_drop_lt. cbn [map length]. rewrite length_map. lia.
Qed.

(** X11.  [get_context_messages] gives the role and content of the
    last 20 messages of the conversation, oldest first: as many
    entries as the conversation has messages, up to 20; a suffix of
    the whole history; ending with the latest message. *)
Theorem context_is_the_last_twenty (c : Conversation) :
  let context := get_context_messages c in
  let history := map in_context (conv_messages c) in
  length context = Nat.min (length (conv_messages c)) 20
  /\ context `suffix_of` history
  /\ last context = last history.
Proof.
  cbv zeta. unfold get_context_messages, MAX_CONTEXT_MESSAGES.
  fold in_context. set (ms := conv_messages c).
  destruct (context_is_the_last ms) as [Hsuffix Hlast]. repeat split.
  - rewrite length_map, length_drop. lia.
  - exact Hsuffix.
  - exact Hlast.
Qed.

(** *** Clearing the cache *)

Lemma prefix_append (a b : string) : String.prefix a (a ++ b) = true.
Proof.
  induction a as [|x a IH]; [by destruct b|].
  change (String.prefix (String x a) (String x (a ++ b)) = true). simpl.
  destruct (Ascii.ascii_dec x x); [exact IH|contradiction].
Qed.

Lemma append_assoc (a b c : string) :
  ((a ++ b) ++ c)%string = (a ++ (b ++ c))%string.
Proof.
  induction a as [|x a IH]; [reflexivity|].
  change (String x ((a ++ b) ++ c) = String x (a ++ (b ++ c)))%string.
  by rewrite IH.
Qed.

(** X12.  [clear_cache] removes from the cache the keys it is asked
    to and leaves the rest, the objects and the store as they were:
    with [None] or an empty id every key goes; with a lead id, the
    keys that start with it, which are the lead's key on every channel
    and also every key of any other lead whose id starts with the
    same characters. *)
Theorem clear_cache_drops_prefixed_keys (lead_id : option string) (w : World)
    (key : string) :
  let run := clear_cache lead_id w in
  fst run = Ok tt
  /\ heap (snd run) = heap w /\ store (snd run) = store w
  /\ _active_conversations (snd run) !! key
     = (if clears lead_id key then None else _active_conversations w !! key)
  /\ forall lead rest channel,
       clears (Some lead) (cache_key (lead ++ rest) channel) = true.
Proof.
  cbv zeta. split; [|split; [|split; [|split]]].
  - destruct lead_id as [l|]; cbn [clear_cache]; [|done]. by destruct (truthy (JStr l)).
  - destruct lead_id as [l|]; cbn [clear_cache]; [|done]. by destruct (truthy (JStr l)).
  - destruct lead_id as [l|]; cbn [clear_cache]; [|done]. by destruct (truthy (JStr l)).
  - destruct lead_id as [l|]; cbn [clear_cache clears]; [|apply lookup_empty].
    destruct (truthy (JStr l)); cbn [negb orb]; [|apply lookup_empty].
    unfold set_cache, modify. cbn [snd _active_conversations].
    destruct (startswith key l) eqn:Hstart.
    + apply map_lookup_filter_None. right. intros r _. cbn [fst]. by rewrite Hstart.
    + destruct (_active_conversations w !! key) as [r|] eqn:Hkey.
      * apply map_lookup_filter_Some. split; [done|]. by cbn [fst].
      * apply map_lookup_filter_None. by left.
  - intros lead rest channel. cbn [clears]. unfold startswith, cache_key.
    by rewrite append_assoc, prefix_append, orb_true_r.
Qed.

Section Cleared.
Context `{Database.Client} `{Runtime}.

Lemma clear_cache_lead lead_id channel w :
  lead_id <> "" ->
  let w1 := snd (clear_cache (Some lead_id) w) in
  _active_conversations w1 !! cache_key lead_id channel = None
  /\ heap w1 = heap w /\ store w1 = store w /\ ticks w1 = ticks w.
Proof.
  intros Hne. cbv zeta. cbn [clear_cache].
  assert (Htruthy : truthy (JStr lead_id) = true).
  { cbn. by destruct lead_id. }
  rewrite Htruthy. unfold set_cache, modify.
  cbn [snd _active_conversations heap store ticks]. repeat split.
  apply map_lookup_filter_None. right. intros r _. cbn [fst].
  unfold startswith, cache_key. by rewrite prefix_append.
Qed.

(** X13.  After [clear_cache(lead_id)] the lead's conversation is read
    from the store again.  Whenever the next
    [get_or_create_conversation] for the lead returns, it returns an
    object that did not exist before, built from the row the store
    adapter answers now; the object that was cached before is not
    consulted. *)
Theorem cleared_conversation_is_read_again (lead_id : string)
    (channel : ChannelType) (w : World) (r : ref) (w2 : World) :
  lead_id <> "" ->
  get_or_create_conversation lead_id channel
    (snd (clear_cache (Some lead_id) w)) = (Ok r, w2) ->
  heap w !! r = None
  /\ exists row c,
       Database.get_conversation_by_lead (JStr lead_id)
         (JStr (ChannelType_value channel)) (store w) = (Ok row, store w2)
       /\ build lead_id channel row = Ok c
       /\ heap w2 !! r = Some c
       /\ _active_conversations w2 !! cache_key lead_id channel = Some r.
Proof.
  intros Hne.
  destruct (clear_cache_lead lead_id channel w Hne) as (Hkey & Hheap & Hstore & _).
  rewrite get_or_create_eq, Hkey, Hstore, Hheap.
  destruct (Database.get_conversation_by_lead _ _ _) as [[row|e] s]; [|done].
  destruct (build lead_id channel row) as [c|e] eqn:Hbuild; [|done].
  intros [= <- <-]. cbn [heap store _active_conversations]. split.
  - apply not_elem_of_dom, is_fresh.
  - exists row, c. by rewrite !lookup_insert_eq.
Qed.

(** X14.  Messages that only reached the memory are lost with the
    cache.  With a store client that fails, [add_message] appends the
    message to the cached object; once [clear_cache(lead_id)] has run,
    the next [get_or_create_conversation] for the lead returns another
    object, with no message in it. *)
Theorem clearing_forgets_unsaved_messages (lead_id role content : string)
    (channel : ChannelType) (w : World) :
  reachable w -> lead_id <> "" ->
  (forall st, DatabaseSpec.client_fails st) ->
  let added := add_message lead_id role content channel w in
  let w2 := snd (clear_cache (Some lead_id) (snd added)) in
  exists r m r' w3,
    fst added = Ok r
    /\ last (messages_of (snd added) r) = Some m
    /\ msg_role m = role /\ msg_content m = content
    /\ get_or_create_conversation lead_id channel w2 = (Ok r', w3)
    /\ r' <> r
    /\ messages_of w3 r' = [].
Proof.
  intros Hwf%reachable_well_formed Hne Hfail. cbv zeta.
  destruct (get_or_create_without_store lead_id channel w Hfail) as (r & w1 & Hgoc).
  destruct (get_or_create_cached _ _ _ _ _ Hwf Hgoc) as [_ [c Hc]].
  destruct (add_message_eq _ role content _ _ _ _ _ Hgoc Hc)
    as (wa & c2 & Hadd & _ & Hheap & Hmsgs).
  rewrite Hadd. cbn [fst snd].
  destruct (clear_cache_lead lead_id channel wa Hne) as (Hkey & Hheap' & Hstore & _).
  set (w2 := snd (clear_cache (Some lead_id) wa)) in *.
  assert (Hr : heap w2 !! r = Some c2).
  { rewrite Hheap', Hheap. apply lookup_insert_eq. }
  exists r, {| msg_role := role; msg_content := content;
               msg_timestamp := clock (ticks w1);
               msg_channel := Some channel |}.
  exists (fresh (dom (heap w2))).
  rewrite get_or_create_eq, Hkey.
  unfold Database.get_conversation_by_lead.
  edestruct DatabaseProofs.guarded_row_fails as (st' & ->); [apply Hfail|].
  cbn [build]. eexists. repeat split.
  - rewrite (messages_of_lookup wa r c2) by (rewrite Hheap; apply lookup_insert_eq).
    rewrite Hmsgs. apply last_snoc.
  - intros Heq. pose proof (is_fresh (dom (heap w2))) as Hfresh.
    rewrite Heq in Hfresh. apply Hfresh, elem_of_dom. by eexists.
  - unfold messages_of. cbn [heap]. by rewrite lookup_insert_eq.
Qed.

(** X15.  The message [add_message] was given is the last one of the
    context the next reply is generated from: whenever [add_message]
    returns, in a state the process can reach, the object it returns
    is alive and the last entry of its context window is the role and
    the content just added. *)
Theorem added_message_is_last_in_context (lead_id role content : string)
    (channel : ChannelType) (w : World) (r : ref) (w1 : World) :
  reachable w ->
  add_message lead_id role content channel w = (Ok r, w1) ->
  exists c,
    heap w1 !! r = Some c
    /\ last (get_context_messages c) = Some (role, content)
    /\ _active_conversations w1 !! cache_key lead_id channel = Some r.
Proof.
  intros Hwf%reachable_well_formed Hadd.
  destruct (get_or_create_conversation lead_id channel w) as [[r0|e] w0] eqn:Hgoc.
  2:{ by rewrite (add_message_raises _ _ _ _ _ _ _ Hgoc) in Hadd. }
  destruct (get_or_create_cached _ _ _ _ _ Hwf Hgoc) as [Hkey [c Hc]].
  destruct (add_message_eq _ role content _ _ _ _ _ Hgoc Hc)
    as (wa & c2 & Hadd' & Hcache & Hheap & Hmsgs).
  rewrite Hadd' in Hadd. injection Hadd as <- <-.
  exists c2. split; [rewrite Hheap; apply lookup_insert_eq|]. split.
  - unfold get_context_messages, MAX_CONTEXT_MESSAGES. fold in_context.
    destruct (context_is_the_last (conv_messages c2)) as [_ ->].
    rewrite Hmsgs, map_app. cbn [map]. by rewrite last_snoc.
  - by rewrite Hcache.
Qed.

End Cleared.

Lemma cleared_conversation_witness :
  heap (@ConversationManager.start) !! 1%positive = None
  /\ exists row c,
       @Database.get_conversation_by_lead DatabaseSpec.unreachable
         (JStr "lead-1") (JStr (ChannelType_value WHATSAPP))
         (store start) = (Ok row, store
           (snd (@get_or_create_conversation DatabaseSpec.unreachable
                   plain_runtime "lead-1" WHATSAPP
                   (snd (clear_cache (Some "lead-1") start)))))
       /\ @build plain_runtime "lead-1" WHATSAPP row = Ok c
       /\ heap (snd (@get_or_create_conversation DatabaseSpec.unreachable
                   plain_runtime "lead-1" WHATSAPP
                   (snd (clear_cache (Some "lead-1") start)))) !! 1%positive
          = Some c
       /\ _active_conversations
            (snd (@get_or_create_conversation DatabaseSpec.unreachable
                   plain_runtime "lead-1" WHATSAPP
                   (snd (clear_cache (Some "lead-1") start))))
          !! cache_key "lead-1" WHATSAPP = Some 1%positive.
Proof.
  apply (@cleared_conversation_is_read_again DatabaseSpec.unreachable
           plain_runtime "lead-1" WHATSAPP start 1%positive).
  - discriminate.
  - vm_compute. reflexivity.
Defined.

Lemma clearing_forgets_witness :
  let added :=
    @add_message DatabaseSpec.unreachable plain_runtime
      "lead-1" "user" "hola" WHATSAPP start in
  let w2 := snd (clear_cache (Some "lead-1") (snd added)) in
  exists r m r' w3,
    fst added = Ok r
    /\ last (messages_of (snd added) r) = Some m
    /\ msg_role m = "user" /\ msg_content m = "hola"
    /\ @get_or_create_conversation DatabaseSpec.unreachable plain_runtime
         "lead-1" WHATSAPP w2 = (Ok r', w3)
    /\ r' <> r
    /\ messages_of w3 r' = [].
Proof.
  apply (@clearing_forgets_unsaved_messages DatabaseSpec.unreachable
           plain_runtime "lead-1" "user" "hola" WHATSAPP start).
  - apply start_reachable.
  - discriminate.
  - intros st. right. intros q. reflexivity.
Defined.

Lemma added_message_witness :
  let added :=
    @add_message DatabaseSpec.unreachable plain_runtime
      "lead-1" "user" "hola" WHATSAPP start in
  exists c,
    heap (snd added) !! 1%positive = Some c
    /\ last (get_context_messages c) = Some ("user", "hola")
    /\ _active_conversations (snd added) !! cache_key "lead-1" WHATSAPP
       = Some 1%positive.
Proof.
  apply (@added_message_is_last_in_context DatabaseSpec.unreachable
           plain_runtime "lead-1" "user" "hola" WHATSAPP start 1%positive).
  - apply start_reachable.
  - vm_compute. reflexivity.
Defined.

End ConversationProofs.

(** ** First contact: [get_or_create_lead] and the conversation of a
    lead without id *)
Module LeadsProofs.
Import ConversationManager ConversationSpec CrmLeads LeadQualifier LeadsSpec.

Section Entry.
Context `{Database.Client} `{Runtime} `{Pydantic}.

Lemma conversation_of_None channel w :
  _active_conversations w !! cache_key "None" channel = None ->
  (forall st, DatabaseSpec.client_fails st) ->
  exists w', conversation_of None channel w = (Raise ValidationError, w').
Proof.
  intros Hkey Hfail. cbn [conversation_of].
  unfold bind at 1, get at 1. rewrite Hkey.
  unfold bind at 1, in_store at 1. unfold Database.get_conversation_by_lead.
  edestruct DatabaseProofs.guarded_row_fails as (st' & ->); [apply Hfail|].
  unfold raise. by eexists.
Qed.

(** X24.  First contact with the store down.  When the store client
    fails, [get_or_create_lead] does not raise: it returns a new lead
    for the phone, with status nuevo, score 0 and one interaction, but
    without an id, since nothing was stored.  The conversation of that
    lead cannot be opened: [get_or_create_conversation(lead.id, ...)],
    the first thing [add_message] and [qualify_lead] do, is given
    [None] and raises a validation error (unless a conversation
    happens to be cached under the key "None_<channel>"). *)
Theorem lead_without_id_cannot_converse (phone : string)
    (channel : ChannelType) (name : option string) (w : World) :
  (forall st, DatabaseSpec.client_fails st) ->
  _active_conversations w !! cache_key "None" channel = None ->
  exists lead w1 w2,
    get_or_create_lead phone channel name w = (Ok lead, w1)
    /\ lead_id lead = None
    /\ lead_phone lead = Some phone
    /\ lead_status lead = NUEVO
    /\ lead_score lead = 0
    /\ lead_preferences lead = LeadPreferences_default
    /\ lead_total_interactions lead = 1
    /\ conversation_of (lead_id lead) channel w1 = (Raise ValidationError, w2).
Proof.
  intros Hfail Hkey. unfold get_or_create_lead.
  unfold bind at 1, in_store at 1. unfold Database.get_lead_by_phone.
  edestruct DatabaseProofs.guarded_row_fails as (st1 & ->); [apply Hfail|].
  cbn [default]. change (truthy (JObj ∅)) with false. cbn iota.
  unfold bind at 1, now at 1. unfold bind at 1, now at 1.
  cbn [_active_conversations heap store ticks].
  unfold bind at 1, in_store at 1. unfold Database.create_lead.
  cbn [_active_conversations heap store ticks].
  edestruct DatabaseProofs.guarded_row_fails as (st2 & ->); [apply Hfail|].
  cbn [default]. change (truthy (JObj ∅)) with false. cbn iota.
  unfold bind at 1, ret at 1. unfold bind at 1, now at 1.
  unfold bind at 1, now at 1. unfold ret.
  cbn [_active_conversations heap store ticks].
  match goal with
  | |- exists lead w1 w2, (Ok ?l, ?w) = _ /\ _ =>
      destruct (conversation_of_None channel w) as (w2 & Hconv);
      [exact Hkey|exact Hfail|]; exists l, w, w2
  end.
  repeat split. exact Hconv.
Qed.

End Entry.

Lemma lead_without_id_witness :
  exists lead w1 w2,
    @get_or_create_lead DatabaseSpec.unreachable plain_runtime strict_pydantic
      "+34600000000" WHATSAPP (Some "Ana") start = (Ok lead, w1)
    /\ lead_id lead = None
    /\ lead_phone lead = Some "+34600000000"
    /\ lead_status lead = NUEVO
    /\ lead_score lead = 0
    /\ lead_preferences lead = LeadPreferences_default
    /\ lead_total_interactions lead = 1
    /\ @conversation_of DatabaseSpec.unreachable plain_runtime
         (lead_id lead) WHATSAPP w1 = (Raise ValidationError, w2).
Proof.
  apply (@lead_without_id_cannot_converse DatabaseSpec.unreachable
           plain_runtime strict_pydantic "+34600000000" WHATSAPP (Some "Ana")
           start).
  - intros st. right. intros q. reflexivity.
  - reflexivity.
Defined.

Section Qualifier.
Context `{Database.Client} `{Runtime} `{AiEngine.Service} `{AiEngine.Providers}.

(** [qualify_lead] once its conversation is at hand. *)
Lemma qualify_lead_eq channel w lead calls r w1 c :
  conversation_of (lead_id lead) channel w = (Ok r, w1) ->
  heap w1 !! r = Some c ->
  qualify_lead channel (session w lead calls) =
  match conv_messages c with
  | [] => (Ok tt, session w1 lead calls)
  | _ :: _ =>
      let run := AiEngine.extract_lead_info (get_full_conversation_text c) in
      let read lead calls :=
        {| q_world := w1; q_lead := lead; q_calls := calls;
           q_extractions := [snd run] |} in
      match fst run with
      | Raise x => (Raise x, read lead calls)
      | Ok extracted =>
          if negb (truthy extracted) then (Ok tt, read lead calls)
          else
            match extracted with
            | JObj e =>
                (fst (Crm.run_update lead e),
                 read (Crm.lead_after lead e) (calls ++ Crm.calls_of lead e))
            | _ => (Raise AttributeError, read lead calls)
            end
      end
  end.
Proof.
  intros Hconv Hc. unfold qualify_lead, session.
  unfold bind at 1, get at 1. cbn [q_lead].
  unfold bind at 1, in_world at 1. cbn [q_world]. rewrite Hconv.
  unfold bind at 1, in_world at 1. cbn [q_world q_lead q_calls q_extractions].
  unfold deref, bind at 1, get at 1. rewrite Hc. unfold ret at 1.
  destruct (conv_messages c) as [|m ms]; [reflexivity|].
  cbv zeta. unfold bind at 1, extracting at 1.
  cbn [q_world q_lead q_calls q_extractions app].
  destruct (fst (AiEngine.extract_lead_info _)) as [extracted|x]; [|reflexivity].
  destruct (negb (truthy extracted)); [reflexivity|].
  destruct extracted; try reflexivity.
  unfold in_crm. cbn [q_world q_lead q_calls q_extractions].
  by rewrite CrmProofs.update_after_calls.
Qed.


(** X25.  [qualify_lead] is [update_lead_from_extraction] on what
    [extract_lead_info] read from the conversation.  When the lead's
    conversation holds messages and the extraction read from its text
    is a non-empty dict, the qualification ends as the update on that
    extraction ends, leaves the lead object as that update leaves it,
    and makes exactly its store calls, after those made before: what is
    proved of the update holds of the qualification. *)
Theorem qualification_is_the_update_on_the_extraction (channel : ChannelType)
    (w : World) (lead : Lead) (calls : list Crm.db_call) (r : ref)
    (w1 : World) (c : Conversation) (e : dict) :
  conversation_of (lead_id lead) channel w = (Ok r, w1) ->
  heap w1 !! r = Some c ->
  conv_messages c <> [] ->
  fst (AiEngine.extract_lead_info (get_full_conversation_text c))
  = Ok (JObj e) ->
  truthy (JObj e) = true ->
  let run := qualify_lead channel (session w lead calls) in
  fst run = fst (Crm.run_update lead e)
  /\ q_lead (snd run) = Crm.lead_after lead e
  /\ q_calls (snd run) = calls ++ Crm.calls_of lead e
  /\ q_world (snd run) = w1.
Proof.
  intros Hconv Hc Hmsgs Hextract Htruthy. cbv zeta.
  rewrite (qualify_lead_eq _ _ _ _ _ _ _ Hconv Hc).
  destruct (conv_messages c) as [|m ms]; [done|].
  cbv zeta. rewrite Hextract, Htruthy. cbn [negb]. repeat split.
Qed.


End Qualifier.

Lemma qualification_witness :
  let run :=
    @qualify_lead DatabaseSpec.unreachable plain_runtime says_centro
      AiEngineSpec.openai_provider WHATSAPP (session after_hello known_lead [])
  in
  fst run = fst (Crm.run_update known_lead CrmSpec.keen_on_centro)
  /\ q_lead (snd run) = Crm.lead_after known_lead CrmSpec.keen_on_centro
  /\ q_calls (snd run) = [] ++ Crm.calls_of known_lead CrmSpec.keen_on_centro
  /\ q_world (snd run) = after_hello.
Proof.
  apply (@qualification_is_the_update_on_the_extraction
           DatabaseSpec.unreachable plain_runtime says_centro
           AiEngineSpec.openai_provider WHATSAPP after_hello known_lead []
           1%positive after_hello
           {| conv_id := JNull; conv_lead_id := "lead-1";
              conv_channel := WHATSAPP;
              conv_messages :=
                [{| msg_role := "user"; msg_content := "hola";
                    msg_timestamp := 0; msg_channel := Some WHATSAPP |}];
              conv_summary := JNull; conv_updated_at := Some 1 |}
           CrmSpec.keen_on_centro).
  - vm_compute. reflexivity.
  - vm_compute. reflexivity.
  - discriminate.
  - vm_compute. reflexivity.
  - vm_compute. reflexivity.
Defined.


Lemma missing_fields_steps lead :
  let prefs := lead_preferences lead in
  missing_fields lead =
  added_if (negb (truthy (purpose prefs)))
    (added_if (negb (truthy (bedrooms prefs)))
       (added_if (negb (truthy (lead_name lead)))
          (added_if (negb (truthy (urgency prefs)))
             (added_if (negb (truthy (property_type prefs)))
                (added_if (negb (truthy (operation prefs)))
                   (added_if (negb (truthy (max_budget prefs))
                              && negb (truthy (min_budget prefs)))
                      (added_if (negb (truthy (zone prefs))) []
                         ("zona o barrio de interés", 15))
                      ("presupuesto aproximado", 15))
                   ("si quiere comprar o alquilar", 10))
                ("tipo de inmueble (piso, casa, etc.)", 10))
             ("urgencia / cuándo lo necesita", 10))
          ("nombre del cliente", 5))
       ("número de habitaciones", 5))
    ("finalidad (vivienda habitual, inversión...)", 5).
Proof. reflexivity. Qed.

Lemma points_added_if b l x :
  points (added_if b l x) = points l + CrmSpec.pts b (snd x).
Proof.
  unfold added_if, points, CrmSpec.pts. destruct b; [|lia].
  rewrite map_app, fold_right_app. cbn [map fold_right].
  generalize (map snd l). intros zs. induction zs as [|z zs IH]; cbn; lia.
Qed.

Lemma insert_last x sorted :
  Forall (fun y => snd x <= snd y) sorted ->
  insert_by_points x sorted = sorted ++ [x].
Proof.
  induction 1 as [|y rest Hy _ IH]; [done|]. cbn [insert_by_points app].
  destruct (snd y <? snd x) eqn:Hlt; [lia|]. by rewrite IH.
Qed.

Lemma sort_from sorted l n :
  Forall (fun y => n <= snd y) sorted -> falls_from n l ->
  fold_left (fun sorted x => insert_by_points x sorted) l sorted = sorted ++ l.
Proof.
  revert sorted n. induction l as [|x l IH]; intros sorted n Hall Hfalls.
  { by rewrite app_nil_r. }
  destruct Hfalls as [Hx Hrest]. cbn [fold_left].
  rewrite insert_last.
  - rewrite (IH _ (snd x)); [by rewrite <- app_assoc| |done].
    apply Forall_app. split; [|by constructor].
    eapply Forall_impl; [exact Hall|]. cbn. intros; lia.
  - eapply Forall_impl; [exact Hall|]. cbn. intros; lia.
Qed.

Lemma falls_added_if n m m' b l s :
  falls_from n l /\ Forall (fun y => m <= snd y) l ->
  m' <= m -> m' <= n ->
  falls_from n (added_if b l (s, m'))
  /\ Forall (fun y => m' <= snd y) (added_if b l (s, m')).
Proof.
  intros [Hfalls Hall] Hm Hn. unfold added_if. destruct b.
  - split.
    + revert n Hfalls Hn Hall.
      induction l as [|y l IH]; intros n Hfalls Hn Hall; [by cbn|].
      destruct Hfalls as [Hy Hrest]. apply Forall_cons in Hall as [Hmy Hall].
      cbn [app falls_from]. split; [done|]. apply IH; [done|lia|done].
    + apply Forall_app. split; [|by constructor].
      eapply Forall_impl; [exact Hall|]. cbn. intros; lia.
  - split; [done|]. eapply Forall_impl; [exact Hall|]. cbn. intros; lia.
Qed.

Lemma pts_negb b n : CrmSpec.pts (negb b) n = n - CrmSpec.pts b n.
Proof. destruct b; cbn; lia. Qed.

Lemma pts_urgency u s :
  CrmSpec.pts u (10 + CrmSpec.pts s 10)
  = CrmSpec.pts u 10 + CrmSpec.pts (u && s) 10.
Proof. by destruct u, s. Qed.

(** X27.  The points [build_qualification_context] promises for the
    data still missing are the points [calculate_lead_score] gives for
    them: for every lead, the points of its profile (without the bonus
    for a near urgency) and the points listed for what is missing add
    up to 75, so each field is listed with exactly what it will add to
    the score when it is known.  The list is built most valuable
    first, and sorting it changes nothing. *)
Theorem advertised_points_match_the_score (lead : Lead) :
  sort_by_points (missing_fields lead) = missing_fields lead
  /\ CrmSpec.profile_points lead + points (missing_fields lead)
     = 75 + urgency_bonus lead.
Proof.
  rewrite missing_fields_steps. cbv zeta. split.
  - unfold sort_by_points. apply (sort_from [] _ 15); [constructor|].
    apply (falls_added_if 15 5 5); [|lia|lia].
    apply (falls_added_if 15 5 5); [|lia|lia].
    apply (falls_added_if 15 10 5); [|lia|lia].
    apply (falls_added_if 15 10 10); [|lia|lia].
    apply (falls_added_if 15 10 10); [|lia|lia].
    apply (falls_added_if 15 15 10); [|lia|lia].
    apply (falls_added_if 15 15 15); [|lia|lia].
    apply (falls_added_if 15 15 15); [|lia|lia].
    by split.
  - rewrite !points_added_if. cbn [snd].
    unfold CrmSpec.profile_points, urgency_bonus.
    rewrite <- negb_orb, !pts_negb, pts_urgency.
    change (points []) with 0. lia.
Qed.

End LeadsProofs.

(** ** tools/scheduler.py: the slots of a day *)
Module SchedulerProofs.
Import Scheduler SchedulerSpec.

Section Slots.
Context `{Calendar}.

(** The loop over the events says a slot is available exactly when
    it is clear of them. *)
Lemma is_available_clear current slot_end events b :
  is_available current slot_end events = Ok b ->
  (b = true <->
   clear_of events {| slot_start := current; Scheduler.slot_end := slot_end |}).
Proof.
  revert b. induction events as [|event rest IH]; intros b.
  { cbn. intros [= <-]. split; [constructor|done]. }
  cbn [is_available].
  destruct (fromisoformat (fst event)) as [es|] eqn:Hs; cbn [rbind]; [|done].
  destruct (fromisoformat (snd event)) as [ee|] eqn:He; cbn [rbind]; [|done].
  destruct ((current <? ee) && (es <? slot_end)) eqn:Hover.
  - intros [= <-]. split; [done|]. intros Hclear.
    apply Forall_cons in Hclear as [(es' & ee' & Hs' & He' & Hno) _].
    rewrite Hs in Hs'. rewrite He in He'. injection Hs' as <-. injection He' as <-.
    unfold overlaps in Hno. cbn in Hno. congruence.
  - intros Hrest. specialize (IH b Hrest). rewrite IH. split.
    + intros Hclear. constructor; [|done]. by exists es, ee.
    + by intros [_ ?]%Forall_cons.
Qed.

(** What the [while] loop adds: the slots found, and only those. *)
Lemma scan_found rounds current end_time duration_minutes events available out :
  scan rounds current end_time duration_minutes events available = Ok out ->
  exists new,
    out = available ++ new
    /\ forall s,
         s ∈ new <->
         found current end_time (minutes duration_minutes) events rounds s.
Proof.
  set (duration := minutes duration_minutes).
  revert current available.
  induction rounds as [|rounds IH]; intros current available.
  { cbn [scan]. intros [= <-]. exists []. rewrite app_nil_r. split; [done|].
    intros s. split; [by intros ?%elem_of_nil|].
    intros (_ & _ & _ & k & Hk & _). lia. }
  cbn [scan]. unfold timedelta, plus.
  destruct ((-999999999 <=? duration_minutes / 1440)
            && (duration_minutes / 1440 <=? 999999999)); cbn [rbind]; [|done].
  fold duration.
  destruct (in_range (current + duration)); cbn [rbind]; [|done].
  destruct (current + duration <=? end_time) eqn:Hfits.
  2:{ intros [= <-]. exists []. rewrite app_nil_r. split; [done|].
      intros s. split; [by intros ?%elem_of_nil|].
      intros (_ & Hend & Hle & k & Hk & Hstart).
      apply Z.leb_gt in Hfits. unfold minutes, minute in Hstart. lia. }
  apply Z.leb_le in Hfits.
  destruct (is_available current (current + duration) events) as [free|] eqn:Hfree;
    cbn [rbind]; [|done].
  pose proof (is_available_clear _ _ _ _ Hfree) as Hclear.
  destruct (in_range (current + minutes 30)); cbn [rbind]; [|done].
  intros Hrest. apply IH in Hrest as (new & -> & Hnew).
  set (slot := {| slot_start := current; slot_end := current + duration |}) in *.
  exists ((if free then [slot] else []) ++ new). split.
  { destruct free; by rewrite <- ?app_assoc, ?app_nil_r. }
  intros s. rewrite elem_of_app, Hnew. split.
  - intros [Hhere|(Hc & Hend & Hle & k & Hk & Hstart)].
    + destruct free; [|by apply elem_of_nil in Hhere].
      apply list_elem_of_singleton in Hhere as ->.
      split; [by apply Hclear|]. split; [done|]. split; [done|].
      exists 0. split; [lia|]. cbn [slot slot_start]. lia.
    + split; [done|]. split; [done|]. split; [done|].
      exists (k + 1). split; [lia|]. rewrite Hstart. unfold minutes. lia.
  - intros (Hc & Hend & Hle & k & Hk & Hstart).
    destruct (decide (k = 0)) as [->|Hpos].
    + left. assert (Hs : s = slot).
      { destruct s as [a b]. cbn [slot_start slot_end] in *. unfold slot.
        f_equal; lia. }
      subst s. apply Hclear in Hc. subst free. by apply list_elem_of_singleton.
    + right. split; [done|]. split; [done|]. split; [done|].
      exists (k - 1). split; [lia|]. rewrite Hstart. unfold minutes. lia.
Qed.

(** One round of the loop. *)
Lemma scan_round rounds current end_time duration_minutes events available :
  scan (S rounds) current end_time duration_minutes events available
  = (let? duration := timedelta duration_minutes in
     let? tested := plus current duration in
     if tested <=? end_time then
       let? duration := timedelta duration_minutes in
       let? slot_end := plus current duration in
       let? free := is_available current slot_end events in
       let available :=
         if (free : bool)
         then available ++ [{| slot_start := current; slot_end := slot_end |}]
         else available in
       let? current := plus current (minutes 30) in
       scan rounds current end_time duration_minutes events available
     else Ok available).
Proof. reflexivity. Qed.

(** The loop has ended by the time its rounds are used up: a round
    more changes nothing. *)
Lemma scan_has_ended rounds current end_time duration_minutes events available :
  (rounds_from current end_time (minutes duration_minutes) < rounds)%nat ->
  scan (S rounds) current end_time duration_minutes events available
  = scan rounds current end_time duration_minutes events available.
Proof.
  set (duration := minutes duration_minutes).
  revert current available.
  induction rounds as [|rounds IH]; intros current available Hlt; [lia|].
  rewrite (scan_round (S rounds)), (scan_round rounds current).
  destruct (timedelta duration_minutes) as [d|] eqn:Hd; cbn [rbind]; [|done].
  assert (d = duration) as ->.
  { unfold timedelta in Hd. by destruct (_ && _); [injection Hd as <-|]. }
  unfold plus.
  destruct (in_range (current + duration)); cbn [rbind]; [|done].
  destruct (current + duration <=? end_time) eqn:Hfits; [|done].
  apply Z.leb_le in Hfits.
  destruct (is_available _ _ _); cbn [rbind]; [|done].
  destruct (in_range (current + minutes 30)); cbn [rbind]; [|done].
  apply IH. unfold rounds_from in *. fold duration in Hlt |- *.
  replace (end_time - duration - (current + minutes 30))
    with ((end_time - duration - current) + (-1) * minutes 30) by lia.
  rewrite Z.div_add by done.
  assert (0 <= (end_time - duration - current) / minutes 30).
  { apply Z.div_pos; [lia|done]. }
  lia.
Qed.

(** The bound on the rounds covers every start that fits. *)
Lemma rounds_cover current end_time duration k :
  0 <= k -> current + minutes 30 * k + duration <= end_time ->
  k < Z.of_nat (rounds_from current end_time duration).
Proof.
  intros Hk Hfits. unfold rounds_from.
  assert (Hle : k <= (end_time - duration - current) / minutes 30).
  { apply Z.div_le_lower_bound; [done|lia]. }
  lia.
Qed.

Lemma scan_range_fits r duration_minutes events available out :
  scan_range r duration_minutes events available = Ok out ->
  exists new,
    out = available ++ new
    /\ forall s,
         s ∈ new <->
         clear_of events s /\ fits r (minutes duration_minutes) s.
Proof.
  unfold scan_range, fits, opens, closes.
  destruct (tr_start r) as [start_h start_m], (tr_end r) as [end_h end_m].
  cbn [fst snd].
  intros Hscan. apply scan_found in Hscan as (new & -> & Hnew).
  exists new. split; [done|]. intros s. rewrite Hnew. unfold found. split.
  - intros (Hc & Hend & Hle & k & Hk & Hstart). split; [done|].
    split; [done|]. split; [done|]. exists k. split; [lia|done].
  - intros (Hc & Hend & Hle & k & Hk & Hstart). split; [done|].
    split; [done|]. split; [done|]. exists k. split; [|done].
    split; [done|].
    assert (k < Z.of_nat (rounds_from (at_time start_h start_m)
                            (at_time end_h end_m) (minutes duration_minutes)))
      by (apply rounds_cover; [done|lia]).
    lia.
Qed.

Lemma scan_ranges_fit ranges duration_minutes events available out :
  scan_ranges ranges duration_minutes events available = Ok out ->
  exists new,
    out = available ++ new
    /\ forall s, s ∈ new <->
         clear_of events s
         /\ exists r, r ∈ ranges /\ fits r (minutes duration_minutes) s.
Proof.
  revert available. induction ranges as [|r ranges IH]; intros available.
  { cbn [scan_ranges]. intros [= <-]. exists []. rewrite app_nil_r.
    split; [done|]. intros s. split; [by intros ?%elem_of_nil|].
    by intros (_ & r & ?%elem_of_nil & _). }
  cbn [scan_ranges].
  destruct (scan_range r duration_minutes events available) as [mid|] eqn:Hr;
    cbn [rbind]; [|done].
  apply scan_range_fits in Hr as (new1 & -> & Hnew1).
  intros Hrest. apply IH in Hrest as (new2 & -> & Hnew2).
  exists (new1 ++ new2). split; [by rewrite app_assoc|].
  intros s. rewrite elem_of_app, Hnew1, Hnew2. split.
  - intros [[Hc Hfit]|(Hc & r' & Hin & Hfit)].
    + split; [done|]. exists r. split; [by left|done].
    + split; [done|]. exists r'. split; [by right|done].
  - intros (Hc & r' & Hin & Hfit).
    apply elem_of_cons in Hin as [->|Hin]; [by left|].
    right. split; [done|]. by exists r'.
Qed.

(** X28.  The slots [get_available_slots] offers.  Whenever it
    returns, for any date and any visit length: on a Sunday it
    offers nothing; on any other day a slot is offered exactly when it
    lasts the asked length, starts a whole number of half hours after
    the opening of one of the day's visiting ranges (10 to 14 on a
    Saturday, 10 to 13 and 16 to 20 otherwise), ends by the closing of
    that range, and overlaps no event of the calendar, each of whose
    times could be read.  No free half hour of the visiting hours is
    left out, and nothing outside them or across an event is
    offered. *)
Theorem offered_slots_are_the_free_ones (date : json) (duration_minutes : Z)
    (slots : list Slot) :
  free_slots date duration_minutes = Ok slots ->
  exists day,
    day_name date = Ok day
    /\ if String.eqb day "sunday" then slots = []
       else
         exists existing_events,
           _get_events_for_date date = Ok existing_events
           /\ forall s,
                s ∈ slots <->
                clear_of existing_events s
                /\ exists r, r ∈ time_ranges day
                             /\ fits r (minutes duration_minutes) s.
Proof.
  unfold free_slots. destruct (day_name date) as [day|]; cbn [rbind]; [|done].
  intros Hslots. exists day. split; [done|].
  destruct (String.eqb day "sunday"); [by injection Hslots|].
  destruct (_get_events_for_date date) as [existing_events|]; cbn [rbind];
    [|done].
  exists existing_events. split; [done|].
  apply scan_ranges_fit in Hslots as (new & -> & Hnew). exact Hnew.
Qed.

End Slots.

Lemma offered_slots_witness :
  exists day,
    @day_name quiet_tuesday (JStr "2024-01-16") = Ok day
    /\ if String.eqb day "sunday" then
         [ {| slot_start := at_time 10 0; slot_end := at_time 10 45 |};
           {| slot_start := at_time 10 30; slot_end := at_time 11 15 |};
           {| slot_start := at_time 11 0; slot_end := at_time 11 45 |};
           {| slot_start := at_time 11 30; slot_end := at_time 12 15 |};
           {| slot_start := at_time 12 0; slot_end := at_time 12 45 |};
           {| slot_start := at_time 16 0; slot_end := at_time 16 45 |};
           {| slot_start := at_time 16 30; slot_end := at_time 17 15 |};
           {| slot_start := at_time 17 0; slot_end := at_time 17 45 |};
           {| slot_start := at_time 17 30; slot_end := at_time 18 15 |};
           {| slot_start := at_time 18 0; slot_end := at_time 18 45 |};
           {| slot_start := at_time 18 30; slot_end := at_time 19 15 |};
           {| slot_start := at_time 19 0; slot_end := at_time 19 45 |} ] = []
       else
         exists existing_events,
           @_get_events_for_date quiet_tuesday (JStr "2024-01-16")
           = Ok existing_events
           /\ forall s,
           s ∈ [ {| slot_start := at_time 10 0; slot_end := at_time 10 45 |};
                 {| slot_start := at_time 10 30; slot_end := at_time 11 15 |};
                 {| slot_start := at_time 11 0; slot_end := at_time 11 45 |};
                 {| slot_start := at_time 11 30; slot_end := at_time 12 15 |};
                 {| slot_start := at_time 12 0; slot_end := at_time 12 45 |};
                 {| slot_start := at_time 16 0; slot_end := at_time 16 45 |};
                 {| slot_start := at_time 16 30; slot_end := at_time 17 15 |};
                 {| slot_start := at_time 17 0; slot_end := at_time 17 45 |};
                 {| slot_start := at_time 17 30; slot_end := at_time 18 15 |};
                 {| slot_start := at_time 18 0; slot_end := at_time 18 45 |};
                 {| slot_start := at_time 18 30; slot_end := at_time 19 15 |};
                 {| slot_start := at_time 19 0; slot_end := at_time 19 45 |} ] <->
           @clear_of quiet_tuesday existing_events s
           /\ exists r, r ∈ time_ranges day
                        /\ fits r (minutes DEFAULT_VISIT_DURATION) s.
Proof.
  apply (@offered_slots_are_the_free_ones quiet_tuesday (JStr "2024-01-16")
           DEFAULT_VISIT_DURATION).
  vm_compute. reflexivity.
Defined.

End SchedulerProofs.

(** ** tools/human_handoff.py: what a hand-off reports *)
Module HandoffProofs.
Import NurturingEngine NurturingSpec HumanHandoff HandoffSpec.

Section Handoff.
Context `{Outside} `{Team}.

(** [send_whatsapp_message] never raises. *)
Lemma send_whatsapp_eq to body st :
  send_whatsapp_message to body st =
  (Ok tt,
   {| actions_taken := actions_taken st;
      events := events st ++
        [TwilioCreate to body;
         if is_ok (twilio (length (events st)) to body)
         then PrintWhatsAppSent to else PrintWhatsAppError to] |}).
Proof.
  unfold send_whatsapp_message, try_except, bind, get, emit, modify, lift.
  cbn [actions_taken events fst snd].
  destruct (twilio _ _ _); cbn [is_ok actions_taken events];
    rewrite <- !app_assoc; reflexivity.
Qed.

(** [send_email] raises when the request fails. *)
Lemma send_email_eq to_email subject body st :
  send_email to_email subject body st =
  match sendgrid (length (events st)) to_email subject body with
  | Ok _ =>
      (Ok tt,
       {| actions_taken := actions_taken st;
          events := events st ++ [SendgridPost to_email subject body;
                                  PrintEmailSent to_email] |})
  | Raise e =>
      (Raise e,
       {| actions_taken := actions_taken st;
          events := events st ++ [SendgridPost to_email subject body] |})
  end.
Proof.
  unfold send_email, bind, get, emit, modify, lift.
  cbn [actions_taken events fst snd].
  destruct (sendgrid _ _ _ _) as [[]|e]; cbn [actions_taken events];
    rewrite <- ?app_assoc; reflexivity.
Qed.

Lemma handoff_eq
    (lead_name lead_phone lead_email lead_score channel reason
       conversation_summary last_message : json)
    (label : string) (msg : fstring) (st : State) :
  reason_label reason = Ok label ->
  whatsapp_msg label lead_name lead_phone lead_email lead_score channel
    conversation_summary last_message = Ok msg ->
  let subject := email_subject label lead_name lead_phone in
  let body :=
    email_body label lead_name lead_phone lead_email lead_score channel
      conversation_summary last_message in
  let sent := whatsapp_part (length (events st)) msg in
  let n := length (events st ++ sent) in
  handoff_to_human lead_name lead_phone lead_email lead_score channel
    reason conversation_summary last_message st
  = (Ok (truthy (JStr TEAM_WHATSAPP)
         || truthy (JStr TEAM_EMAIL)
            && is_ok (sendgrid n (JStr TEAM_EMAIL) subject body)),
     {| actions_taken := actions_taken st;
        events := events st ++ sent ++ email_part n subject body |}).
Proof.
  intros Hlabel Hmsg. cbv zeta.
  unfold handoff_to_human, whatsapp_part, email_part.
  unfold bind at 1, lift at 1. rewrite Hlabel.
  unfold bind at 1.
  destruct (truthy (JStr TEAM_WHATSAPP)).
  - unfold bind at 1, lift at 1. rewrite Hmsg.
    unfold try_except at 1, bind at 1. rewrite send_whatsapp_eq. unfold ret at 1.
    cbn [orb]. unfold bind at 1.
    destruct (truthy (JStr TEAM_EMAIL)).
    + unfold try_except, bind at 1. rewrite send_email_eq.
      cbn [actions_taken events].
      destruct (sendgrid _ _ _ _) as [[]|e]; unfold ret;
        cbn [actions_taken events is_ok]; by rewrite <- ?app_assoc.
    + unfold ret. cbn [actions_taken events]. by rewrite app_nil_r.
  - unfold ret at 1. cbn [orb app]. rewrite app_nil_r. unfold bind at 1.
    destruct (truthy (JStr TEAM_EMAIL)).
    + unfold try_except, bind at 1. rewrite send_email_eq.
      destruct (sendgrid _ _ _ _) as [[]|e]; unfold ret;
        cbn [actions_taken events is_ok andb]; done.
    + unfold ret. cbn [andb]. rewrite app_nil_r. by destruct st.
Qed.

(** X29.  What [handoff_to_human] reports.  Whenever the two
    notifications can be written (the reason can be looked up, the
    texts are texts), the call returns, and it returns [True] as soon
    as a WhatsApp number of the team is configured, whether or not the
    message went out: [send_whatsapp_message] catches its own
    failures, so the failure is only printed.  Without a WhatsApp
    number it returns [True] exactly when an email address is
    configured and the email request succeeded; with neither it sends
    nothing and returns [False]. *)
Theorem handoff_reports_success_without_delivery
    (lead_name lead_phone lead_email lead_score channel reason
       conversation_summary last_message : json)
    (label : string) (msg : fstring) (st : State) :
  reason_label reason = Ok label ->
  whatsapp_msg label lead_name lead_phone lead_email lead_score channel
    conversation_summary last_message = Ok msg ->
  let run :=
    handoff_to_human lead_name lead_phone lead_email lead_score channel
      reason conversation_summary last_message st in
  let subject := email_subject label lead_name lead_phone in
  let body :=
    email_body label lead_name lead_phone lead_email lead_score channel
      conversation_summary last_message in
  let sent := whatsapp_part (length (events st)) msg in
  let n := length (events st ++ sent) in
  fst run
  = Ok (truthy (JStr TEAM_WHATSAPP)
        || truthy (JStr TEAM_EMAIL)
           && is_ok (sendgrid n (JStr TEAM_EMAIL) subject body))
  /\ events (snd run) = events st ++ sent ++ email_part n subject body.
Proof.
  intros Hlabel Hmsg. cbv zeta.
  pose proof (handoff_eq lead_name lead_phone lead_email lead_score channel
                reason conversation_summary last_message label msg st
                Hlabel Hmsg) as Heq.
  cbv zeta in Heq. rewrite Heq. split; reflexivity.
Qed.

End Handoff.

Lemma handoff_witness :
  let to := [Lit "whatsapp:"; Lit "+34611111111"] in
  let run :=
    @handoff_to_human nothing_delivers whatsapp_team
      (JStr "Ana") (JStr "+34600000000") (JStr "") (JInt 80) (JStr "whatsapp")
      (JStr "urgente") (JStr "") (JStr "") initial in
  exists msg,
    fst run = Ok true
    /\ events (snd run) = [TwilioCreate to msg; PrintWhatsAppError to].
Proof.
  cbv zeta. eexists.
  refine (@handoff_reports_success_without_delivery nothing_delivers
            whatsapp_team (JStr "Ana") (JStr "+34600000000") (JStr "")
            (JInt 80) (JStr "whatsapp") (JStr "urgente") (JStr "") (JStr "")
            "🔴 URGENTE" _ initial _ _).
  - reflexivity.
  - reflexivity.
Defined.

End HandoffProofs.
